(** * Lottery administration: numbering scheme and winner integrity guard

    A shallow embedding of the parts of the application that carry
    invariants:

    - [src/lib/supabase.ts]: the ticket-number / diary arithmetic and the
      5-digit formatting of ticket numbers;
    - [database/create_lottery_winners.sql] and
      [database/fix_lottery_winners_data_integrity.sql]: the
      [lottery_winners] table, its constraints and its row triggers;
    - [src/pages/Winners.tsx] ([handleSaveEdit]) and [src/pages/Search.tsx]
      ([getRemainingQuantity], [registerWinner]): the two write paths of
      the application into that table;
    - [src/pages/Winners.tsx] ([handleEdit], [handleDelete]), the paged
      reading of a table ([fetchWinners], [getMissingTickets]) and the
      report of the tickets not sold yet ([getMissingTickets]);
    - [src/pages/Search.tsx] ([handleQuickSearch]) and
      [src/pages/TicketSales.tsx] ([handleTicketSearch]): what the two
      searches by number do with the text typed;
    - the view [prize_category_stats] of
      [database/create_lottery_winners.sql].

    JavaScript numbers are modelled by [Z]: every function below is used on
    integer values far below 2^53, where the double arithmetic of the
    source gives the integer results written here.  Strings are [string]s
    of one-byte characters. *)

From Stdlib Require Import ZArith QArith Qround Lia Bool List Ascii String.
From Equations Require Import Equations.
From stdpp Require Import gmap strings sorting.
Import ListNotations.

Local Open Scope string_scope.
Local Open Scope Z_scope.

(* ===================================================================== *)
(** * Stripping characters from the ends of a string *)
(* ===================================================================== *)

Module Text.
Section Strip.
Variable strip : ascii -> bool.

Fixpoint drop_leading (s : string) : string :=
  match s with
  | String c rest => if strip c then drop_leading rest else s
  | EmptyString => ""
  end.

(** A right-to-left pass: a character is dropped when [strip] holds of
    it and everything after it was dropped. *)
Fixpoint drop_trailing (s : string) : string :=
  match s with
  | String c rest =>
      match drop_trailing rest with
      | EmptyString => if strip c then "" else String c ""
      | kept => String c kept
      end
  | EmptyString => ""
  end.

Fixpoint all_of (s : string) : bool :=
  match s with
  | String c rest => strip c && all_of rest
  | EmptyString => true
  end.

Definition starts_clean (t : string) : Prop :=
  forall c rest, t = String c rest -> strip c = false.

Definition ends_clean (t : string) : Prop :=
  forall front c, t = front ++ String c "" -> strip c = false.

(** [t] is [s] without its leading and trailing [strip] characters. *)
Definition stripped (s t : string) : Prop :=
  (exists before after,
     s = before ++ t ++ after
     /\ all_of before = true /\ all_of after = true)
  /\ starts_clean t /\ ends_clean t.
End Strip.
End Text.

(* ===================================================================== *)
(** * JavaScript primitives used by the source *)
(* ===================================================================== *)

Module JS.

(** [Math.ceil] of a rational. *)
Definition Math_ceil (x : Q) : Z := Qceiling x.

(** [a / b] on integer-valued numbers, before any rounding to an
    integer.  For [|a| < 2^53] and [b = 22] the double quotient is
    either exact (an integer) or further from every integer than its
    rounding error, so [Math.ceil] of it is [Math_ceil] of the exact
    quotient. *)
Definition div (a b : Z) : Q := (inject_Z a / inject_Z b)%Q.

(** Decimal digit characters. *)
Definition digit_char (d : Z) : ascii := ascii_of_N (Z.to_N (48 + d)).

Definition is_digit (d : Z) : Prop := 0 <= d < 10.

Definition digit_value (c : ascii) : option Z :=
  let k := Z.of_N (N_of_ascii c) in
  if (48 <=? k) && (k <=? 57) then Some (k - 48) else None.

(** Decimal digits of a non-negative integer, most significant first. *)
Equations? decimal_digits (n : Z) : list Z by wf (Z.to_nat n) lt :=
  decimal_digits n with Z_lt_dec n 10 := {
    | left _ := [n];
    | right _ := decimal_digits (n / 10) ++ [n mod 10] }.
Proof. assert (n / 10 < n) by (apply Z.div_lt; lia). lia. Qed.

Definition render (ds : list Z) : string :=
  string_of_list_ascii (List.map digit_char ds).

(** [Number.prototype.toString()] on an integer value (plain decimal
    notation, which JavaScript uses below 10^21).  A number is written
    with its own digits up to 2^53; the statements about [toString] stay
    within that range. *)
Definition toString (n : Z) : string :=
  if n <? 0 then String "-" (render (decimal_digits (- n)))
  else render (decimal_digits n).

(** [fill] repeated and cut to [k] characters; [cur] is what is left of
    the current copy of [fill]. *)
Fixpoint filler (k : nat) (fill cur : string) : string :=
  match k with
  | O => ""
  | S k' =>
      match cur with
      | String c rest => String c (filler k' fill rest)
      | EmptyString =>
          match fill with
          | String c rest => String c (filler k' fill rest)
          | EmptyString => ""
          end
      end
  end.

(** [String.prototype.padStart(targetLength, fillString)]. *)
Definition padStart (targetLength : nat) (fillString s : string) : string :=
  if (targetLength <=? String.length s)%nat then s
  else filler (targetLength - String.length s) fillString fillString ++ s.

(** White space and line terminators among one-byte characters:
    TAB, LF, VT, FF, CR, SP and NBSP. *)
Definition is_white_space (c : ascii) : bool :=
  let k := N_of_ascii c in
  ((9 <=? k) && (k <=? 13) || (k =? 32) || (k =? 160))%N.

Definition trimStart (s : string) : string := Text.drop_leading is_white_space s.
Definition trimEnd (s : string) : string := Text.drop_trailing is_white_space s.

(** [String.prototype.trim()]. *)
Definition trim (s : string) : string := trimEnd (trimStart s).

(** The longest prefix of decimal digits, as digit values. *)
Fixpoint digit_prefix (s : string) : list Z :=
  match s with
  | String c rest =>
      match digit_value c with
      | Some d => d :: digit_prefix rest
      | None => []
      end
  | EmptyString => []
  end.

Definition decimal_value (ds : list Z) : Z :=
  List.fold_left (fun acc d => acc * 10 + d) ds 0.

(** [parseInt(s, 10)]: skip leading white space, read an optional sign,
    then the longest run of decimal digits; [None] is [NaN]. *)
Definition parseInt10 (s : string) : option Z :=
  let s1 := trimStart s in
  let '(sign, s2) :=
    match s1 with
    | String "-" rest => (-1, rest)
    | String "+" rest => (1, rest)
    | _ => (1, s1)
    end in
  match digit_prefix s2 with
  | [] => None
  | ds => Some (sign * decimal_value ds)
  end.

End JS.

(* ===================================================================== *)
(** * [src/lib/supabase.ts]: numbering scheme *)
(* ===================================================================== *)

Module Numbering.

Record TicketRange := { start : Z; end_ : Z }.

Definition getDiaryFromLotteryNumber (lotteryNumber : Z) : Z :=
  if lotteryNumber <=? 39996 then
    JS.Math_ceil (JS.div lotteryNumber 22)
  else
    1819.

Definition getTicketRangeForDiary (diaryNumber : Z) : TicketRange :=
  if diaryNumber =? 1819 then
    {| start := 39997; end_ := 39999 |}
  else
    {| start := (diaryNumber - 1) * 22 + 1; end_ := diaryNumber * 22 |}.

Definition validateLotteryNumberForDiary (lotteryNumber diaryNumber : Z) : bool :=
  let range := getTicketRangeForDiary diaryNumber in
  (start range <=? lotteryNumber) && (lotteryNumber <=? end_ range).

Definition formatLotteryNumber (lotteryNumber : Z) : string :=
  JS.padStart 5 "0" (JS.toString lotteryNumber).

Definition parseLotteryNumber (lotteryNumberString : string) : option Z :=
  JS.parseInt10 lotteryNumberString.

(** The plain ceiling formula of the specification, with no special case
    for the last diary. *)
Definition ceil_formula (n : Z) : Z := JS.Math_ceil (JS.div n 22).

(** The general branch of [getTicketRangeForDiary], taken alone. *)
Definition general_range (diaryNumber : Z) : TicketRange :=
  {| start := (diaryNumber - 1) * 22 + 1; end_ := diaryNumber * 22 |}.

(** [range] contains [n]. *)
Definition contains (range : TicketRange) (n : Z) : Prop :=
  start range <= n <= end_ range.

(** Number of tickets of a range. *)
Definition size (range : TicketRange) : Z := end_ range - start range + 1.

End Numbering.

(* ===================================================================== *)
(** * PostgreSQL primitives used by the triggers *)
(* ===================================================================== *)

Module SQL.

(** A nullable value; [None] is [NULL].  A condition is three-valued. *)
Definition IS_NULL {A} (x : option A) : option bool :=
  Some (match x with None => true | Some _ => false end).

Definition IS_NOT_NULL {A} (x : option A) : option bool :=
  Some (match x with None => false | Some _ => true end).

Definition OR (a b : option bool) : option bool :=
  match a, b with
  | Some true, _ | _, Some true => Some true
  | Some false, Some false => Some false
  | _, _ => None
  end.

Definition AND (a b : option bool) : option bool :=
  match a, b with
  | Some false, _ | _, Some false => Some false
  | Some true, Some true => Some true
  | _, _ => None
  end.

Definition EQ (a b : option Z) : option bool :=
  match a, b with
  | Some x, Some y => Some (x =? y)
  | _, _ => None
  end.

Definition NEQ (a b : option Z) : option bool :=
  match a, b with
  | Some x, Some y => Some (negb (x =? y))
  | _, _ => None
  end.

Definition GT (a b : option Z) : option bool :=
  match a, b with
  | Some x, Some y => Some (y <? x)
  | _, _ => None
  end.

(** [IF c THEN ...] runs its body, and [CHECK (c)] of a row fails, only
    on a definite answer. *)
Definition is_true (c : option bool) : bool :=
  match c with Some true => true | _ => false end.

Definition is_false (c : option bool) : bool :=
  match c with Some false => true | _ => false end.

Definition is_space (c : ascii) : bool := (N_of_ascii c =? 32)%N.

(** [TRIM(s)] is [TRIM(BOTH ' ' FROM s)]: it removes the space character
    from both ends. *)
Definition trim_text (s : string) : string :=
  Text.drop_trailing is_space (Text.drop_leading is_space s).

Definition TRIM (x : option string) : option string := option_map trim_text x.

Definition LENGTH (x : option string) : option Z :=
  option_map (fun s => Z.of_nat (String.length s)) x.

End SQL.

(* ===================================================================== *)
(** * The [lottery_winners] table *)
(* ===================================================================== *)

Module Store.

Definition uuid := string.
Definition timestamp := Z.

(** A row of [lottery_winners], as a trigger sees it in [OLD] and [NEW]:
    every column may hold [NULL] until the constraints are checked. *)
Record lottery_winner := {
  id : option uuid;
  lottery_number : option Z;
  ticket_sale_id : option uuid;
  prize_category : option string;
  prize_quantity : option Z;
  winner_name : option string;
  winner_contact : option string;
  winner_address : option string;
  diary_number : option Z;
  registered_at : option timestamp;
  registered_by : option uuid;
  notes : option string;
  created_at : option timestamp;
  updated_at : option timestamp
}.

(** Assignments [NEW.column = value]. *)
Definition set_prize_category (v : option string) (r : lottery_winner) :=
  {| id := id r; lottery_number := lottery_number r; ticket_sale_id := ticket_sale_id r;
     prize_category := v; prize_quantity := prize_quantity r;
     winner_name := winner_name r; winner_contact := winner_contact r;
     winner_address := winner_address r; diary_number := diary_number r;
     registered_at := registered_at r; registered_by := registered_by r;
     notes := notes r; created_at := created_at r; updated_at := updated_at r |}.

Definition set_winner_name (v : option string) (r : lottery_winner) :=
  {| id := id r; lottery_number := lottery_number r; ticket_sale_id := ticket_sale_id r;
     prize_category := prize_category r; prize_quantity := prize_quantity r;
     winner_name := v; winner_contact := winner_contact r;
     winner_address := winner_address r; diary_number := diary_number r;
     registered_at := registered_at r; registered_by := registered_by r;
     notes := notes r; created_at := created_at r; updated_at := updated_at r |}.

Definition set_winner_contact (v : option string) (r : lottery_winner) :=
  {| id := id r; lottery_number := lottery_number r; ticket_sale_id := ticket_sale_id r;
     prize_category := prize_category r; prize_quantity := prize_quantity r;
     winner_name := winner_name r; winner_contact := v;
     winner_address := winner_address r; diary_number := diary_number r;
     registered_at := registered_at r; registered_by := registered_by r;
     notes := notes r; created_at := created_at r; updated_at := updated_at r |}.

Definition set_winner_address (v : option string) (r : lottery_winner) :=
  {| id := id r; lottery_number := lottery_number r; ticket_sale_id := ticket_sale_id r;
     prize_category := prize_category r; prize_quantity := prize_quantity r;
     winner_name := winner_name r; winner_contact := winner_contact r;
     winner_address := v; diary_number := diary_number r;
     registered_at := registered_at r; registered_by := registered_by r;
     notes := notes r; created_at := created_at r; updated_at := updated_at r |}.

Definition set_notes (v : option string) (r : lottery_winner) :=
  {| id := id r; lottery_number := lottery_number r; ticket_sale_id := ticket_sale_id r;
     prize_category := prize_category r; prize_quantity := prize_quantity r;
     winner_name := winner_name r; winner_contact := winner_contact r;
     winner_address := winner_address r; diary_number := diary_number r;
     registered_at := registered_at r; registered_by := registered_by r;
     notes := v; created_at := created_at r; updated_at := updated_at r |}.

Definition set_updated_at (v : option timestamp) (r : lottery_winner) :=
  {| id := id r; lottery_number := lottery_number r; ticket_sale_id := ticket_sale_id r;
     prize_category := prize_category r; prize_quantity := prize_quantity r;
     winner_name := winner_name r; winner_contact := winner_contact r;
     winner_address := winner_address r; diary_number := diary_number r;
     registered_at := registered_at r; registered_by := registered_by r;
     notes := notes r; created_at := created_at r; updated_at := v |}.

Definition set_lottery_number (v : option Z) (r : lottery_winner) :=
  {| id := id r; lottery_number := v; ticket_sale_id := ticket_sale_id r;
     prize_category := prize_category r; prize_quantity := prize_quantity r;
     winner_name := winner_name r; winner_contact := winner_contact r;
     winner_address := winner_address r; diary_number := diary_number r;
     registered_at := registered_at r; registered_by := registered_by r;
     notes := notes r; created_at := created_at r; updated_at := updated_at r |}.

Definition set_ticket_sale_id (v : option uuid) (r : lottery_winner) :=
  {| id := id r; lottery_number := lottery_number r; ticket_sale_id := v;
     prize_category := prize_category r; prize_quantity := prize_quantity r;
     winner_name := winner_name r; winner_contact := winner_contact r;
     winner_address := winner_address r; diary_number := diary_number r;
     registered_at := registered_at r; registered_by := registered_by r;
     notes := notes r; created_at := created_at r; updated_at := updated_at r |}.

Definition set_prize_quantity (v : option Z) (r : lottery_winner) :=
  {| id := id r; lottery_number := lottery_number r; ticket_sale_id := ticket_sale_id r;
     prize_category := prize_category r; prize_quantity := v;
     winner_name := winner_name r; winner_contact := winner_contact r;
     winner_address := winner_address r; diary_number := diary_number r;
     registered_at := registered_at r; registered_by := registered_by r;
     notes := notes r; created_at := created_at r; updated_at := updated_at r |}.

Definition set_diary_number (v : option Z) (r : lottery_winner) :=
  {| id := id r; lottery_number := lottery_number r; ticket_sale_id := ticket_sale_id r;
     prize_category := prize_category r; prize_quantity := prize_quantity r;
     winner_name := winner_name r; winner_contact := winner_contact r;
     winner_address := winner_address r; diary_number := v;
     registered_at := registered_at r; registered_by := registered_by r;
     notes := notes r; created_at := created_at r; updated_at := updated_at r |}.

(** The three columns the triggers refuse to see empty. *)
Inductive RequiredColumn := col_winner_name | col_winner_contact | col_prize_category.

(** What a trigger raises.  [MissingRequiredField c original]: column [c]
    of [NEW] is [NULL] or empty; the update trigger puts the stored value
    in its message ([original = Some OLD.c]), the insert trigger has none.
    [ImmutableFieldViolation original attempted]: [lottery_number] was
    changed; the message carries both numbers. *)
Inductive RejectionError :=
| MissingRequiredField (column : RequiredColumn) (original : option (option string))
| ImmutableFieldViolation (original attempted : option Z).

Definition column_name (c : RequiredColumn) : string :=
  match c with
  | col_winner_name => "winner_name"
  | col_winner_contact => "winner_contact"
  | col_prize_category => "prize_category"
  end.

Definition show_text (x : option string) : string :=
  match x with Some s => s | None => "<NULL>" end.

Definition show_number (x : option Z) : string :=
  match x with Some n => JS.toString n | None => "<NULL>" end.

(** The text of the exception, with each [%] replaced by its argument. *)
Definition exception_text (e : RejectionError) : string :=
  match e with
  | MissingRequiredField c None =>
      column_name c ++ " is required and cannot be empty"
  | MissingRequiredField c (Some original) =>
      column_name c ++ " cannot be NULL or empty. Original value: " ++ show_text original
  | ImmutableFieldViolation original attempted =>
      "lottery_number cannot be changed. Original value: " ++ show_number original
        ++ ", Attempted value: " ++ show_number attempted
  end.

(** PL/pgSQL control flow: [RAISE EXCEPTION] leaves the function. *)
Definition plpgsql (A : Type) : Type := RejectionError + A.
Definition RETURN {A} (a : A) : plpgsql A := inr a.
Definition RAISE_EXCEPTION {A} (e : RejectionError) : plpgsql A := inl e.
Definition IF_THEN_RAISE (c : option bool) (e : RejectionError) : plpgsql unit :=
  if SQL.is_true c then RAISE_EXCEPTION e else RETURN tt.
Definition seq {A B} (m : plpgsql A) (k : A -> plpgsql B) : plpgsql B :=
  match m with inl e => inl e | inr a => k a end.

Notation "m ;;; k" := (seq m (fun _ => k)) (at level 100, right associativity).

(** [x IS NULL OR LENGTH(TRIM(x)) = 0]. *)
Definition null_or_empty (x : option string) : option bool :=
  SQL.OR (SQL.IS_NULL x) (SQL.EQ (SQL.LENGTH (SQL.TRIM x)) (Some 0)).

(** [IF x IS NOT NULL THEN x = TRIM(x); END IF]. *)
Definition trim_if_present (x : option string) : option string :=
  if SQL.is_true (SQL.IS_NOT_NULL x) then SQL.TRIM x else x.

(** The block of assignments that ends both trigger functions. *)
Definition trim_text_fields (NEW : lottery_winner) : lottery_winner :=
  let NEW := set_winner_name (SQL.TRIM (winner_name NEW)) NEW in
  let NEW := set_winner_contact (SQL.TRIM (winner_contact NEW)) NEW in
  let NEW := set_prize_category (SQL.TRIM (prize_category NEW)) NEW in
  let NEW := set_winner_address (trim_if_present (winner_address NEW)) NEW in
  let NEW := set_notes (trim_if_present (notes NEW)) NEW in
  NEW.

(** [prevent_winner_data_loss()], the BEFORE UPDATE trigger function of
    [fix_lottery_winners_data_integrity.sql]. *)
Definition prevent_winner_data_loss (OLD NEW : lottery_winner) : plpgsql lottery_winner :=
  IF_THEN_RAISE (null_or_empty (winner_name NEW))
    (MissingRequiredField col_winner_name (Some (winner_name OLD))) ;;;
  IF_THEN_RAISE (null_or_empty (winner_contact NEW))
    (MissingRequiredField col_winner_contact (Some (winner_contact OLD))) ;;;
  IF_THEN_RAISE (null_or_empty (prize_category NEW))
    (MissingRequiredField col_prize_category (Some (prize_category OLD))) ;;;
  IF_THEN_RAISE (SQL.NEQ (lottery_number NEW) (lottery_number OLD))
    (ImmutableFieldViolation (lottery_number OLD) (lottery_number NEW)) ;;;
  RETURN (trim_text_fields NEW).

(** [validate_winner_data_on_insert()], the BEFORE INSERT trigger
    function. *)
Definition validate_winner_data_on_insert (NEW : lottery_winner) : plpgsql lottery_winner :=
  IF_THEN_RAISE (null_or_empty (winner_name NEW))
    (MissingRequiredField col_winner_name None) ;;;
  IF_THEN_RAISE (null_or_empty (winner_contact NEW))
    (MissingRequiredField col_winner_contact None) ;;;
  IF_THEN_RAISE (null_or_empty (prize_category NEW))
    (MissingRequiredField col_prize_category None) ;;;
  RETURN (trim_text_fields NEW).

(** [update_lottery_winners_updated_at()], the BEFORE UPDATE trigger
    function of [create_lottery_winners.sql]; [now] is [NOW()]. *)
Definition update_lottery_winners_updated_at (now : timestamp) (NEW : lottery_winner)
  : plpgsql lottery_winner :=
  RETURN (set_updated_at (Some now) NEW).


(** [x] is NULL or empty after trimming. *)
Definition missing (x : option string) : Prop :=
  x = None \/ exists s, x = Some s /\ SQL.trim_text s = "".

(** One of the three required columns of [r] is missing. *)
Definition required_missing (r : lottery_winner) : Prop :=
  missing (winner_name r) \/ missing (winner_contact r) \/ missing (prize_category r).

(** [y] is [x] trimmed of leading and trailing spaces; NULL stays NULL. *)
Definition trimmed (x y : option string) : Prop :=
  match x, y with
  | None, None => True
  | Some s, Some t => Text.stripped SQL.is_space s t
  | _, _ => False
  end.

(** [x], when present, neither starts nor ends with a space. *)
Definition clean (x : option string) : Prop :=
  match x with
  | Some t => Text.starts_clean SQL.is_space t /\ Text.ends_clean SQL.is_space t
  | None => True
  end.

(** [r'] has the values of [r] in every column that no trigger writes
    and no winner update lists. *)
Definition same_fixed_columns (r r' : lottery_winner) : Prop :=
  id r' = id r
  /\ lottery_number r' = lottery_number r
  /\ ticket_sale_id r' = ticket_sale_id r
  /\ prize_quantity r' = prize_quantity r
  /\ diary_number r' = diary_number r
  /\ registered_at r' = registered_at r
  /\ registered_by r' = registered_by r
  /\ created_at r' = created_at r.

(** A function on rows that leaves the fixed columns alone. *)
Definition keeps_fixed (f : lottery_winner -> lottery_winner) : Prop :=
  forall r, same_fixed_columns r (f r).

End Store.

(* ===================================================================== *)
(** * Statements on [lottery_winners]: constraints, INSERT, UPDATE *)
(* ===================================================================== *)

Module Database.
Import Store.

Definition table := list lottery_winner.

(** Why a statement failed, with the SQLSTATE the client sees. *)
Inductive db_error :=
| raised (e : RejectionError)
| not_null_violation (column : string)
| check_violation (constraint : string)
| unique_violation (constraint : string)
| string_data_right_truncation (limit : nat).

Definition sqlstate (e : db_error) : string :=
  match e with
  | raised _ => "P0001"
  | not_null_violation _ => "23502"
  | check_violation _ => "23514"
  | unique_violation _ => "23505"
  | string_data_right_truncation _ => "22001"
  end.

Definition quoted (s : string) : string :=
  String (ascii_of_N 34) (s ++ String (ascii_of_N 34) "").

Definition error_text (e : db_error) : string :=
  match e with
  | raised r => exception_text r
  | not_null_violation c =>
      "null value in column " ++ quoted c ++ " of relation "
        ++ quoted "lottery_winners" ++ " violates not-null constraint"
  | check_violation c =>
      "new row for relation " ++ quoted "lottery_winners"
        ++ " violates check constraint " ++ quoted c
  | unique_violation c =>
      "duplicate key value violates unique constraint " ++ quoted c
  | string_data_right_truncation n =>
      "value too long for type character varying("
        ++ JS.toString (Z.of_nat n) ++ ")"
  end.

Definition db (A : Type) : Type := db_error + A.

Definition bind {A B} (m : db A) (k : A -> db B) : db B :=
  match m with inl e => inl e | inr a => k a end.

Notation "x <- m ;; k" := (bind m (fun x => k))
  (at level 100, m at next level, right associativity).

Definition fire {A} (m : plpgsql A) : db A :=
  match m with inl e => inl (raised e) | inr a => inr a end.

Definition require (ok : bool) (e : db_error) : db unit :=
  if ok then inr tt else inl e.

(** Assignment to a [VARCHAR(n)] column: a longer string is an error
    unless the excess is spaces only, which are cut off. *)
Definition varchar (n : nat) (x : option string) : db (option string) :=
  match x with
  | None => inr None
  | Some s =>
      if (String.length s <=? n)%nat then inr (Some s)
      else if Text.all_of SQL.is_space (substring n (String.length s - n) s)
           then inr (Some (substring 0 n s))
           else inl (string_data_right_truncation n)
  end.

(** The column types of [create_lottery_winners.sql] that restrict a
    value: [prize_category] and [winner_name] are [VARCHAR(255)],
    [winner_contact] is [VARCHAR(20)]. *)
Definition coerce (NEW : lottery_winner) : db lottery_winner :=
  c <- varchar 255 (prize_category NEW) ;;
  n <- varchar 255 (winner_name NEW) ;;
  t <- varchar 20 (winner_contact NEW) ;;
  inr (set_winner_contact t (set_winner_name n (set_prize_category c NEW))).

Definition present {A} (x : option A) : bool :=
  match x with Some _ => true | None => false end.

(** [CHECK (x IS NOT NULL AND LENGTH(TRIM(x)) > 0)]; a check constraint
    is violated when its condition is false. *)
Definition not_empty (x : option string) : option bool :=
  SQL.AND (SQL.IS_NOT_NULL x) (SQL.GT (SQL.LENGTH (SQL.TRIM x)) (Some 0)).

(** The row constraints: PRIMARY KEY and NOT NULL columns of
    [create_lottery_winners.sql], then the three CHECK constraints of
    [fix_lottery_winners_data_integrity.sql]. *)
Definition constraints (r : lottery_winner) : db unit :=
  _ <- require (present (id r)) (not_null_violation "id") ;;
  _ <- require (present (lottery_number r)) (not_null_violation "lottery_number") ;;
  _ <- require (present (prize_category r)) (not_null_violation "prize_category") ;;
  _ <- require (present (prize_quantity r)) (not_null_violation "prize_quantity") ;;
  _ <- require (present (winner_name r)) (not_null_violation "winner_name") ;;
  _ <- require (present (winner_contact r)) (not_null_violation "winner_contact") ;;
  _ <- require (negb (SQL.is_false (not_empty (winner_name r))))
         (check_violation "lottery_winners_winner_name_not_empty") ;;
  _ <- require (negb (SQL.is_false (not_empty (winner_contact r))))
         (check_violation "lottery_winners_winner_contact_not_empty") ;;
  _ <- require (negb (SQL.is_false (not_empty (prize_category r))))
         (check_violation "lottery_winners_prize_category_not_empty") ;;
  inr tt.

Definition same_text (a b : option string) : bool :=
  match a, b with Some x, Some y => String.eqb x y | _, _ => false end.

Definition same_number (a b : option Z) : bool :=
  SQL.is_true (SQL.EQ a b).

(** No row of [tbl] has the key of [r]: [id] is the PRIMARY KEY and
    [lottery_number] is UNIQUE. *)
Definition keys_free (tbl : table) (r : lottery_winner) : db unit :=
  _ <- require (negb (existsb (fun o => same_text (id o) (id r)) tbl))
         (unique_violation "lottery_winners_pkey") ;;
  _ <- require (negb (existsb (fun o => same_number (lottery_number o) (lottery_number r)) tbl))
         (unique_violation "lottery_winners_lottery_number_key") ;;
  inr tt.

Fixpoint keys_distinct (tbl : table) : db unit :=
  match tbl with
  | [] => inr tt
  | r :: rest => _ <- keys_free rest r ;; keys_distinct rest
  end.

(** The row an INSERT starts from: the column defaults. *)
Definition defaults (new_id : uuid) (now : timestamp) : lottery_winner :=
  {| id := Some new_id; lottery_number := None; ticket_sale_id := None;
     prize_category := None; prize_quantity := None;
     winner_name := None; winner_contact := None; winner_address := None;
     diary_number := None; registered_at := Some now; registered_by := None;
     notes := None; created_at := Some now; updated_at := Some now |}.

(** One row through the BEFORE INSERT trigger and the constraints.  The
    two foreign keys point into tables that are not modelled, and the
    range of INTEGER is not either: an insert can fail in these ways
    besides, so a statement below says which of the refusals written
    here can or cannot occur, never that no other can. *)
Definition insert_row (tbl : table) (NEW : lottery_winner) : db lottery_winner :=
  NEW <- coerce NEW ;;
  NEW <- fire (validate_winner_data_on_insert NEW) ;;
  _ <- constraints NEW ;;
  _ <- keys_free tbl NEW ;;
  inr NEW.

(** [INSERT INTO lottery_winners (...) VALUES (...) RETURNING *]:
    [values] overrides the defaults with the columns the statement
    lists.  A failed statement leaves the table as it was. *)
Definition INSERT (new_id : uuid) (now : timestamp)
    (values : lottery_winner -> lottery_winner) (tbl : table)
  : db lottery_winner * table :=
  match insert_row tbl (values (defaults new_id now)) with
  | inl e => (inl e, tbl)
  | inr r => (inr r, (tbl ++ [r])%list)
  end.

(** One row through the two BEFORE UPDATE triggers, which fire in the
    order of their names ([prevent_lottery_winner_data_loss], then
    [update_lottery_winners_updated_at]), and the row constraints. *)
Definition update_row (now : timestamp) (OLD NEW : lottery_winner) : db lottery_winner :=
  NEW <- coerce NEW ;;
  NEW <- fire (prevent_winner_data_loss OLD NEW) ;;
  NEW <- fire (update_lottery_winners_updated_at now NEW) ;;
  _ <- constraints NEW ;;
  inr NEW.

Fixpoint update_rows (now : timestamp) (set : lottery_winner -> lottery_winner)
    (where_ : lottery_winner -> bool) (tbl : table) : db table :=
  match tbl with
  | [] => inr []
  | OLD :: rest =>
      r <- (if where_ OLD then update_row now OLD (set OLD) else inr OLD) ;;
      rest' <- update_rows now set where_ rest ;;
      inr (r :: rest')
  end.

(** [UPDATE lottery_winners SET ... WHERE ...]: [set] gives [NEW] from
    [OLD].  The statement is atomic: an error in any row leaves the
    whole table as it was. *)
Definition UPDATE (now : timestamp) (set : lottery_winner -> lottery_winner)
    (where_ : lottery_winner -> bool) (tbl : table) : db unit * table :=
  match (tbl' <- update_rows now set where_ tbl ;;
         _ <- keys_distinct tbl' ;;
         inr tbl') with
  | inl e => (inl e, tbl)
  | inr tbl' => (inr tt, tbl')
  end.

(** [SELECT ... WHERE prize_category = name]. *)
Definition select_by_category (name : string) (tbl : table) : table :=
  List.filter (fun r => same_text (prize_category r) (Some name)) tbl.

End Database.

(* ===================================================================== *)
(** * The hosted-backend client, as the pages use it *)
(* ===================================================================== *)

Module Supabase.
Import Database.

(** The [error] of a response: the database refused the statement, or
    the request never reached it. *)
Inductive client_error :=
| refused (e : db_error)
| unreachable (message : string).

Definition code (e : client_error) : string :=
  match e with
  | refused d => sqlstate d
  | unreachable _ => ""
  end.

(** [error.message || 'Unknown error']. *)
Definition message (e : client_error) : string :=
  let m := match e with
           | refused d => error_text d
           | unreachable m => m
           end in
  if String.eqb m "" then "Unknown error" else m.

(** [{ data, error }]. *)
Definition response (A : Type) : Type := client_error + A.

(** A request: [fault] is the transport failure of this call, if any;
    a request that fails in transport does not touch the table. *)
Definition request {A} (fault : option string)
    (statement : table -> db A * table) (tbl : table) : response A * table :=
  match fault with
  | Some m => (inl (unreachable m), tbl)
  | None =>
      match statement tbl with
      | (inl e, tbl') => (inl (refused e), tbl')
      | (inr a, tbl') => (inr a, tbl')
      end
  end.

(** A property of an object sent as a request body: a property that is
    [undefined] is left out of the JSON, [null] is sent as NULL. *)
Inductive property (A : Type) := undefined | null | value (a : A).
Arguments undefined {A}.
Arguments null {A}.
Arguments value {A} a.

(** The effect of one property of the body on its column. *)
Definition assign {A R} (p : property A) (set : option A -> R -> R) : R -> R :=
  match p with
  | undefined => fun r => r
  | null => set None
  | value a => set (Some a)
  end.

End Supabase.

(* ===================================================================== *)
(** * [src/pages/Winners.tsx]: editing a winner *)
(* ===================================================================== *)

Module WinnersPage.
Import Database Supabase.

Inductive toast := toast_error (text : string) | toast_success (text : string).

(** The properties of a [Partial<LotteryWinner>] that [handleSaveEdit]
    reads. *)
Record LotteryWinner := {
  id : string;
  prize_category : property string;
  winner_name : property string;
  winner_contact : property string;
  winner_address : property string;
  notes : property string
}.

Record page := {
  editingWinner : option LotteryWinner;
  showEditForm : bool;
  toasts : list toast
}.

(** The body of [.update({...})]: five columns and no other. *)
Definition update_body (updatedData : LotteryWinner)
  : Store.lottery_winner -> Store.lottery_winner :=
  fun OLD =>
    assign (notes updatedData) Store.set_notes
      (assign (winner_address updatedData) Store.set_winner_address
         (assign (winner_contact updatedData) Store.set_winner_contact
            (assign (winner_name updatedData) Store.set_winner_name
               (assign (prize_category updatedData) Store.set_prize_category OLD)))).

(** [.eq('id', editingWinner.id)]. *)
Definition eq_id (wanted : string) (r : Store.lottery_winner) : bool :=
  same_text (Store.id r) (Some wanted).

(** [handleSaveEdit(updatedData)].  [now] is the time of the statement
    and [fault] the transport failure of the request, if any.  The
    refresh [fetchWinners()] only reads. *)
Definition handleSaveEdit (now : Store.timestamp) (fault : option string)
    (updatedData : LotteryWinner) (st : page) (tbl : table) : page * table :=
  match editingWinner st with
  | None => (st, tbl)
  | Some editing =>
      match request fault (UPDATE now (update_body updatedData) (eq_id (id editing))) tbl with
      | (inl _, tbl') =>
          ({| editingWinner := editingWinner st;
              showEditForm := showEditForm st;
              toasts := toasts st ++ [toast_error "Failed to update winner entry"] |},
           tbl')
      | (inr _, tbl') =>
          ({| editingWinner := None;
              showEditForm := false;
              toasts := toasts st ++ [toast_success "Winner entry updated successfully"] |},
           tbl')
      end
  end.


(** The source takes the save for successful: it shows the success
    toast. *)
Definition saved (before after : page) : Prop :=
  toasts after
  = (toasts before ++ [toast_success "Winner entry updated successfully"])%list.

(** What a save may do to a stored row [r], giving [r']: a row with
    another id is left as it is; in the edited row the fixed columns
    keep their values and [updated_at] is the time of the statement. *)
Definition edit_of (now : Store.timestamp) (edited : string)
    (r r' : Store.lottery_winner) : Prop :=
  if eq_id edited r
  then Store.same_fixed_columns r r' /\ Store.updated_at r' = Some now
  else r' = r.

End WinnersPage.

(* ===================================================================== *)
(** * [src/pages/Search.tsx]: registering a winner *)
(* ===================================================================== *)

Module SearchPage.
Import Database Supabase.

Inductive toast := toast_error (text : string) | toast_success (text : string).

Record Prize := { name : string; quantity : Z }.

(** [PRIZE_CATEGORIES] of [src/lib/supabase.ts]. *)
Definition PRIZE_CATEGORIES : list Prize :=
  [ {| name := "THAR CAR"; quantity := 1 |};
    {| name := "SWIFT CAR"; quantity := 1 |};
    {| name := "E-Rickshaw"; quantity := 1 |};
    {| name := "Bullet Bike"; quantity := 1 |};
    {| name := "HF delux Bike"; quantity := 5 |};
    {| name := "Electric Bike"; quantity := 3 |};
    {| name := "AC 1Ton"; quantity := 1 |};
    {| name := "Laptop"; quantity := 3 |};
    {| name := "32 Inch LED TV"; quantity := 5 |};
    {| name := "Fridge"; quantity := 5 |};
    {| name := "Washing Machine"; quantity := 5 |};
    {| name := "Sewing Machine"; quantity := 5 |};
    {| name := "Sports Cycle"; quantity := 5 |};
    {| name := "5G Mobile"; quantity := 11 |};
    {| name := "Cooler"; quantity := 11 |};
    {| name := "Child EV Bike"; quantity := 10 |};
    {| name := "Home Theater"; quantity := 5 |};
    {| name := "Electric Water Heater"; quantity := 5 |};
    {| name := "Battery Spray Pump"; quantity := 27 |};
    {| name := "Mixer"; quantity := 10 |};
    {| name := "Induction stove"; quantity := 10 |};
    {| name := "Ceiling Fan"; quantity := 10 |};
    {| name := "Smart Watch"; quantity := 11 |};
    {| name := "Gas Stove"; quantity := 27 |};
    {| name := "Helmet"; quantity := 54 |};
    {| name := "Silver Coin"; quantity := 54 |};
    {| name := "Wall Clock"; quantity := 108 |};
    {| name := "Photo Frame"; quantity := 108 |} ].

Record Diary := {
  diary_number : Z;
  ticket_start_range : Z;
  ticket_end_range : Z;
  total_tickets : Z
}.

(** A [TicketSale] as read from the store; [None] is a property that is
    missing or null. *)
Record TicketSale := {
  id : string;
  lottery_number : Z;
  purchaser_name : option string;
  purchaser_contact : option string;
  purchaser_address : option string;
  diary : option Diary
}.

(** The component state that [registerWinner] reads and writes, the
    toasts it shows, and the table behind the client. *)
Record world := {
  lottery_winners : table;
  existingWinners : gset Z;
  selectedPrize : gmap string string;
  registeringWinner : option string;
  toasts : list toast
}.

(** What the surroundings decide during one call: the primary key and
    the time the store gives a new row, and the transport failure, if
    any, of each of the three requests. *)
Record environment := {
  new_id : Store.uuid;
  now : Store.timestamp;
  count_fault : option string;
  insert_fault : option string;
  refresh_fault : option string
}.

Definition checkIfAlreadyWon (w : world) (lotteryNumber : Z) : bool :=
  bool_decide (lotteryNumber ∈ existingWinners w).

Definition getPrizeQuantity (prizeName : string) : Z :=
  match List.find (fun p => String.eqb (name p) prizeName) PRIZE_CATEGORIES with
  | Some prize => quantity prize
  | None => 0
  end.

(** [getRemainingQuantity(prizeName)]; a failed request is caught and
    answered by 0. *)
Definition getRemainingQuantity (fault : option string) (prizeName : string)
    (tbl : table) : Z :=
  match request fault (fun t => (inr (select_by_category prizeName t), t)) tbl with
  | (inl _, _) => 0
  | (inr data, _) =>
      let totalQuantity := getPrizeQuantity prizeName in
      let usedQuantity := Z.of_nat (List.length data) in
      totalQuantity - usedQuantity
  end.

(** [!s] for a string that may be missing. *)
Definition falsy (s : option string) : bool :=
  match s with None => true | Some s => String.eqb s "" end.

(** [!s || s.trim().length === 0]. *)
Definition missing_or_blank (s : option string) : bool :=
  match s with
  | None => true
  | Some s => String.eqb s "" || (String.length (JS.trim s) =? 0)%nat
  end.

(** [s?.trim() || null]. *)
Definition trimmed_or_null (s : option string) : property string :=
  match s with
  | None => null
  | Some s => if String.eqb (JS.trim s) "" then null else value (JS.trim s)
  end.

(** The object given to [.insert([...])]. *)
Definition insert_body (ticket : TicketSale) (selectedPrizeCategory : string)
    (name contact : string) : Store.lottery_winner -> Store.lottery_winner :=
  let prizeQuantity := getPrizeQuantity selectedPrizeCategory in
  let diaryNumber :=
    match diary ticket with
    | Some _ => value (Numbering.getDiaryFromLotteryNumber (lottery_number ticket))
    | None => undefined
    end in
  fun row =>
    let row := Store.set_lottery_number (Some (lottery_number ticket)) row in
    let row := Store.set_ticket_sale_id (Some (id ticket)) row in
    let row := Store.set_prize_category (Some (JS.trim selectedPrizeCategory)) row in
    let row := Store.set_prize_quantity (Some prizeQuantity) row in
    let row := Store.set_winner_name (Some (JS.trim name)) row in
    let row := Store.set_winner_contact (Some (JS.trim contact)) row in
    let row := assign (trimmed_or_null (purchaser_address ticket)) Store.set_winner_address row in
    let row := assign diaryNumber Store.set_diary_number row in
    row.

Definition say (t : toast) (w : world) : world :=
  {| lottery_winners := lottery_winners w; existingWinners := existingWinners w;
     selectedPrize := selectedPrize w; registeringWinner := registeringWinner w;
     toasts := toasts w ++ [t] |}.

Definition setRegisteringWinner (v : option string) (w : world) : world :=
  {| lottery_winners := lottery_winners w; existingWinners := existingWinners w;
     selectedPrize := selectedPrize w; registeringWinner := v;
     toasts := toasts w |}.

Definition setExistingWinners (f : gset Z -> gset Z) (w : world) : world :=
  {| lottery_winners := lottery_winners w; existingWinners := f (existingWinners w);
     selectedPrize := selectedPrize w; registeringWinner := registeringWinner w;
     toasts := toasts w |}.

Definition setSelectedPrize (f : gmap string string -> gmap string string)
    (w : world) : world :=
  {| lottery_winners := lottery_winners w; existingWinners := existingWinners w;
     selectedPrize := f (selectedPrize w); registeringWinner := registeringWinner w;
     toasts := toasts w |}.

Definition setTable (tbl : table) (w : world) : world :=
  {| lottery_winners := tbl; existingWinners := existingWinners w;
     selectedPrize := selectedPrize w; registeringWinner := registeringWinner w;
     toasts := toasts w |}.

Definition already_won_text (lotteryNumber : Z) : string :=
  "Lottery number " ++ Numbering.formatLotteryNumber lotteryNumber
    ++ " has already won a prize!".

(** The numbers of the winners of [tbl] as a set. *)
Definition winner_numbers (tbl : table) : gset Z :=
  list_to_set (omap Store.lottery_number tbl).

(** The [try] block of [registerWinner], from the insert on. *)
Definition insert_winner (env : environment) (ticket : TicketSale)
    (selectedPrizeCategory name contact : string) (w : world) : world :=
  let w := setRegisteringWinner (Some (id ticket)) w in
  let '(res, tbl) :=
    request (insert_fault env)
      (INSERT (new_id env) (now env)
         (insert_body ticket selectedPrizeCategory name contact))
      (lottery_winners w) in
  let w := setTable tbl w in
  let w :=
    match res with
    | inl error =>
        if String.eqb (code error) "23505" then
          let w := say (toast_error (already_won_text (lottery_number ticket))) w in
          match refresh_fault env with
          | Some _ => w
          | None => setExistingWinners (fun _ => winner_numbers (lottery_winners w)) w
          end
        else
          say (toast_error ("Failed to register winner: " ++ message error)) w
    | inr _ =>
        let w := setExistingWinners (fun prev => prev ∪ {[ lottery_number ticket ]}) w in
        let w := setSelectedPrize (fun prev => delete (id ticket) prev) w in
        say (toast_success ("Winner registered! " ++ name ++ " won " ++ selectedPrizeCategory)) w
    end in
  setRegisteringWinner None w.

(** [registerWinner(ticket)], with no other client writing to the table
    between its requests; [Interleaved.registerWinner_among], further
    down, lets the table change between the count and the insert. *)
Definition registerWinner (env : environment) (ticket : TicketSale) (w : world) : world :=
  let lotteryNumber := lottery_number ticket in
  let selectedPrizeCategory := selectedPrize w !! id ticket in
  if falsy selectedPrizeCategory then
    say (toast_error "Please select a prize category") w
  else
    let selectedPrizeCategory := default "" selectedPrizeCategory in
    if checkIfAlreadyWon w lotteryNumber then
      say (toast_error (already_won_text lotteryNumber)) w
    else
      let remaining :=
        getRemainingQuantity (count_fault env) selectedPrizeCategory (lottery_winners w) in
      if remaining <=? 0 then
        say (toast_error ("No " ++ selectedPrizeCategory ++ " prizes remaining!")) w
      else if missing_or_blank (purchaser_name ticket) then
        say (toast_error
               "Ticket purchaser name is missing or empty. Cannot register winner.") w
      else if missing_or_blank (purchaser_contact ticket) then
        say (toast_error
               "Ticket purchaser contact is missing or empty. Cannot register winner.") w
      else
        insert_winner env ticket selectedPrizeCategory
          (default "" (purchaser_name ticket))
          (default "" (purchaser_contact ticket)) w.

End SearchPage.

(* ===================================================================== *)
(** * Sample rows *)
(* ===================================================================== *)

Module Samples.
Import Store.

(** The columns of an insert for ticket 105, with a padded name. *)
Definition john_values (d : lottery_winner) : lottery_winner :=
  set_winner_name (Some "  John Doe  ")
    (set_winner_contact (Some "9876543210")
       (set_prize_category (Some "Laptop")
          (set_prize_quantity (Some 3)
             (set_lottery_number (Some 105) d)))).

(** The row that insert leaves in the table. *)
Definition john : lottery_winner :=
  {| id := Some "w-105"; lottery_number := Some 105; ticket_sale_id := None;
     prize_category := Some "Laptop"; prize_quantity := Some 3;
     winner_name := Some "John Doe"; winner_contact := Some "9876543210";
     winner_address := None; diary_number := None;
     registered_at := Some 1000; registered_by := None; notes := None;
     created_at := Some 1000; updated_at := Some 1000 |}.


(** The edit form of that row, saved without a change. *)
Definition john_form : WinnersPage.LotteryWinner :=
  {| WinnersPage.id := "w-105";
     WinnersPage.prize_category := Supabase.value "Laptop";
     WinnersPage.winner_name := Supabase.value "John Doe";
     WinnersPage.winner_contact := Supabase.value "9876543210";
     WinnersPage.winner_address := Supabase.null;
     WinnersPage.notes := Supabase.undefined |}.

Definition john_page : WinnersPage.page :=
  {| WinnersPage.editingWinner := Some john_form;
     WinnersPage.showEditForm := true;
     WinnersPage.toasts := [] |}.

(** An update of that row that blanks the name and changes the number. *)
Definition blank_name_106 : lottery_winner :=
  set_winner_name (Some "   ") (set_lottery_number (Some 106) john).


(** A stored winner of the single THAR CAR, and the columns of an
    insert of a second one. *)
Definition thar_winner : lottery_winner :=
  {| id := Some "w-7"; lottery_number := Some 7; ticket_sale_id := Some "t-7";
     prize_category := Some "THAR CAR"; prize_quantity := Some 1;
     winner_name := Some "Asha"; winner_contact := Some "9000000000";
     winner_address := None; diary_number := Some 1;
     registered_at := Some 1000; registered_by := None; notes := None;
     created_at := Some 1000; updated_at := Some 1000 |}.

Definition second_thar_values (d : lottery_winner) : lottery_winner :=
  set_winner_name (Some "Ravi")
    (set_winner_contact (Some "9111111111")
       (set_prize_category (Some "THAR CAR")
          (set_prize_quantity (Some 1)
             (set_lottery_number (Some 8) d)))).

(** A sold ticket, read with its diary. *)
Definition ticket (number : Z) : SearchPage.TicketSale :=
  {| SearchPage.id := "t-1";
     SearchPage.lottery_number := number;
     SearchPage.purchaser_name := Some "Ravi";
     SearchPage.purchaser_contact := Some "9111111111";
     SearchPage.purchaser_address := None;
     SearchPage.diary :=
       Some {| SearchPage.diary_number := Numbering.getDiaryFromLotteryNumber number;
               SearchPage.ticket_start_range := 0; SearchPage.ticket_end_range := 0;
               SearchPage.total_tickets := 22 |} |}.

(** The search page with [prize] selected for that ticket, over the
    table [tbl]; its cache of winners is empty. *)
Definition search_page (prize : string) (tbl : Database.table) : SearchPage.world :=
  {| SearchPage.lottery_winners := tbl;
     SearchPage.existingWinners := ∅;
     SearchPage.selectedPrize := {[ "t-1" := prize ]};
     SearchPage.registeringWinner := None;
     SearchPage.toasts := [] |}.

Definition calm : SearchPage.environment :=
  {| SearchPage.new_id := "w-1"; SearchPage.now := 3000;
     SearchPage.count_fault := None; SearchPage.insert_fault := None;
     SearchPage.refresh_fault := None |}.

(** The row that registering ticket [number] for a Laptop creates. *)
Definition laptop_winner (number diary : Z) : lottery_winner :=
  {| id := Some "w-1"; lottery_number := Some number; ticket_sale_id := Some "t-1";
     prize_category := Some "Laptop"; prize_quantity := Some 3;
     winner_name := Some "Ravi"; winner_contact := Some "9111111111";
     winner_address := None; diary_number := Some diary;
     registered_at := Some 3000; registered_by := None; notes := None;
     created_at := Some 3000; updated_at := Some 3000 |}.

End Samples.

(* ===================================================================== *)
(** * [src/lib/supabase.ts]: formatted ranges; the patterns of the forms *)
(* ===================================================================== *)

Module RegExp.

Definition is_digit_char (c : ascii) : bool :=
  let k := N_of_ascii c in ((48 <=? k) && (k <=? 57))%N.

Fixpoint all_digits (s : string) : bool :=
  match s with
  | String c rest => is_digit_char c && all_digits rest
  | EmptyString => true
  end.

(** [/^[0-9]{5}$/.test(s)]. *)
Definition five_digits (s : string) : bool :=
  (String.length s =? 5)%nat && all_digits s.

(** [/^[0-9]+$/.test(s)]. *)
Definition some_digits (s : string) : bool :=
  negb (String.length s =? 0)%nat && all_digits s.

End RegExp.

Module Tickets.

Record FormattedRange := { start : string; end_ : string }.

Definition getFormattedTicketRangeForDiary (diaryNumber : Z) : FormattedRange :=
  let range := Numbering.getTicketRangeForDiary diaryNumber in
  {| start := Numbering.formatLotteryNumber (Numbering.start range);
     end_ := Numbering.formatLotteryNumber (Numbering.end_ range) |}.

End Tickets.

(* ===================================================================== *)
(** * Deleting a winner; what the stored rows have in common *)
(* ===================================================================== *)

Module Integrity.
Import Store Database.

(** [DELETE FROM lottery_winners WHERE ...].  No table refers to
    [lottery_winners], so nothing can refuse the statement. *)
Definition DELETE (where_ : lottery_winner -> bool) (tbl : table) : db unit * table :=
  (inr tt, List.filter (fun r => negb (where_ r)) tbl).

(** [x], when present, has at most [n] characters. *)
Definition fits (n : nat) (x : option string) : Prop :=
  match x with
  | Some s => (String.length s <= n)%nat
  | None => True
  end.

(** What every row written through the triggers satisfies: the row
    constraints, no space at either end of the five text columns, and
    the lengths of the three [VARCHAR] columns. *)
Definition stored (r : lottery_winner) : Prop :=
  constraints r = inr tt
  /\ clean (winner_name r) /\ clean (winner_contact r) /\ clean (prize_category r)
  /\ clean (winner_address r) /\ clean (notes r)
  /\ fits 255 (prize_category r) /\ fits 255 (winner_name r) /\ fits 20 (winner_contact r).

Definition well_kept (tbl : table) : Prop :=
  Forall stored tbl /\ keys_distinct tbl = inr tt.

(** The tables that the statements and the three write paths of the
    pages can produce, starting from the empty table. *)
Inductive reachable : table -> Prop :=
| reach_empty : reachable []
| reach_insert new_id now values tbl :
    reachable tbl -> reachable (snd (INSERT new_id now values tbl))
| reach_update now set where_ tbl :
    reachable tbl -> reachable (snd (UPDATE now set where_ tbl))
| reach_delete where_ tbl :
    reachable tbl -> reachable (snd (DELETE where_ tbl))
| reach_register env ticket w :
    reachable (SearchPage.lottery_winners w) ->
    reachable (SearchPage.lottery_winners (SearchPage.registerWinner env ticket w))
| reach_save now fault updatedData st tbl :
    reachable tbl ->
    reachable (snd (WinnersPage.handleSaveEdit now fault updatedData st tbl)).

End Integrity.

(* ===================================================================== *)
(** * [src/pages/Winners.tsx]: opening the form, deleting a winner *)
(* ===================================================================== *)

Module WinnersList.
Import Database Supabase WinnersPage.

(** A column as it arrives in a fetched object. *)
Definition fetched (x : option string) : property string :=
  match x with Some s => value s | None => null end.

(** The object that the list holds for a stored row with key [key], as
    far as the form reads it. *)
Definition form_of (key : string) (r : Store.lottery_winner) : LotteryWinner :=
  {| id := key;
     prize_category := fetched (Store.prize_category r);
     winner_name := fetched (Store.winner_name r);
     winner_contact := fetched (Store.winner_contact r);
     winner_address := fetched (Store.winner_address r);
     notes := fetched (Store.notes r) |}.

(** [handleEdit(winner)]. *)
Definition handleEdit (winner : LotteryWinner) (st : page) : page :=
  {| editingWinner := Some winner; showEditForm := true; toasts := toasts st |}.

(** [handleDelete(winnerId)]; [confirmed] is the answer to
    [window.confirm].  The refresh [fetchWinners()] only reads. *)
Definition handleDelete (confirmed : bool) (fault : option string) (winnerId : string)
    (st : page) (tbl : table) : page * table :=
  if negb confirmed then (st, tbl)
  else
    match request fault (Integrity.DELETE (eq_id winnerId)) tbl with
    | (inl _, tbl') =>
        ({| editingWinner := editingWinner st; showEditForm := showEditForm st;
            toasts := toasts st ++ [toast_error "Failed to delete winner entry"] |},
         tbl')
    | (inr _, tbl') =>
        ({| editingWinner := editingWinner st; showEditForm := showEditForm st;
            toasts := toasts st ++ [toast_success "Winner entry deleted successfully"] |},
         tbl')
    end.

(** The page after a save that the source takes for failed. *)
Definition save_failed (st : page) : page :=
  {| editingWinner := editingWinner st; showEditForm := showEditForm st;
     toasts := toasts st ++ [toast_error "Failed to update winner entry"] |}.

(** The page after a save that the source takes for successful. *)
Definition save_done (st : page) : page :=
  {| editingWinner := None; showEditForm := false;
     toasts := toasts st ++ [toast_success "Winner entry updated successfully"] |}.

(** The table after a save that changed nothing: [updated_at] of the
    edited row is the time of the statement. *)
Definition touched (now : Store.timestamp) (key : string) (tbl : table) : table :=
  List.map (fun o => if eq_id key o then Store.set_updated_at (Some now) o else o) tbl.

End WinnersList.

(* ===================================================================== *)
(** * Words for the outcomes of a registration *)
(* ===================================================================== *)

Module Registration.
Import Database SearchPage.

(** The row that the page sends, with the defaults of the store. *)
Definition sent (env : environment) (ticket : TicketSale)
    (category name contact : string) : Store.lottery_winner :=
  insert_body ticket category name contact (defaults (new_id env) (now env)).

(** The number of winners of a category in a table. *)
Definition winners_of (category : string) (tbl : table) : Z :=
  Z.of_nat (List.length (select_by_category category tbl)).

Definition is_success (t : toast) : bool :=
  match t with toast_success _ => true | toast_error _ => false end.

End Registration.

(* ===================================================================== *)
(** * [src/pages/Search.tsx]: a registration among other clients *)
(* ===================================================================== *)

Module Interleaved.
Import Database SearchPage.

(** [registerWinner] up to its insert: the error it stops with at one
    of its guards, or the category, the name and the contact it goes on
    with.  The count of [getRemainingQuantity] is the only request of
    this part. *)
Definition registerWinner_guards (env : environment) (ticket : TicketSale) (w : world)
    : toast + string * string * string :=
  let lotteryNumber := lottery_number ticket in
  let selectedPrizeCategory := selectedPrize w !! id ticket in
  if falsy selectedPrizeCategory then
    inl (toast_error "Please select a prize category")
  else
    let selectedPrizeCategory := default "" selectedPrizeCategory in
    if checkIfAlreadyWon w lotteryNumber then
      inl (toast_error (already_won_text lotteryNumber))
    else
      let remaining :=
        getRemainingQuantity (count_fault env) selectedPrizeCategory (lottery_winners w) in
      if remaining <=? 0 then
        inl (toast_error ("No " ++ selectedPrizeCategory ++ " prizes remaining!"))
      else if missing_or_blank (purchaser_name ticket) then
        inl (toast_error
               "Ticket purchaser name is missing or empty. Cannot register winner.")
      else if missing_or_blank (purchaser_contact ticket) then
        inl (toast_error
               "Ticket purchaser contact is missing or empty. Cannot register winner.")
      else
        inr (selectedPrizeCategory,
             default "" (purchaser_name ticket),
             default "" (purchaser_contact ticket)).

(** [registerWinner(ticket)] with other clients at work.  The count and
    the insert are two requests, each awaited: the count reads the table
    of [w], and the insert finds the table as the other clients have left
    it in the meantime, [others] of it.  With [others] the identity this
    is [registerWinner]. *)
Definition registerWinner_among (others : table -> table) (env : environment)
    (ticket : TicketSale) (w : world) : world :=
  match registerWinner_guards env ticket w with
  | inl t => say t w
  | inr (selectedPrizeCategory, name, contact) =>
      insert_winner env ticket selectedPrizeCategory name contact
        (setTable (others (lottery_winners w)) w)
  end.

End Interleaved.

(* ===================================================================== *)
(** * [src/pages/Search.tsx], [src/pages/TicketSales.tsx]: a ticket by number *)
(* ===================================================================== *)

Module Lookup.
Import Numbering.

(** What a search does with the text typed, up to its request: the
    error shown instead of a request, or the number the request is made
    with ([None] is [NaN]). *)
Inductive answer :=
| refused (text : string)
| asked (lotteryNumber : option Z).

(** [x < b] and [x > b] on numbers: both false when [x] is [NaN]. *)
Definition lt (x : option Z) (b : Z) : bool :=
  match x with Some n => n <? b | None => false end.

Definition gt (x : option Z) (b : Z) : bool :=
  match x with Some n => b <? n | None => false end.

(** [handleQuickSearch] of the search page.  Above 2^53 [parseInt]
    rounds; the rounded value is above 39999 as the exact one is, so the
    answer is the same. *)
Definition handleQuickSearch (quickSearchTerm : string) : answer :=
  if String.eqb (JS.trim quickSearchTerm) "" then refused "Please enter a lottery number"
  else
    let parsed :=
      if (String.length quickSearchTerm =? 5)%nat && RegExp.five_digits quickSearchTerm
      then Some (parseLotteryNumber quickSearchTerm)
      else if RegExp.some_digits quickSearchTerm
      then Some (JS.parseInt10 quickSearchTerm)
      else None in
    match parsed with
    | None => refused "Please enter a valid lottery number"
    | Some lotteryNumber =>
        if lt lotteryNumber 1 || gt lotteryNumber 39999
        then refused "Lottery number must be between 00001 and 39999"
        else asked lotteryNumber
    end.

(** [handleTicketSearch] of the ticket sales page. *)
Definition handleTicketSearch (ticketSearchNumber : string) : answer :=
  if String.eqb (JS.trim ticketSearchNumber) "" then refused "Please enter a lottery number"
  else
    let lotteryNum := parseLotteryNumber (JS.trim ticketSearchNumber) in
    if lt lotteryNum 1 || gt lotteryNum 39999
    then refused "Lottery number must be between 00001 and 39999"
    else asked lotteryNum.

End Lookup.

(* ===================================================================== *)
(** * Reading a table page by page *)
(* ===================================================================== *)

Module Paging.
Import Supabase.

Definition pageSize : nat := 1000.

(** The rows at the positions [from] to [to_], both included, of the
    rows a query selects. *)
Definition slice {A} (rows : list A) (from to_ : nat) : list A :=
  firstn (S to_ - from) (skipn from rows).

Section Loop.
Context {A : Type}.

(** The answer to the query with [.range(from, to)]. *)
Variable range : nat -> nat -> response (list A).

(** The loop [while (hasMore)] of [getMissingTickets] and [fetchWinners],
    [fuel] bounding the number of requests; an [error] is thrown. *)
Fixpoint fetch_pages (fuel : nat) (all : list A) (from : nat) : option (response (list A)) :=
  match fuel with
  | O => None
  | S fuel' =>
      match range from (from + pageSize - 1) with
      | inl error => Some (inl error)
      | inr page =>
          if (0 <? List.length page)%nat then
            let all' := (all ++ page)%list in
            if (List.length page =? pageSize)%nat
            then fetch_pages fuel' all' (from + pageSize)%nat
            else Some (inr all')
          else Some (inr all)
      end
  end.

End Loop.
End Paging.

(* ===================================================================== *)
(** * [src/lib/supabase.ts]: the tickets not sold yet *)
(* ===================================================================== *)

Module Missing.
Import Numbering Supabase.

Record MissingTicket := { lottery_number : Z; diary_number : Z }.

Record DiaryGroup := {
  group_diary_number : Z;
  missing_count : Z;
  missing_numbers : list Z }.

Record MissingTicketsResult := {
  missing_tickets : list MissingTicket;
  total_missing : Z;
  grouped_by_diary : list DiaryGroup }.

(** [Array.from({ length: 39999 }, (_, i) => i + 1)]. *)
Definition allNumbers : list Z :=
  List.map (fun i => Z.of_nat i + 1) (List.seq 0 (Z.to_nat 39999)).

(** A [Map<number, number[]>]: its entries in the order of insertion. *)
Definition NumberMap : Type := list (Z * list Z).

Definition Map_has (key : Z) (m : NumberMap) : bool :=
  existsb (fun e => fst e =? key) m.

Definition Map_set (key : Z) (v : list Z) (m : NumberMap) : NumberMap :=
  if Map_has key m
  then List.map (fun e => if fst e =? key then (key, v) else e) m
  else (m ++ [(key, v)])%list.

(** [m.get(key)!.push(x)]: the array under [key] grows in place. *)
Definition Map_push (key x : Z) (m : NumberMap) : NumberMap :=
  List.map (fun e => if fst e =? key then (fst e, (snd e ++ [x])%list) else e) m.

(** The body of [missingTickets.forEach]. *)
Definition group_ticket (groupedByDiary : NumberMap) (ticket : MissingTicket) : NumberMap :=
  let m := if negb (Map_has (diary_number ticket) groupedByDiary)
           then Map_set (diary_number ticket) [] groupedByDiary
           else groupedByDiary in
  Map_push (diary_number ticket) (lottery_number ticket) m.

Section Sort.
Context {A : Type}.
Variable key : A -> Z.

Fixpoint place (x : A) (sorted : list A) : list A :=
  match sorted with
  | y :: rest => if key x <=? key y then x :: sorted else y :: place x rest
  | [] => [x]
  end.

(** [Array.prototype.sort((a, b) => key(a) - key(b))]: ascending by
    [key], elements of one key in their former order. *)
Definition sort (l : list A) : list A := List.fold_right place [] l.

End Sort.

(** [getMissingTickets] from the rows fetched on. *)
Definition missing_among (allExistingTickets : list Z) : MissingTicketsResult :=
  let existingNumbers : gset Z := list_to_set allExistingTickets in
  let missingNumbers :=
    List.filter (fun num => negb (bool_decide (num ∈ existingNumbers))) allNumbers in
  let missingTickets :=
    List.map (fun num => {| lottery_number := num;
                            diary_number := getDiaryFromLotteryNumber num |})
             missingNumbers in
  let groupedByDiary := List.fold_left group_ticket missingTickets [] in
  let groupedArray :=
    sort group_diary_number
      (List.map (fun e => {| group_diary_number := fst e;
                             missing_count := Z.of_nat (List.length (snd e));
                             missing_numbers := sort (fun n => n) (snd e) |})
                groupedByDiary) in
  {| missing_tickets := missingTickets;
     total_missing := Z.of_nat (List.length missingTickets);
     grouped_by_diary := groupedArray |}.

(** [getMissingTickets()]: [range] answers the paged query on
    [ticket_sales]. *)
Definition getMissingTickets (range : nat -> nat -> response (list Z)) (fuel : nat)
    : option (response MissingTicketsResult) :=
  match Paging.fetch_pages range fuel [] 0%nat with
  | None => None
  | Some (inl error) => Some (inl error)
  | Some (inr allExistingTickets) => Some (inr (missing_among allExistingTickets))
  end.

End Missing.

(* ===================================================================== *)
(** * [database/create_lottery_winners.sql]: the view of the prizes given *)
(* ===================================================================== *)

Module Stats.
Import Store Database.

(** A row of [prize_category_stats]. *)
Record stats_row := {
  stats_prize_category : option string;
  winners_count : Z;
  total_quantity : option Z;
  remaining_quantity : option Z }.

(** [MAX(x)] over the rows of a group: NULLs are skipped, and the result
    is NULL when nothing is left. *)
Definition MAX (xs : list (option Z)) : option Z :=
  List.fold_right
    (fun x acc =>
       match x, acc with
       | Some a, Some b => Some (Z.max a b)
       | Some a, None => Some a
       | None, _ => acc
       end)
    None xs.

(** [a - b] with [b] not NULL. *)
Definition MINUS (a : option Z) (b : Z) : option Z := option_map (fun x => x - b) a.

(** [GROUP BY] puts together the rows whose values are equal or both
    NULL. *)
Definition same_group (a b : option string) : bool :=
  match a, b with
  | Some x, Some y => String.eqb x y
  | None, None => true
  | _, _ => false
  end.

(** The values of [prize_category], each once.  SQL leaves the order of
    the groups open; here it is the order of their first rows. *)
Fixpoint group_keys (tbl : table) : list (option string) :=
  match tbl with
  | [] => []
  | r :: rest =>
      prize_category r
      :: List.filter (fun k => negb (same_group k (prize_category r))) (group_keys rest)
  end.

(** [CREATE VIEW prize_category_stats]. *)
Definition prize_category_stats (tbl : table) : list stats_row :=
  List.map
    (fun k =>
       let rows := List.filter (fun r => same_group (prize_category r) k) tbl in
       let count := Z.of_nat (List.length rows) in
       let total := MAX (List.map prize_quantity rows) in
       {| stats_prize_category := k;
          winners_count := count;
          total_quantity := total;
          remaining_quantity := MINUS total count |})
    (group_keys tbl).

(** The tables that registrations alone produce from the empty table,
    one after the other or overlapping: an insert of [registerWinner]
    follows the guards of its call, which ran on an earlier state [w0] of
    the page, and finds the table as the calls of other clients have left
    it. *)
Inductive registered : table -> Prop :=
| registered_empty : registered []
| registered_next env ticket w0 w category name contact :
    Interleaved.registerWinner_guards env ticket w0 = inr (category, name, contact) ->
    registered (SearchPage.lottery_winners w) ->
    registered (SearchPage.lottery_winners
                  (SearchPage.insert_winner env ticket category name contact w)).

End Stats.

(* ===================================================================== *)
(** * Properties of the numbering scheme *)
(* ===================================================================== *)

Section NumberingFacts.
Import Numbering.

(** [Math.ceil(n / 22)] in integer arithmetic. *)
Lemma Math_ceil_div_22 (n : Z) : JS.Math_ceil (JS.div n 22) = - ((- n) / 22).
Proof.
  unfold JS.Math_ceil, JS.div, Qceiling, Qfloor, Qdiv, Qmult, Qinv, Qopp, inject_Z.
  cbn [Qnum Qden]. rewrite Z.mul_1_r. reflexivity.
Qed.

(** The ceiling is the least multiple count that reaches [n]. *)
Lemma Math_ceil_div_22_bounds (n : Z) :
  22 * (JS.Math_ceil (JS.div n 22) - 1) < n <= 22 * JS.Math_ceil (JS.div n 22).
Proof. rewrite Math_ceil_div_22. Z.div_mod_to_equations. lia. Qed.

Lemma getDiaryFromLotteryNumber_low (n : Z) :
  n <= 39996 -> getDiaryFromLotteryNumber n = JS.Math_ceil (JS.div n 22).
Proof.
  intros H. unfold getDiaryFromLotteryNumber.
  destruct (Z.leb_spec n 39996); [reflexivity | lia].
Qed.

Lemma getDiaryFromLotteryNumber_high (n : Z) :
  39996 < n -> getDiaryFromLotteryNumber n = 1819.
Proof.
  intros H. unfold getDiaryFromLotteryNumber.
  destruct (Z.leb_spec n 39996); [lia | reflexivity].
Qed.

Lemma getTicketRangeForDiary_general (d : Z) :
  d <> 1819 -> getTicketRangeForDiary d = general_range d.
Proof.
  intros H. unfold getTicketRangeForDiary.
  destruct (Z.eqb_spec d 1819); [contradiction | reflexivity].
Qed.

Lemma getTicketRangeForDiary_last :
  getTicketRangeForDiary 1819 = {| start := 39997; end_ := 39999 |}.
Proof. reflexivity. Qed.

(** The two ends of a diary's range, by cases. *)
Lemma range_cases (d : Z) :
  (d = 1819 /\ start (getTicketRangeForDiary d) = 39997
            /\ end_ (getTicketRangeForDiary d) = 39999)
  \/ (d <> 1819 /\ start (getTicketRangeForDiary d) = (d - 1) * 22 + 1
                /\ end_ (getTicketRangeForDiary d) = d * 22).
Proof.
  destruct (Z.eq_dec d 1819) as [-> | Hd].
  - left. repeat split; reflexivity.
  - right. rewrite getTicketRangeForDiary_general by assumption. repeat split; trivial.
Qed.

(** The diary of a ticket number, by cases. *)
Lemma diary_cases (n : Z) :
  (n <= 39996 /\ 22 * (getDiaryFromLotteryNumber n - 1) < n
                 <= 22 * getDiaryFromLotteryNumber n)
  \/ (39996 < n /\ getDiaryFromLotteryNumber n = 1819).
Proof.
  destruct (Z.le_gt_cases n 39996) as [H | H].
  - left. split; [assumption |].
    rewrite getDiaryFromLotteryNumber_low by assumption.
    apply Math_ceil_div_22_bounds.
  - right. split; [lia |]. apply getDiaryFromLotteryNumber_high. lia.
Qed.

Lemma validate_iff_contains (n d : Z) :
  validateLotteryNumberForDiary n d = true <-> contains (getTicketRangeForDiary d) n.
Proof.
  unfold validateLotteryNumberForDiary, contains.
  rewrite andb_true_iff, !Z.leb_le. tauto.
Qed.

(** The diary computed for a ticket number at most 39999 holds it. *)
Lemma diary_holds_ticket (n : Z) :
  n <= 39999 -> contains (getTicketRangeForDiary (getDiaryFromLotteryNumber n)) n.
Proof.
  intros Hn. unfold contains.
  destruct (diary_cases n) as [[Hlow Hb] | [Hhigh ->]].
  - destruct (range_cases (getDiaryFromLotteryNumber n)) as [(E & _) | (_ & -> & ->)]; lia.
  - rewrite getTicketRangeForDiary_last. cbn. lia.
Qed.

(** C1.  For every integer [n] in [1, 39999], the range returned by
    [getTicketRangeForDiary (getDiaryFromLotteryNumber n)] contains [n];
    equivalently [validateLotteryNumberForDiary n
    (getDiaryFromLotteryNumber n)] returns [true]. *)
Theorem ticket_in_range_of_its_diary (n : Z) :
  1 <= n <= 39999 ->
  contains (getTicketRangeForDiary (getDiaryFromLotteryNumber n)) n
  /\ validateLotteryNumberForDiary n (getDiaryFromLotteryNumber n) = true.
Proof.
  intros Hn.
  assert (H : contains (getTicketRangeForDiary (getDiaryFromLotteryNumber n)) n)
    by (apply diary_holds_ticket; lia).
  split; [exact H | apply validate_iff_contains; exact H].
Qed.

Lemma ticket_in_range_of_its_diary_witness :
  1 <= 39999 <= 39999
  /\ contains (getTicketRangeForDiary (getDiaryFromLotteryNumber 39999)) 39999
  /\ validateLotteryNumberForDiary 39999 (getDiaryFromLotteryNumber 39999) = true.
Proof. split; [lia | apply (ticket_in_range_of_its_diary 39999); lia]. Defined.

Lemma diary_monotone (n1 n2 : Z) :
  n1 <= n2 -> getDiaryFromLotteryNumber n1 <= getDiaryFromLotteryNumber n2.
Proof.
  intros Hle.
  destruct (diary_cases n1) as [[H1 B1] | [H1 ->]],
           (diary_cases n2) as [[H2 B2] | [H2 ->]]; lia.
Qed.

Lemma diary_in_bounds (n : Z) :
  1 <= n <= 39999 -> 1 <= getDiaryFromLotteryNumber n <= 1819.
Proof. intros Hn. destruct (diary_cases n) as [[H B] | [H ->]]; lia. Qed.

(** The scenario of the specification: tickets 22, 23 and 39999. *)
Example diary_scenario :
  getDiaryFromLotteryNumber 22 = 1
  /\ getTicketRangeForDiary 1 = {| start := 1; end_ := 22 |}
  /\ getDiaryFromLotteryNumber 23 = 2
  /\ getTicketRangeForDiary 2 = {| start := 23; end_ := 44 |}
  /\ getDiaryFromLotteryNumber 39999 = 1819
  /\ getTicketRangeForDiary 1819 = {| start := 39997; end_ := 39999 |}.
Proof. repeat split; reflexivity. Qed.

(** C6.  [getDiaryFromLotteryNumber] is monotonic non-decreasing on all
    integers, and on [1, 39999] its result lies in [1, 1819]. *)
Theorem getDiaryFromLotteryNumber_monotone_bounded :
  (forall n1 n2 : Z, n1 < n2 ->
     getDiaryFromLotteryNumber n1 <= getDiaryFromLotteryNumber n2)
  /\ (forall n : Z, 1 <= n <= 39999 -> 1 <= getDiaryFromLotteryNumber n <= 1819).
Proof.
  split.
  - intros n1 n2 Hlt. apply diary_monotone. lia.
  - exact diary_in_bounds.
Qed.

Lemma getDiaryFromLotteryNumber_monotone_bounded_witness :
  getDiaryFromLotteryNumber 22 <= getDiaryFromLotteryNumber 23
  /\ 1 <= getDiaryFromLotteryNumber 39999 <= 1819.
Proof.
  split.
  - apply (proj1 getDiaryFromLotteryNumber_monotone_bounded 22 23). lia.
  - apply (proj2 getDiaryFromLotteryNumber_monotone_bounded 39999). lia.
Defined.

(** C9.  On [1, 39999] the two-branch [getDiaryFromLotteryNumber] equals
    the plain ceiling of [n / 22]: the branch for the last diary agrees
    with the formula on 39997, 39998 and 39999.  The last-diary branch of
    [getTicketRangeForDiary] does not: the general formula gives diary
    1819 the range (39997, 40018). *)
Theorem getDiaryFromLotteryNumber_is_ceiling :
  (forall n : Z, 1 <= n <= 39999 -> getDiaryFromLotteryNumber n = ceil_formula n)
  /\ getTicketRangeForDiary 1819 <> general_range 1819.
Proof.
  split.
  - intros n Hn. unfold ceil_formula.
    destruct (diary_cases n) as [[H _] | [H ->]].
    + apply getDiaryFromLotteryNumber_low. exact H.
    + pose proof (Math_ceil_div_22_bounds n). lia.
  - discriminate.
Qed.

Lemma getDiaryFromLotteryNumber_is_ceiling_witness :
  getDiaryFromLotteryNumber 39997 = ceil_formula 39997.
Proof. apply (proj1 getDiaryFromLotteryNumber_is_ceiling 39997). lia. Defined.

(** C4.  The ranges of the diaries 1 to 1819 partition [1, 39999]: their
    union is [1, 39999], two distinct diaries share no ticket,
    consecutive ranges are contiguous, every diary up to 1818 holds 22
    tickets, and diary 1819 is the only one with fewer, with range
    (39997, 39999). *)
Theorem diary_ranges_partition :
  (forall n : Z, 1 <= n <= 39999 <->
     exists d, 1 <= d <= 1819 /\ contains (getTicketRangeForDiary d) n)
  /\ (forall d1 d2 n : Z, 1 <= d1 <= 1819 -> 1 <= d2 <= 1819 ->
        contains (getTicketRangeForDiary d1) n ->
        contains (getTicketRangeForDiary d2) n -> d1 = d2)
  /\ (forall d : Z, 1 <= d <= 1818 ->
        end_ (getTicketRangeForDiary d) + 1 = start (getTicketRangeForDiary (d + 1)))
  /\ start (getTicketRangeForDiary 1) = 1
  /\ (forall d : Z, 1 <= d <= 1818 -> size (getTicketRangeForDiary d) = 22)
  /\ (forall d : Z, 1 <= d <= 1819 -> size (getTicketRangeForDiary d) < 22 -> d = 1819)
  /\ size (getTicketRangeForDiary 1819) < 22
  /\ getTicketRangeForDiary 1819 = {| start := 39997; end_ := 39999 |}.
Proof.
  split; [| split; [| split; [| split; [| split; [| split; [| split]]]]]].
  - intros n. split.
    + intros Hn. exists (getDiaryFromLotteryNumber n). split.
      * apply diary_in_bounds. exact Hn.
      * apply diary_holds_ticket. lia.
    + intros (d & Hd & Hc). unfold contains in Hc.
      destruct (range_cases d) as [(E & Hs & He) | (E & Hs & He)]; lia.
  - intros d1 d2 n H1 H2 C1 C2. unfold contains in C1, C2.
    destruct (range_cases d1) as [(E1 & S1 & F1) | (E1 & S1 & F1)],
             (range_cases d2) as [(E2 & S2 & F2) | (E2 & S2 & F2)]; lia.
  - intros d Hd.
    destruct (range_cases d) as [(E1 & S1 & F1) | (E1 & S1 & F1)],
             (range_cases (d + 1)) as [(E2 & S2 & F2) | (E2 & S2 & F2)]; lia.
  - reflexivity.
  - intros d Hd. unfold size.
    destruct (range_cases d) as [(E1 & S1 & F1) | (E1 & S1 & F1)]; lia.
  - intros d Hd. unfold size.
    destruct (range_cases d) as [(E1 & S1 & F1) | (E1 & S1 & F1)]; lia.
  - reflexivity.
  - reflexivity.
Qed.

Lemma diary_ranges_partition_witness :
  (exists d, 1 <= d <= 1819 /\ contains (getTicketRangeForDiary d) 39996)
  /\ size (getTicketRangeForDiary 1818) = 22.
Proof.
  destruct diary_ranges_partition as (U & _ & _ & _ & S22 & _).
  split.
  - apply (proj1 (U 39996)). lia.
  - apply (S22 1818). lia.
Defined.

End NumberingFacts.

(* ===================================================================== *)
(** * Formatting and parsing ticket numbers *)
(* ===================================================================== *)

Section FormatFacts.
Import Numbering.

Ltac each_digit d :=
  let H := fresh in
  assert (H : d = 0 \/ d = 1 \/ d = 2 \/ d = 3 \/ d = 4 \/ d = 5 \/ d = 6
              \/ d = 7 \/ d = 8 \/ d = 9) by (unfold JS.is_digit in *; lia);
  repeat (destruct H as [-> | H]); [.. | subst d].

Lemma digit_value_digit_char (d : Z) :
  JS.is_digit d -> JS.digit_value (JS.digit_char d) = Some d.
Proof. intros Hd. each_digit d; reflexivity. Qed.

Lemma digit_char_not_white_space (d : Z) :
  JS.is_digit d -> JS.is_white_space (JS.digit_char d) = false.
Proof. intros Hd. each_digit d; reflexivity. Qed.

Lemma decimal_digits_small (n : Z) : n < 10 -> JS.decimal_digits n = [n].
Proof.
  intros H. rewrite JS.decimal_digits_equation_1.
  destruct (Z_lt_dec n 10); [reflexivity | contradiction].
Qed.

Lemma decimal_digits_large (n : Z) :
  10 <= n -> JS.decimal_digits n = (JS.decimal_digits (n / 10) ++ [n mod 10])%list.
Proof.
  intros H. rewrite JS.decimal_digits_equation_1.
  destruct (Z_lt_dec n 10); [lia | reflexivity].
Qed.

(** Induction on a non-negative integer along its decimal expansion. *)
Lemma decimal_induction (P : Z -> Prop) :
  (forall n, 0 <= n < 10 -> P n) ->
  (forall n, 10 <= n -> P (n / 10) -> P n) ->
  forall n, 0 <= n -> P n.
Proof.
  intros Hsmall Hstep n Hn.
  refine (Z_lt_induction (fun n => 0 <= n -> P n) _ n Hn Hn).
  clear n Hn. intros n IH Hn.
  destruct (Z_lt_dec n 10) as [Hlt | Hge].
  - apply Hsmall. lia.
  - apply Hstep; [lia |].
    assert (0 <= n / 10 < n) by (split; [apply Z.div_pos | apply Z.div_lt]; lia).
    apply IH; lia.
Qed.

Lemma decimal_digits_are_digits (n : Z) :
  0 <= n -> Forall JS.is_digit (JS.decimal_digits n).
Proof.
  revert n. apply decimal_induction.
  - intros n Hn. rewrite decimal_digits_small by lia. constructor; [exact Hn | constructor].
  - intros n Hn IH. rewrite decimal_digits_large by lia.
    apply Forall_app. split; [exact IH |].
    constructor; [| constructor]. unfold JS.is_digit. apply Z.mod_pos_bound. lia.
Qed.

Lemma decimal_digits_not_nil (n : Z) : JS.decimal_digits n <> [].
Proof.
  rewrite JS.decimal_digits_equation_1. destruct (Z_lt_dec n 10).
  - discriminate.
  - cbn. intros H. apply app_eq_nil in H. destruct H. discriminate.
Qed.

Lemma decimal_value_snoc (ds : list Z) (d : Z) :
  JS.decimal_value (ds ++ [d]) = JS.decimal_value ds * 10 + d.
Proof. unfold JS.decimal_value. rewrite fold_left_app. reflexivity. Qed.

(** Reading back the digits of [n] gives [n]. *)
Lemma decimal_value_decimal_digits (n : Z) :
  0 <= n -> JS.decimal_value (JS.decimal_digits n) = n.
Proof.
  revert n. apply decimal_induction.
  - intros n Hn. rewrite decimal_digits_small by lia. reflexivity.
  - intros n Hn IH. rewrite decimal_digits_large, decimal_value_snoc, IH by lia.
    pose proof (Z.div_mod n 10). lia.
Qed.

(** Leading zeros do not change the value. *)
Lemma decimal_value_leading_zeros (k : nat) (ds : list Z) :
  JS.decimal_value (repeat 0 k ++ ds) = JS.decimal_value ds.
Proof.
  unfold JS.decimal_value. rewrite fold_left_app. f_equal.
  induction k as [| k IH]; [reflexivity | exact IH].
Qed.

Lemma render_app (xs ys : list Z) :
  JS.render (xs ++ ys) = (JS.render xs ++ JS.render ys)%string.
Proof.
  unfold JS.render. induction xs as [| x xs IH]; [reflexivity |].
  cbn. rewrite IH. reflexivity.
Qed.

Lemma filler_zeros (k : nat) :
  JS.filler k "0" "0" = JS.render (repeat 0 k)
  /\ JS.filler k "0" "" = JS.render (repeat 0 k).
Proof.
  induction k as [| k [IH1 IH2]]; [split; reflexivity |].
  split; cbn [JS.filler repeat]; rewrite IH2; reflexivity.
Qed.

(** A rendered list of digits reads back as itself. *)
Lemma digit_prefix_render (ds : list Z) :
  Forall JS.is_digit ds -> JS.digit_prefix (JS.render ds) = ds.
Proof.
  induction 1 as [| d ds Hd _ IH]; [reflexivity |].
  change (JS.render (d :: ds)) with (String (JS.digit_char d) (JS.render ds)).
  cbn [JS.digit_prefix]. rewrite digit_value_digit_char, IH by assumption. reflexivity.
Qed.

(** [parseInt] of a non-empty string of digits. *)
Lemma parseInt10_render (ds : list Z) :
  ds <> [] -> Forall JS.is_digit ds ->
  JS.parseInt10 (JS.render ds) = Some (JS.decimal_value ds).
Proof.
  intros Hne Hds. destruct ds as [| d ds]; [contradiction |].
  pose proof (digit_prefix_render (d :: ds) Hds) as Hp.
  inversion Hds as [| ? ? Hd Hrest]; subst.
  change (JS.render (d :: ds)) with (String (JS.digit_char d) (JS.render ds)) in *.
  unfold JS.parseInt10, JS.trimStart. cbn [Text.drop_leading].
  rewrite digit_char_not_white_space by assumption.
  assert (Hsign :
    match String (JS.digit_char d) (JS.render ds) with
    | String "-" rest => (-1, rest)
    | String "+" rest => (1, rest)
    | _ => (1, String (JS.digit_char d) (JS.render ds))
    end = (1, String (JS.digit_char d) (JS.render ds))).
  { each_digit d; reflexivity. }
  rewrite Hsign, Hp. f_equal. lia.
Qed.

Lemma render_length (ds : list Z) : String.length (JS.render ds) = List.length ds.
Proof.
  unfold JS.render. induction ds as [| d ds IH]; [reflexivity |].
  cbn. rewrite IH. reflexivity.
Qed.

(** A number below [10^(k+1)] has at most [k+1] digits. *)
Lemma decimal_digits_length (k : nat) (n : Z) :
  0 <= n < 10 ^ Z.of_nat (S k) -> (List.length (JS.decimal_digits n) <= S k)%nat.
Proof.
  revert n. induction k as [| k IH]; intros n Hn.
  - rewrite decimal_digits_small by (cbn in Hn; lia). cbn. lia.
  - destruct (Z_lt_dec n 10) as [Hlt | Hge].
    + rewrite decimal_digits_small by lia. cbn. lia.
    + rewrite decimal_digits_large, length_app by lia. cbn [List.length].
      assert (0 <= n / 10 < 10 ^ Z.of_nat (S k)).
      { replace (Z.of_nat (S (S k))) with (Z.succ (Z.of_nat (S k))) in Hn by lia.
        rewrite Z.pow_succ_r in Hn by lia.
        split; [apply Z.div_pos; lia | apply Z.div_lt_upper_bound; lia]. }
      specialize (IH (n / 10)). lia.
Qed.

(** What [formatLotteryNumber] writes for a non-negative number: its
    digits behind as many zeros as are missing to five characters. *)
Lemma formatLotteryNumber_digits (n : Z) :
  0 <= n ->
  formatLotteryNumber n =
    JS.render (repeat 0 (5 - List.length (JS.decimal_digits n)) ++ JS.decimal_digits n).
Proof.
  intros Hn. unfold formatLotteryNumber, JS.toString, JS.padStart.
  destruct (Z.ltb_spec n 0); [lia |].
  rewrite render_length.
  destruct (Nat.leb_spec 5 (List.length (JS.decimal_digits n))) as [Hlen | Hlen].
  - replace (5 - List.length (JS.decimal_digits n))%nat with 0%nat by lia. reflexivity.
  - rewrite (proj1 (filler_zeros _)), <- render_app. reflexivity.
Qed.

(** The round trip on every non-negative integer. *)
Lemma parse_format_nonnegative (n : Z) :
  0 <= n -> parseLotteryNumber (formatLotteryNumber n) = Some n.
Proof.
  intros Hn. rewrite (formatLotteryNumber_digits n Hn).
  unfold parseLotteryNumber. rewrite parseInt10_render.
  - rewrite decimal_value_leading_zeros, decimal_value_decimal_digits by assumption.
    reflexivity.
  - intros H. apply app_eq_nil in H. destruct H as [_ H].
    exact (decimal_digits_not_nil n H).
  - apply Forall_app. split.
    + induction (5 - _)%nat; constructor; [unfold JS.is_digit; lia | assumption].
    + apply decimal_digits_are_digits. exact Hn.
Qed.

(** Up to 99999 the formatted number has exactly five characters. *)
Lemma formatLotteryNumber_length (n : Z) :
  0 <= n <= 99999 -> String.length (formatLotteryNumber n) = 5%nat.
Proof.
  intros Hn. rewrite formatLotteryNumber_digits, render_length, length_app, repeat_length by lia.
  pose proof (decimal_digits_length 4 n). cbn in H. lia.
Qed.

(** C5.  For every integer [n] in [1, 39999],
    [parseLotteryNumber (formatLotteryNumber n)] is [n]: the formatted
    number is the five-character string of the decimal digits of [n]
    behind zeros, and parsing reads [n] back from it. *)
Theorem parse_format_round_trip (n : Z) :
  1 <= n <= 39999 ->
  parseLotteryNumber (formatLotteryNumber n) = Some n
  /\ String.length (formatLotteryNumber n) = 5%nat
  /\ formatLotteryNumber n =
       JS.render (repeat 0 (5 - List.length (JS.decimal_digits n)) ++ JS.decimal_digits n).
Proof.
  intros Hn. split; [| split].
  - apply parse_format_nonnegative. lia.
  - apply formatLotteryNumber_length. lia.
  - apply formatLotteryNumber_digits. lia.
Qed.

Lemma parse_format_round_trip_witness :
  1 <= 7 <= 39999
  /\ formatLotteryNumber 7 = "00007"
  /\ parseLotteryNumber (formatLotteryNumber 7) = Some 7.
Proof.
  split; [lia | split; [reflexivity | apply (parse_format_round_trip 7); lia]].
Defined.

End FormatFacts.

(* ===================================================================== *)
(** * Trimming *)
(* ===================================================================== *)

Section StripFacts.
Variable strip : ascii -> bool.

Lemma append_cons (c : ascii) (a b : string) :
  (String c a ++ b)%string = String c (a ++ b).
Proof. reflexivity. Qed.

Lemma append_empty (b : string) : ("" ++ b)%string = b.
Proof. reflexivity. Qed.

Lemma drop_leading_split (s : string) :
  exists before,
    s = before ++ Text.drop_leading strip s /\ Text.all_of strip before = true.
Proof.
  induction s as [| c s (before & Hs & Hb)].
  - exists "". split; reflexivity.
  - cbn [Text.drop_leading]. destruct (strip c) eqn:Hc.
    + exists (String c before). split.
      * rewrite append_cons. f_equal. exact Hs.
      * cbn [Text.all_of]. rewrite Hc, Hb. reflexivity.
    + exists "". split; reflexivity.
Qed.

Lemma drop_leading_starts_clean (s : string) :
  Text.starts_clean strip (Text.drop_leading strip s).
Proof.
  induction s as [| c s IH]; intros c' rest H.
  - discriminate.
  - cbn [Text.drop_leading] in H. destruct (strip c) eqn:Hc.
    + exact (IH c' rest H).
    + injection H as <- _. exact Hc.
Qed.

Lemma drop_trailing_split (s : string) :
  exists after,
    s = Text.drop_trailing strip s ++ after /\ Text.all_of strip after = true.
Proof.
  induction s as [| c s (after & Hs & Ha)].
  - exists "". split; reflexivity.
  - cbn [Text.drop_trailing]. destruct (Text.drop_trailing strip s) as [| k kept] eqn:Hk.
    + rewrite append_empty in Hs. subst after. destruct (strip c) eqn:Hc.
      * exists (String c s). split; [reflexivity |].
        cbn [Text.all_of]. rewrite Hc, Ha. reflexivity.
      * exists s. split; [reflexivity | exact Ha].
    + exists after. split; [| exact Ha]. rewrite append_cons. f_equal. exact Hs.
Qed.

Lemma drop_trailing_ends_clean (s : string) :
  Text.ends_clean strip (Text.drop_trailing strip s).
Proof.
  induction s as [| c s IH]; intros front c' H.
  - destruct front; discriminate.
  - cbn [Text.drop_trailing] in H.
    destruct (Text.drop_trailing strip s) as [| k kept] eqn:Hk.
    + destruct (strip c) eqn:Hc.
      * destruct front; discriminate.
      * destruct front as [| f front].
        -- rewrite append_empty in H. injection H as <-. exact Hc.
        -- rewrite append_cons in H. injection H as _ H. destruct front; discriminate.
    + destruct front as [| f front].
      * rewrite append_empty in H. discriminate.
      * rewrite append_cons in H. injection H as _ H. exact (IH front c' H).
Qed.

Lemma drop_trailing_starts_clean (s : string) :
  Text.starts_clean strip s -> Text.starts_clean strip (Text.drop_trailing strip s).
Proof.
  intros Hs c rest H. destruct s as [| c0 s]; [discriminate |].
  cbn [Text.drop_trailing] in H.
  destruct (Text.drop_trailing strip s); [destruct (strip c0); [discriminate |] |];
    injection H as <- _; exact (Hs c0 s eq_refl).
Qed.

(** Dropping at both ends strips the string. *)
Lemma drop_both_stripped (s : string) :
  Text.stripped strip s (Text.drop_trailing strip (Text.drop_leading strip s)).
Proof.
  split; [| split].
  - destruct (drop_leading_split s) as (before & Hs & Hb).
    destruct (drop_trailing_split (Text.drop_leading strip s)) as (after & Ht & Ha).
    exists before, after. split; [| split; assumption].
    rewrite <- Ht. exact Hs.
  - apply drop_trailing_starts_clean, drop_leading_starts_clean.
  - apply drop_trailing_ends_clean.
Qed.

(** A string of [strip] characters only is dropped whole, and only such
    a string is. *)
Lemma drop_both_empty (s : string) :
  Text.drop_trailing strip (Text.drop_leading strip s) = "" <-> Text.all_of strip s = true.
Proof.
  split.
  - intros H. destruct (drop_both_stripped s) as ((before & after & Hs & Hb & Ha) & _).
    rewrite H, append_empty in Hs. subst s. clear H.
    induction before as [| c before IH]; [exact Ha |].
    rewrite append_cons. cbn [Text.all_of] in *.
    apply andb_true_iff in Hb as [-> Hb]. exact (IH Hb).
  - induction s as [| c s IH]; [reflexivity |].
    cbn [Text.all_of Text.drop_leading]. intros H.
    apply andb_true_iff in H as [-> H]. exact (IH H).
Qed.

End StripFacts.

(* ===================================================================== *)
(** * The winner integrity guard *)
(* ===================================================================== *)

Section GuardFacts.
Import Store Database.

Lemma trim_text_stripped (s : string) :
  Text.stripped SQL.is_space s (SQL.trim_text s).
Proof. apply drop_both_stripped. Qed.

Lemma TRIM_trimmed (x : option string) : trimmed x (SQL.TRIM x).
Proof. destruct x as [s |]; [apply trim_text_stripped | exact I]. Qed.

Lemma trim_if_present_TRIM (x : option string) : trim_if_present x = SQL.TRIM x.
Proof. destruct x; reflexivity. Qed.

(** The condition of the three [IF ... THEN RAISE] tests. *)
Lemma null_or_empty_missing (x : option string) :
  SQL.is_true (null_or_empty x) = true <-> missing x.
Proof.
  unfold missing. destruct x as [s |]; cbn.
  - destruct (SQL.trim_text s) as [| c t] eqn:Ht; cbn; split.
    + intros _. right. exists s. split; [reflexivity | exact Ht].
    + reflexivity.
    + discriminate.
    + intros [H | (s' & H & Hs)]; [discriminate |].
      injection H as <-. rewrite Ht in Hs. discriminate.
  - split; [intros _; left; reflexivity | reflexivity].
Qed.

Lemma null_or_empty_present (x : option string) :
  SQL.is_true (null_or_empty x) = false <-> ~ missing x.
Proof.
  rewrite <- null_or_empty_missing.
  destruct (SQL.is_true (null_or_empty x)); split; congruence.
Qed.

(** Empty after trimming means: nothing but spaces. *)
Lemma missing_spaces_only (s : string) :
  missing (Some s) <-> Text.all_of SQL.is_space s = true.
Proof.
  unfold missing. rewrite <- (drop_both_empty SQL.is_space s). split.
  - intros [H | (s' & H & Hs)]; [discriminate | injection H as <-; exact Hs].
  - intros H. right. exists s. split; [reflexivity | exact H].
Qed.

Lemma trim_text_fields_columns (NEW : lottery_winner) :
  winner_name (trim_text_fields NEW) = SQL.TRIM (winner_name NEW)
  /\ winner_contact (trim_text_fields NEW) = SQL.TRIM (winner_contact NEW)
  /\ prize_category (trim_text_fields NEW) = SQL.TRIM (prize_category NEW)
  /\ winner_address (trim_text_fields NEW) = SQL.TRIM (winner_address NEW)
  /\ notes (trim_text_fields NEW) = SQL.TRIM (notes NEW)
  /\ same_fixed_columns NEW (trim_text_fields NEW)
  /\ updated_at (trim_text_fields NEW) = updated_at NEW.
Proof.
  unfold trim_text_fields, same_fixed_columns. cbn.
  rewrite !trim_if_present_TRIM. repeat split; reflexivity.
Qed.

(** The insert trigger, by cases on the three required columns. *)
Lemma validate_winner_data_on_insert_cases (NEW : lottery_winner) :
  (required_missing NEW
   /\ exists c, validate_winner_data_on_insert NEW = inl (MissingRequiredField c None))
  \/ (~ required_missing NEW
      /\ validate_winner_data_on_insert NEW = inr (trim_text_fields NEW)).
Proof.
  unfold validate_winner_data_on_insert, required_missing, IF_THEN_RAISE, seq,
    RAISE_EXCEPTION, RETURN.
  destruct (SQL.is_true (null_or_empty (winner_name NEW))) eqn:H1.
  { left. apply null_or_empty_missing in H1. split; [tauto | eexists; reflexivity]. }
  destruct (SQL.is_true (null_or_empty (winner_contact NEW))) eqn:H2.
  { left. apply null_or_empty_missing in H2. split; [tauto | eexists; reflexivity]. }
  destruct (SQL.is_true (null_or_empty (prize_category NEW))) eqn:H3.
  { left. apply null_or_empty_missing in H3. split; [tauto | eexists; reflexivity]. }
  right. apply null_or_empty_present in H1, H2, H3. split; [tauto | reflexivity].
Qed.

(** A name of spaces only is refused on insert. *)
Example blank_name_refused :
  validate_winner_data_on_insert
    (set_winner_name (Some "  ") (Samples.john_values (defaults "w-105" 1000)))
  = inl (MissingRequiredField col_winner_name None).
Proof. reflexivity. Qed.

(** ** The update trigger *)

Lemma NEQ_true (x y : option Z) :
  SQL.is_true (SQL.NEQ x y) = true <-> exists a b, x = Some a /\ y = Some b /\ a <> b.
Proof.
  destruct x as [a |], y as [b |]; cbn; split;
    try discriminate; try (intros (? & ? & ? & ? & ?); discriminate).
  - intros H. exists a, b. repeat split. intros ->. rewrite Z.eqb_refl in H. discriminate.
  - intros (a' & b' & Ha & Hb & Hne). injection Ha as <-. injection Hb as <-.
    destruct (Z.eqb_spec a b); [contradiction | reflexivity].
Qed.

(** The update trigger, by cases: the three emptiness tests come first,
    the test of [lottery_number] after them. *)
Lemma prevent_winner_data_loss_cases (OLD NEW : lottery_winner) :
  (required_missing NEW
   /\ exists c e, prevent_winner_data_loss OLD NEW = inl (MissingRequiredField c (Some e)))
  \/ (~ required_missing NEW
      /\ SQL.is_true (SQL.NEQ (lottery_number NEW) (lottery_number OLD)) = true
      /\ prevent_winner_data_loss OLD NEW
         = inl (ImmutableFieldViolation (lottery_number OLD) (lottery_number NEW)))
  \/ (~ required_missing NEW
      /\ SQL.is_true (SQL.NEQ (lottery_number NEW) (lottery_number OLD)) = false
      /\ prevent_winner_data_loss OLD NEW = inr (trim_text_fields NEW)).
Proof.
  unfold prevent_winner_data_loss, required_missing, IF_THEN_RAISE, seq,
    RAISE_EXCEPTION, RETURN.
  destruct (SQL.is_true (null_or_empty (winner_name NEW))) eqn:H1.
  { left. apply null_or_empty_missing in H1. split; [tauto | do 2 eexists; reflexivity]. }
  destruct (SQL.is_true (null_or_empty (winner_contact NEW))) eqn:H2.
  { left. apply null_or_empty_missing in H2. split; [tauto | do 2 eexists; reflexivity]. }
  destruct (SQL.is_true (null_or_empty (prize_category NEW))) eqn:H3.
  { left. apply null_or_empty_missing in H3. split; [tauto | do 2 eexists; reflexivity]. }
  apply null_or_empty_present in H1, H2, H3. right.
  destruct (SQL.is_true (SQL.NEQ (lottery_number NEW) (lottery_number OLD))) eqn:H4.
  - left. split; [tauto | split; reflexivity].
  - right. split; [tauto | split; reflexivity].
Qed.

(** ** Rows through a statement *)

Lemma varchar_ok (n : nat) (x y : option string) :
  varchar n x = inr y -> present y = present x.
Proof.
  unfold varchar. destruct x as [s |]; [| intros [= <-]; reflexivity].
  destruct (String.length s <=? n)%nat; [intros [= <-]; reflexivity |].
  destruct (Text.all_of _ _); [intros [= <-]; reflexivity | discriminate].
Qed.

Lemma coerce_ok (NEW r : lottery_winner) :
  coerce NEW = inr r ->
  same_fixed_columns NEW r /\ updated_at r = updated_at NEW.
Proof.
  unfold coerce, bind.
  destruct (varchar 255 (prize_category NEW)); [discriminate |].
  destruct (varchar 255 (winner_name NEW)); [discriminate |].
  destruct (varchar 20 (winner_contact NEW)); [discriminate |].
  intros [= <-]. unfold same_fixed_columns. cbn. repeat split; reflexivity.
Qed.

Lemma constraints_ok (r : lottery_winner) :
  constraints r = inr tt -> present (lottery_number r) = true.
Proof.
  unfold constraints, bind, require.
  destruct (present (id r)); [| discriminate].
  destruct (present (lottery_number r)); [reflexivity | discriminate].
Qed.

Lemma same_fixed_columns_refl (r : lottery_winner) : same_fixed_columns r r.
Proof. unfold same_fixed_columns. repeat split; reflexivity. Qed.

Lemma same_fixed_columns_trans (r1 r2 r3 : lottery_winner) :
  same_fixed_columns r1 r2 -> same_fixed_columns r2 r3 -> same_fixed_columns r1 r3.
Proof.
  unfold same_fixed_columns.
  intros (A1 & A2 & A3 & A4 & A5 & A6 & A7 & A8) (B1 & B2 & B3 & B4 & B5 & B6 & B7 & B8).
  repeat split; congruence.
Qed.

Lemma insert_row_ok (tbl : table) (NEW r : lottery_winner) :
  insert_row tbl NEW = inr r -> same_fixed_columns NEW r.
Proof.
  unfold insert_row, bind.
  destruct (coerce NEW) as [| N1] eqn:Hc; [discriminate |].
  apply coerce_ok in Hc as (Hf1 & _).
  destruct (validate_winner_data_on_insert_cases N1) as [(_ & c & ->) | (_ & ->)];
    cbn; [discriminate |].
  destruct (constraints _) as [| []]; [discriminate |].
  destruct (keys_free _ _) as [| []]; [discriminate |].
  intros [= <-].
  eapply same_fixed_columns_trans; [exact Hf1 |].
  apply (trim_text_fields_columns N1).
Qed.

Lemma INSERT_cases (new_id : uuid) (now : timestamp)
    (values : lottery_winner -> lottery_winner) (tbl : table) :
  (exists e, INSERT new_id now values tbl = (inl e, tbl))
  \/ (exists r, INSERT new_id now values tbl = (inr r, (tbl ++ [r])%list)
                /\ insert_row tbl (values (defaults new_id now)) = inr r).
Proof.
  unfold INSERT. destruct (insert_row tbl (values (defaults new_id now))) as [e | r];
    [left | right]; eauto.
Qed.

Lemma TRIM_clean (x : option string) : clean (SQL.TRIM x).
Proof.
  destruct x as [s |]; [| exact I].
  destruct (trim_text_stripped s) as (_ & Hs & He). split; assumption.
Qed.

(** The text columns of a row that gets through an insert carry no
    space at either end. *)
Lemma insert_row_clean (tbl : table) (NEW r : lottery_winner) :
  insert_row tbl NEW = inr r ->
  clean (winner_name r) /\ clean (winner_contact r) /\ clean (prize_category r)
  /\ clean (winner_address r) /\ clean (notes r).
Proof.
  unfold insert_row, bind.
  destruct (coerce NEW) as [| N1]; [discriminate |].
  destruct (validate_winner_data_on_insert_cases N1) as [(_ & c & ->) | (_ & ->)];
    cbn; [discriminate |].
  destruct (constraints _) as [| []]; [discriminate |].
  destruct (keys_free _ _) as [| []]; [discriminate |].
  intros [= <-].
  destruct (trim_text_fields_columns N1) as (-> & -> & -> & -> & -> & _).
  repeat split; apply TRIM_clean.
Qed.

(** The BEFORE INSERT trigger as it is, with the space character where
    the specification says white space.  It rejects a row with
    [MissingRequiredField] if and only if one of [winner_name],
    [winner_contact], [prize_category] is NULL or empty after trimming,
    that is, made of spaces only.
    Otherwise it returns the row for persistence with these three
    columns, and [winner_address] and [notes] when present, trimmed of
    leading and trailing spaces, and with every other column as given;
    the row that an insert persists has no space at either end of these
    five columns.  A name written with two spaces on each side of
    "John Doe" is stored as "John Doe". *)
Theorem validate_on_insert_rejects_or_trims :
  (forall NEW : lottery_winner,
     (exists c e, validate_winner_data_on_insert NEW = inl (MissingRequiredField c e))
     <-> required_missing NEW)
  /\ (forall NEW : lottery_winner,
        ~ required_missing NEW ->
        exists r,
          validate_winner_data_on_insert NEW = inr r
          /\ trimmed (winner_name NEW) (winner_name r)
          /\ trimmed (winner_contact NEW) (winner_contact r)
          /\ trimmed (prize_category NEW) (prize_category r)
          /\ trimmed (winner_address NEW) (winner_address r)
          /\ trimmed (notes NEW) (notes r)
          /\ same_fixed_columns NEW r
          /\ updated_at r = updated_at NEW)
  /\ (forall s : string, missing (Some s) <-> Text.all_of SQL.is_space s = true)
  /\ (forall new_id now values (tbl tbl' : table) (r : lottery_winner),
        INSERT new_id now values tbl = (inr r, tbl') ->
        tbl' = (tbl ++ [r])%list
        /\ clean (winner_name r) /\ clean (winner_contact r) /\ clean (prize_category r)
        /\ clean (winner_address r) /\ clean (notes r))
  /\ INSERT "w-105" 1000 Samples.john_values [] = (inr Samples.john, [Samples.john]).
Proof.
  split; [| split; [| split; [exact missing_spaces_only | split]]].
  - intros NEW. destruct (validate_winner_data_on_insert_cases NEW)
      as [(Hm & c & ->) | (Hp & ->)].
    + split; [intros _; exact Hm | intros _; eauto].
    + split; [intros (c & e & H); discriminate | contradiction].
  - intros NEW Hp. destruct (validate_winner_data_on_insert_cases NEW)
      as [(Hm & _) | (_ & ->)]; [contradiction |].
    exists (trim_text_fields NEW).
    destruct (trim_text_fields_columns NEW) as (-> & -> & -> & -> & -> & Hf & Hu).
    repeat (split; [first [reflexivity | apply TRIM_trimmed | exact Hf] |]).
    exact Hu.
  - intros new_id now values tbl tbl' r H.
    destruct (INSERT_cases new_id now values tbl) as [(e & He) | (r' & He & Hr)];
      rewrite He in H; [discriminate |].
    injection H as E1 E2. subst. split; [reflexivity |].
    eapply insert_row_clean. eassumption.
  - reflexivity.
Qed.

Lemma validate_on_insert_rejects_or_trims_witness :
  exists r,
    validate_winner_data_on_insert (Samples.john_values (defaults "w-105" 1000)) = inr r
    /\ winner_name r = Some "John Doe".
Proof.
  destruct (proj1 (proj2 validate_on_insert_rejects_or_trims)
              (Samples.john_values (defaults "w-105" 1000)))
    as (r & Hr & _).
  - intros [H | [H | H]]; apply null_or_empty_missing in H; vm_compute in H; discriminate.
  - exists r. split; [exact Hr |].
    vm_compute in Hr. injection Hr as <-. reflexivity.
Defined.

(** C2.  The claim speaks of white space, as do the comment of the
    trigger ("Trim whitespace from text fields") and the notes of the
    repository (a name "cannot be NULL, empty, or whitespace-only");
    [TRIM] removes the space character only.  A name that is a single TAB
    is white space for the page, whose own guard takes it for blank, but
    not for the trigger: [TRIM] leaves it as it is, the trigger returns
    the row unchanged instead of rejecting it, and the insert stores the
    name. *)
Theorem tab_only_name_is_stored :
  let tab := String "009"%char "" in
  let values := fun d => set_winner_name (Some tab) (Samples.john_values d) in
  let NEW := values (defaults "w-105" 1000) in
  JS.is_white_space "009"%char = true
  /\ JS.trim tab = ""
  /\ SearchPage.missing_or_blank (Some tab) = true
  /\ SQL.TRIM (Some tab) = Some tab
  /\ ~ required_missing NEW
  /\ validate_winner_data_on_insert NEW = inr NEW
  /\ exists r, INSERT "w-105" 1000 values [] = (inr r, [r])
               /\ winner_name r = Some tab.
Proof.
  intros tab values NEW.
  split; [reflexivity | split; [reflexivity | split; [reflexivity | split; [reflexivity |]]]].
  split; [| split; [reflexivity |]].
  - intros [H | [H | H]]; apply null_or_empty_missing in H; vm_compute in H; discriminate.
  - eexists. split; [vm_compute; reflexivity | reflexivity].
Qed.

(** A row that gets through an update: its fixed columns are those of
    [NEW], its number is the stored one unless the stored one is NULL,
    and [updated_at] is the time of the statement. *)
Lemma update_row_ok (now : timestamp) (OLD NEW r : lottery_winner) :
  update_row now OLD NEW = inr r ->
  same_fixed_columns NEW r
  /\ updated_at r = Some now
  /\ SQL.is_true (SQL.NEQ (lottery_number r) (lottery_number OLD)) = false
  /\ present (lottery_number r) = true.
Proof.
  unfold update_row, bind.
  destruct (coerce NEW) as [| N1] eqn:Hc; [discriminate |].
  apply coerce_ok in Hc as (Hf1 & _).
  destruct (prevent_winner_data_loss_cases OLD N1)
    as [(_ & c & e & ->) | [(_ & _ & ->) | (_ & Hneq & ->)]]; cbn; try discriminate.
  destruct (constraints _) as [| []] eqn:Hk; [discriminate |].
  intros [= <-]. apply constraints_ok in Hk.
  destruct (trim_text_fields_columns N1) as (_ & _ & _ & _ & _ & Hf2 & _).
  split; [| split; [reflexivity | split]].
  - eapply same_fixed_columns_trans; [exact Hf1 |].
    eapply same_fixed_columns_trans; [exact Hf2 |].
    unfold same_fixed_columns. cbn. repeat split; reflexivity.
  - exact Hneq.
  - exact Hk.
Qed.

(** Row by row, what a successful [update_rows] did. *)
Lemma update_rows_ok (now : timestamp) (set : lottery_winner -> lottery_winner)
    (where_ : lottery_winner -> bool) (tbl tbl' : table) :
  update_rows now set where_ tbl = inr tbl' ->
  Forall2 (fun OLD r =>
             (where_ OLD = false /\ r = OLD)
             \/ (where_ OLD = true /\ update_row now OLD (set OLD) = inr r))
          tbl tbl'.
Proof.
  revert tbl'. induction tbl as [| OLD rest IH]; intros tbl'; cbn [update_rows].
  - intros [= <-]. constructor.
  - unfold bind at 1.
    destruct (where_ OLD) eqn:Hw.
    + destruct (update_row now OLD (set OLD)) as [| r] eqn:Hr; [discriminate |].
      unfold bind at 1.
      destruct (update_rows now set where_ rest) as [| rest'] eqn:Hrest; [discriminate |].
      intros [= <-]. constructor; [right; split; [exact Hw | exact Hr] | apply IH; reflexivity].
    + unfold bind at 1.
      destruct (update_rows now set where_ rest) as [| rest'] eqn:Hrest; [discriminate |].
      intros [= <-]. constructor; [left; split; [exact Hw | reflexivity] | apply IH; reflexivity].
Qed.

(** An [UPDATE] either fails and leaves the table, or writes the rows of
    a successful [update_rows]. *)
Lemma UPDATE_cases (now : timestamp) (set : lottery_winner -> lottery_winner)
    (where_ : lottery_winner -> bool) (tbl : table) :
  (exists e, UPDATE now set where_ tbl = (inl e, tbl))
  \/ (exists tbl', UPDATE now set where_ tbl = (inr tt, tbl')
                   /\ update_rows now set where_ tbl = inr tbl').
Proof.
  unfold UPDATE, bind.
  destruct (update_rows now set where_ tbl) as [e | tbl']; [left; eauto |].
  destruct (keys_distinct tbl') as [e | []]; [left; eauto | right; eauto].
Qed.

Lemma update_row_changed_number_fails (now : timestamp) (OLD NEW : lottery_winner) (a : Z) :
  lottery_number OLD = Some a -> lottery_number NEW <> Some a ->
  exists e, update_row now OLD NEW = inl e.
Proof.
  intros Hold Hnew. destruct (update_row now OLD NEW) as [e | r] eqn:Hr; [eauto |].
  exfalso. apply update_row_ok in Hr as ((_ & Hn & _) & _ & Hneq & Hp).
  apply Hnew. rewrite <- Hn. rewrite Hold in Hneq.
  destruct (lottery_number r) as [b |]; [| discriminate].
  cbn in Hneq. destruct (Z.eqb_spec b a); [congruence | discriminate].
Qed.

Lemma update_rows_fails (now : timestamp) (set : lottery_winner -> lottery_winner)
    (where_ : lottery_winner -> bool) (tbl : table) (OLD : lottery_winner) :
  List.In OLD tbl -> where_ OLD = true ->
  (exists e, update_row now OLD (set OLD) = inl e) ->
  exists e, update_rows now set where_ tbl = inl e.
Proof.
  intros Hin Hw (e & He).
  destruct (update_rows now set where_ tbl) as [e' | tbl'] eqn:Hr; [eauto |].
  exfalso. apply update_rows_ok in Hr.
  induction Hr as [| x r xs rs Hx _ IH]; [contradiction |].
  destruct Hin as [-> | Hin]; [| exact (IH Hin)].
  destruct Hx as [(Hf & _) | (_ & Hok)]; congruence.
Qed.

(** C3, as the code has it.  The BEFORE UPDATE trigger rejects every
    update that gives a stored row another [lottery_number]: with
    [ImmutableFieldViolation], carrying the original and the attempted
    number, when the three required columns of the new row are not
    empty, and with [MissingRequiredField], which is tested first, when
    one of them is.  A statement that changes the number of a row it
    selects, by another number or by NULL, fails as a whole and leaves
    the table as it was; an attempted change from 105 to 106 is rejected
    with both numbers and the stored number remains 105. *)
Theorem lottery_number_change_rejected :
  (forall (OLD NEW : lottery_winner) (a b : Z),
     lottery_number OLD = Some a -> lottery_number NEW = Some b -> a <> b ->
     (~ required_missing NEW ->
      prevent_winner_data_loss OLD NEW = inl (ImmutableFieldViolation (Some a) (Some b)))
     /\ (required_missing NEW ->
         exists c e, prevent_winner_data_loss OLD NEW = inl (MissingRequiredField c e)))
  /\ (forall now set where_ (tbl : table) (OLD : lottery_winner) (a : Z),
        List.In OLD tbl -> where_ OLD = true ->
        lottery_number OLD = Some a -> lottery_number (set OLD) <> Some a ->
        exists e, UPDATE now set where_ tbl = (inl e, tbl))
  /\ UPDATE 2000 (set_lottery_number (Some 106)) (WinnersPage.eq_id "w-105") [Samples.john]
     = (inl (raised (ImmutableFieldViolation (Some 105) (Some 106))), [Samples.john])
  /\ List.map lottery_number [Samples.john] = [Some 105].
Proof.
  split; [| split; [| split; reflexivity]].
  - intros OLD NEW a b Hold Hnew Hab.
    assert (Hneq : SQL.is_true (SQL.NEQ (lottery_number NEW) (lottery_number OLD)) = true).
    { apply NEQ_true. exists b, a. repeat split; [assumption .. | congruence]. }
    destruct (prevent_winner_data_loss_cases OLD NEW)
      as [(Hm & c & e & ->) | [(Hp & _ & ->) | (_ & Hno & _)]].
    + split; [contradiction | eauto].
    + rewrite Hold, Hnew. split; [reflexivity | contradiction].
    + congruence.
  - intros now set where_ tbl OLD a Hin Hw Hold Hset.
    destruct (UPDATE_cases now set where_ tbl) as [He | (tbl' & _ & Hrows)]; [exact He |].
    destruct (update_rows_fails now set where_ tbl OLD Hin Hw) as (e & He).
    + exact (update_row_changed_number_fails now OLD (set OLD) a Hold Hset).
    + congruence.
Qed.

Lemma lottery_number_change_rejected_witness :
  prevent_winner_data_loss Samples.john (set_lottery_number (Some 106) Samples.john)
  = inl (ImmutableFieldViolation (Some 105) (Some 106)).
Proof.
  apply (proj1 (proj1 lottery_number_change_rejected
                  Samples.john (set_lottery_number (Some 106) Samples.john) 105 106
                  eq_refl eq_refl ltac:(lia))).
  intros [H | [H | H]]; apply null_or_empty_missing in H; vm_compute in H; discriminate.
Defined.

(** C3 as it is worded does not hold: an update that changes the number
    from 105 to 106 and also blanks the name is rejected with
    [MissingRequiredField], not with [ImmutableFieldViolation]. *)
Lemma lottery_number_change_other_error :
  lottery_number Samples.john = Some 105
  /\ lottery_number Samples.blank_name_106 = Some 106
  /\ prevent_winner_data_loss Samples.john Samples.blank_name_106
     = inl (MissingRequiredField col_winner_name (Some (Some "John Doe")))
  /\ ~ (forall OLD NEW : lottery_winner,
          lottery_number NEW <> lottery_number OLD ->
          exists original attempted,
            prevent_winner_data_loss OLD NEW
            = inl (ImmutableFieldViolation original attempted)).
Proof.
  split; [reflexivity | split; [reflexivity | split; [reflexivity |]]].
  intros H.
  destruct (H Samples.john Samples.blank_name_106) as (o & a & E).
  - discriminate.
  - vm_compute in E. discriminate.
Qed.

End GuardFacts.

(* ===================================================================== *)
(** * Editing a winner *)
(* ===================================================================== *)

Section EditFacts.
Import Store Database Supabase.

Lemma keeps_fixed_assign {A} (p : property A)
    (set : option A -> lottery_winner -> lottery_winner) :
  (forall v, keeps_fixed (set v)) -> keeps_fixed (assign p set).
Proof.
  intros H. destruct p; cbn [assign]; [intros r; apply same_fixed_columns_refl | apply H ..].
Qed.

Lemma keeps_fixed_setters :
  (forall v, keeps_fixed (set_prize_category v))
  /\ (forall v, keeps_fixed (set_winner_name v))
  /\ (forall v, keeps_fixed (set_winner_contact v))
  /\ (forall v, keeps_fixed (set_winner_address v))
  /\ (forall v, keeps_fixed (set_notes v)).
Proof.
  unfold keeps_fixed, same_fixed_columns. repeat split; reflexivity.
Qed.

(** The body of the update of [handleSaveEdit] lists none of the fixed
    columns. *)
Lemma update_body_keeps_fixed (updatedData : WinnersPage.LotteryWinner) :
  keeps_fixed (WinnersPage.update_body updatedData).
Proof.
  destruct keeps_fixed_setters as (Hc & Hn & Ht & Ha & Ho).
  intros r. unfold WinnersPage.update_body.
  repeat (eapply same_fixed_columns_trans; [| apply keeps_fixed_assign; assumption]).
  apply same_fixed_columns_refl.
Qed.

Lemma UPDATE_edit_of (now : timestamp) (updatedData : WinnersPage.LotteryWinner)
    (edited : string) (tbl tbl' : table) :
  update_rows now (WinnersPage.update_body updatedData) (WinnersPage.eq_id edited) tbl
  = inr tbl' ->
  Forall2 (WinnersPage.edit_of now edited) tbl tbl'.
Proof.
  intros H. apply update_rows_ok in H.
  induction H as [| OLD r rest rest' Hrow _ IH]; constructor; [| exact IH].
  unfold WinnersPage.edit_of.
  destruct Hrow as [(-> & ->) | (-> & Hr)]; [reflexivity |].
  apply update_row_ok in Hr as (Hf & Hu & _). split; [| exact Hu].
  eapply same_fixed_columns_trans; [apply update_body_keeps_fixed | exact Hf].
Qed.

(** C7, as the code has it.  A successful save of the edit form writes
    the five listed columns of the edited row and, through the trigger
    [update_lottery_winners_updated_at], its [updated_at], which becomes
    the time of the statement.  Every other column of that row, among
    them [lottery_number], [id], [ticket_sale_id], [prize_quantity],
    [diary_number] and [registered_at], keeps its value, and every other
    row is left as it is. *)
Theorem successful_edit_frame (now : timestamp) (fault : option string)
    (updatedData editing : WinnersPage.LotteryWinner)
    (st st' : WinnersPage.page) (tbl tbl' : table) :
  WinnersPage.editingWinner st = Some editing ->
  WinnersPage.handleSaveEdit now fault updatedData st tbl = (st', tbl') ->
  WinnersPage.saved st st' ->
  Forall2 (WinnersPage.edit_of now (WinnersPage.id editing)) tbl tbl'.
Proof.
  intros Hed Hrun Hsaved. unfold WinnersPage.handleSaveEdit in Hrun. rewrite Hed in Hrun.
  unfold WinnersPage.saved in Hsaved. unfold request in Hrun.
  destruct fault as [m |].
  - injection Hrun as <- _. cbn in Hsaved.
    apply app_inj_tail in Hsaved as [_ Hsaved]. discriminate.
  - destruct (UPDATE_cases now (WinnersPage.update_body updatedData)
                (WinnersPage.eq_id (WinnersPage.id editing)) tbl)
      as [(e & He) | (t & He & Hrows)]; rewrite He in Hrun.
    + injection Hrun as <- _. cbn in Hsaved.
      apply app_inj_tail in Hsaved as [_ Hsaved]. discriminate.
    + injection Hrun as _ <-. exact (UPDATE_edit_of now updatedData _ tbl t Hrows).
Qed.

Lemma successful_edit_frame_witness :
  Forall2 (WinnersPage.edit_of 2000 "w-105")
    [Samples.john] [set_updated_at (Some 2000) Samples.john].
Proof.
  apply (successful_edit_frame 2000 None Samples.john_form Samples.john_form
           Samples.john_page
           {| WinnersPage.editingWinner := None;
              WinnersPage.showEditForm := false;
              WinnersPage.toasts :=
                [WinnersPage.toast_success "Winner entry updated successfully"] |});
    reflexivity.
Defined.

(** C7 as it is worded does not hold for [updated_at]: saving the form
    of a stored row at time 2000, with no field changed, succeeds and
    moves [updated_at] of that row from 1000 to 2000. *)
Lemma successful_edit_moves_updated_at :
  WinnersPage.handleSaveEdit 2000 None Samples.john_form Samples.john_page [Samples.john]
  = ({| WinnersPage.editingWinner := None;
        WinnersPage.showEditForm := false;
        WinnersPage.toasts :=
          [WinnersPage.toast_success "Winner entry updated successfully"] |},
     [set_updated_at (Some 2000) Samples.john])
  /\ updated_at Samples.john = Some 1000
  /\ updated_at (set_updated_at (Some 2000) Samples.john) <> updated_at Samples.john.
Proof. split; [reflexivity | split; [reflexivity | discriminate]]. Qed.

End EditFacts.

(* ===================================================================== *)
(** * Registering a winner *)
(* ===================================================================== *)

Section RegisterFacts.
Import Database Supabase SearchPage.

(** The setters of the page leave the table alone. *)
Lemma lottery_winners_say (t : toast) (w : world) :
  lottery_winners (say t w) = lottery_winners w.
Proof. reflexivity. Qed.

(** The answer of the count, whatever the transport does. *)
Lemma getRemainingQuantity_exhausted (fault : option string) (prizeName : string)
    (tbl : table) :
  getPrizeQuantity prizeName <= Z.of_nat (List.length (select_by_category prizeName tbl)) ->
  getRemainingQuantity fault prizeName tbl <= 0.
Proof.
  intros H. unfold getRemainingQuantity, request.
  destruct fault; cbn; lia.
Qed.

(** C8.  When a prize category is selected for the ticket, the ticket is
    not in the page's cache of winners, and the table read by the count
    holds at least as many winners of that category as its quantity,
    [registerWinner] shows the error that no prize of the category
    remains and does nothing else: it sends no insert and the table is
    unchanged.  The store itself has no such ceiling: a direct insert of
    a second winner of the single THAR CAR succeeds. *)
Theorem exhausted_category_rejected (env : environment) (ticket : TicketSale)
    (w : world) (category : string) :
  selectedPrize w !! id ticket = Some category ->
  category <> "" ->
  checkIfAlreadyWon w (lottery_number ticket) = false ->
  getPrizeQuantity category
    <= Z.of_nat (List.length (select_by_category category (lottery_winners w))) ->
  registerWinner env ticket w
    = say (toast_error ("No " ++ category ++ " prizes remaining!")) w
  /\ lottery_winners (registerWinner env ticket w) = lottery_winners w
  /\ (getPrizeQuantity "THAR CAR"
        <= Z.of_nat (List.length (select_by_category "THAR CAR" [Samples.thar_winner]))
      /\ exists r,
           INSERT "w-8" 2000 Samples.second_thar_values [Samples.thar_winner]
           = (inr r, [Samples.thar_winner; r])
           /\ Store.prize_category r = Some "THAR CAR").
Proof.
  intros Hsel Hne Hwon Hfull.
  assert (Hrun : registerWinner env ticket w
                 = say (toast_error ("No " ++ category ++ " prizes remaining!")) w).
  { unfold registerWinner. rewrite Hsel.
    change (default "" (Some category)) with category. cbn [falsy].
    destruct (String.eqb_spec category ""); [contradiction |].
    rewrite Hwon.
    pose proof (getRemainingQuantity_exhausted (count_fault env) category
                  (lottery_winners w) Hfull) as Hrem.
    destruct (Z.leb_spec (getRemainingQuantity (count_fault env) category
                            (lottery_winners w)) 0); [reflexivity | lia]. }
  split; [exact Hrun | split].
  - rewrite Hrun. apply lottery_winners_say.
  - split; [vm_compute; discriminate |].
    eexists. split; vm_compute; reflexivity.
Qed.

Lemma exhausted_category_rejected_witness :
  lottery_winners (registerWinner Samples.calm (Samples.ticket 8)
                     (Samples.search_page "THAR CAR" [Samples.thar_winner]))
  = [Samples.thar_winner].
Proof.
  apply (exhausted_category_rejected Samples.calm (Samples.ticket 8)
           (Samples.search_page "THAR CAR" [Samples.thar_winner]) "THAR CAR").
  - vm_compute. reflexivity.
  - discriminate.
  - vm_compute. reflexivity.
  - vm_compute. discriminate.
Defined.

(** ** The row that a registration creates *)

(** The table after the [try] block is the table after the insert. *)
Lemma lottery_winners_insert_winner (env : environment) (ticket : TicketSale)
    (category name contact : string) (w : world) :
  lottery_winners (insert_winner env ticket category name contact w)
  = snd (request (insert_fault env)
           (INSERT (new_id env) (now env) (insert_body ticket category name contact))
           (lottery_winners w)).
Proof.
  unfold insert_winner. cbn [lottery_winners setRegisteringWinner].
  destruct (request _ _ _) as [[error | row] tbl]; cbn [snd].
  - destruct (String.eqb _ _); [destruct (refresh_fault env) |]; reflexivity.
  - reflexivity.
Qed.

(** The number and the diary that the body of the insert gives. *)
Lemma insert_body_columns (ticket : TicketSale) (category name contact : string)
    (d : Store.lottery_winner) :
  Store.lottery_number (insert_body ticket category name contact d)
  = Some (lottery_number ticket)
  /\ Store.diary_number (insert_body ticket category name contact d)
     = match diary ticket with
       | Some _ => Some (Numbering.getDiaryFromLotteryNumber (lottery_number ticket))
       | None => Store.diary_number d
       end.
Proof.
  unfold insert_body.
  destruct (diary ticket), (trimmed_or_null (purchaser_address ticket));
    split; reflexivity.
Qed.

(** [registerWinner] leaves the table as it is or adds one row to it. *)
Lemma registerWinner_table (env : environment) (ticket : TicketSale) (w : world) :
  lottery_winners (registerWinner env ticket w) = lottery_winners w
  \/ exists category name contact r,
       lottery_winners (registerWinner env ticket w) = (lottery_winners w ++ [r])%list
       /\ insert_row (lottery_winners w)
            (insert_body ticket category name contact (defaults (new_id env) (now env)))
          = inr r.
Proof.
  unfold registerWinner.
  destruct (falsy _); [left; reflexivity |].
  destruct (checkIfAlreadyWon _ _); [left; reflexivity |].
  destruct (_ <=? 0); [left; reflexivity |].
  destruct (missing_or_blank (purchaser_name ticket)); [left; reflexivity |].
  destruct (missing_or_blank (purchaser_contact ticket)); [left; reflexivity |].
  rewrite lottery_winners_insert_winner. unfold request.
  destruct (insert_fault env); [left; reflexivity |].
  match goal with
  | |- context [INSERT ?i ?n ?v ?t] =>
      destruct (INSERT_cases i n v t) as [(e & ->) | (r & -> & Hr)]
  end; [left; reflexivity |].
  right. do 4 eexists. split; [reflexivity | exact Hr].
Qed.

(** C10.  A winner row created by [registerWinner] has the number of the
    ticket, and its [diary_number] is NULL or [getDiaryFromLotteryNumber]
    of that number; consequently, when it is set, the number lies in the
    range of that diary.  The number of a ticket sold is a ticket number,
    from 1 to 39999 (the sale form takes five digits and checks the
    number against the range of its diary); of this the last step uses
    that it is at most 39999. *)
Theorem registered_row_diary (env : environment) (ticket : TicketSale) (w : world) :
  lottery_winners (registerWinner env ticket w) = lottery_winners w
  \/ exists r,
       lottery_winners (registerWinner env ticket w) = (lottery_winners w ++ [r])%list
       /\ Store.lottery_number r = Some (lottery_number ticket)
       /\ (Store.diary_number r = None
           \/ Store.diary_number r
              = Some (Numbering.getDiaryFromLotteryNumber (lottery_number ticket)))
       /\ (forall d, Store.diary_number r = Some d ->
                     lottery_number ticket <= 39999 ->
                     Numbering.contains (Numbering.getTicketRangeForDiary d)
                       (lottery_number ticket)).
Proof.
  destruct (registerWinner_table env ticket w)
    as [H | (category & name & contact & r & Htbl & Hr)]; [left; exact H | right].
  exists r. apply insert_row_ok in Hr as (_ & Hn & _ & _ & Hd & _).
  destruct (insert_body_columns ticket category name contact
              (defaults (new_id env) (now env))) as (Hbn & Hbd).
  rewrite Hbn in Hn. rewrite Hbd in Hd.
  assert (Hdiary : Store.diary_number r = None
                   \/ Store.diary_number r
                      = Some (Numbering.getDiaryFromLotteryNumber (lottery_number ticket))).
  { destruct (diary ticket); [right | left]; exact Hd. }
  split; [exact Htbl | split; [exact Hn | split; [exact Hdiary |]]].
  intros d Hset Hle. destruct Hdiary as [Hnone | Hsome]; [congruence |].
  rewrite Hsome in Hset. injection Hset as <-.
  apply diary_holds_ticket. exact Hle.
Qed.

Lemma registered_row_diary_witness :
  exists r,
    lottery_winners (registerWinner Samples.calm (Samples.ticket 23)
                       (Samples.search_page "Laptop" []))
    = [r]
    /\ Store.diary_number r = Some 2
    /\ Numbering.contains (Numbering.getTicketRangeForDiary 2) 23.
Proof.
  destruct (registered_row_diary Samples.calm (Samples.ticket 23)
              (Samples.search_page "Laptop" []))
    as [H | (r & Htbl & _ & _ & Hin)].
  - vm_compute in H. discriminate.
  - exists r. split; [exact Htbl |].
    vm_compute in Htbl. injection Htbl as <-.
    split; [reflexivity | apply Hin; [reflexivity | vm_compute; discriminate]].
Defined.


End RegisterFacts.

(* ===================================================================== *)
(** * More on the numbering scheme *)
(* ===================================================================== *)

Section NumberingMore.
Import Numbering.

(** X1.  For a ticket number in [1, 39999] and any integer [d],
    [validateLotteryNumberForDiary n d] holds exactly when [d] is
    [getDiaryFromLotteryNumber n]: the check of the sale form accepts the
    computed diary and no other. *)
Theorem validate_only_own_diary (n d : Z) :
  1 <= n <= 39999 ->
  (validateLotteryNumberForDiary n d = true <-> d = getDiaryFromLotteryNumber n).
Proof.
  intros Hn. split.
  - intros H. apply validate_iff_contains in H. unfold contains in H.
    destruct (range_cases d) as [(E & S1 & F1) | (E & S1 & F1)],
             (diary_cases n) as [[Hlow B] | [Hhigh ->]]; lia.
  - intros ->. apply validate_iff_contains, diary_holds_ticket. lia.
Qed.

Lemma validate_only_own_diary_witness :
  validateLotteryNumberForDiary 23 2 = true <-> 2 = getDiaryFromLotteryNumber 23.
Proof. apply (validate_only_own_diary 23 2). lia. Defined.

(** X2.  Outside the ticket numbers as well, on every integer up to
    10^15 in absolute value (where each number the source computes is an
    integer below 2^53, so exact as a double): the diary computed is never
    above 1819, it is at least 1 for a positive number and at most 0
    otherwise, and the number passes [validateLotteryNumberForDiary]
    against its own diary exactly when it is at most 39999. *)
Theorem diary_of_any_integer (n : Z) :
  - 10 ^ 15 <= n <= 10 ^ 15 ->
  getDiaryFromLotteryNumber n <= 1819
  /\ (1 <= n -> 1 <= getDiaryFromLotteryNumber n)
  /\ (n <= 0 -> getDiaryFromLotteryNumber n <= 0)
  /\ - 2 ^ 53 < start (getTicketRangeForDiary (getDiaryFromLotteryNumber n))
  /\ end_ (getTicketRangeForDiary (getDiaryFromLotteryNumber n)) < 2 ^ 53
  /\ (validateLotteryNumberForDiary n (getDiaryFromLotteryNumber n) = true
      <-> n <= 39999).
Proof.
  change (10 ^ 15) with 1000000000000000. change (2 ^ 53) with 9007199254740992.
  intros Hsafe.
  split; [| split; [| split; [| split; [| split]]]].
  - destruct (diary_cases n) as [[H B] | [H ->]]; lia.
  - intros Hn. destruct (diary_cases n) as [[H B] | [H ->]]; lia.
  - intros Hn. destruct (diary_cases n) as [[H B] | [H ->]]; lia.
  - destruct (range_cases (getDiaryFromLotteryNumber n)) as [(_ & -> & _) | (_ & -> & _)];
      [lia |]. destruct (diary_cases n) as [[H B] | [H ->]]; lia.
  - destruct (range_cases (getDiaryFromLotteryNumber n)) as [(_ & _ & ->) | (_ & _ & ->)];
      [lia |]. destruct (diary_cases n) as [[H B] | [H ->]]; lia.
  - split.
    + intros H. apply validate_iff_contains in H. unfold contains in H.
      destruct (Z.le_gt_cases n 39999) as [Hle | Hgt]; [exact Hle |].
      rewrite getDiaryFromLotteryNumber_high in H by lia. cbn in H. lia.
    + intros H. apply validate_iff_contains, diary_holds_ticket. exact H.
Qed.

Lemma diary_of_any_integer_witness :
  1 <= getDiaryFromLotteryNumber 1000000
  /\ getDiaryFromLotteryNumber (-5) <= 0.
Proof.
  split.
  - apply (diary_of_any_integer 1000000); [vm_compute; split; discriminate | lia].
  - apply (diary_of_any_integer (-5)); [vm_compute; split; discriminate | lia].
Defined.

End NumberingMore.

(* ===================================================================== *)
(** * More on formatting and parsing *)
(* ===================================================================== *)

Section FormatMore.
Import Numbering.

Lemma digit_char_of_value (c : ascii) (d : Z) :
  JS.digit_value c = Some d -> JS.digit_char d = c /\ JS.is_digit d.
Proof.
  destruct c as [[] [] [] [] [] [] [] []]; cbn; intros H;
    try discriminate; injection H as <-; split; try reflexivity;
    unfold JS.is_digit; lia.
Qed.

Lemma is_digit_char_value (c : ascii) :
  RegExp.is_digit_char c = true -> exists d, JS.digit_value c = Some d.
Proof.
  destruct c as [[] [] [] [] [] [] [] []]; cbn; intros H;
    try discriminate; eexists; reflexivity.
Qed.

(** A string of digit characters is the rendering of its digits. *)
Lemma all_digits_render (s : string) :
  RegExp.all_digits s = true ->
  JS.render (JS.digit_prefix s) = s
  /\ Forall JS.is_digit (JS.digit_prefix s)
  /\ List.length (JS.digit_prefix s) = String.length s.
Proof.
  induction s as [| c s IH]; [intros _; repeat split; constructor |].
  cbn [RegExp.all_digits]. intros H. apply andb_true_iff in H as [Hc Hs].
  destruct (is_digit_char_value c Hc) as (d & Hd).
  destruct (digit_char_of_value c d Hd) as (Hcd & Hdig).
  destruct (IH Hs) as (Hr & Hf & Hl).
  cbn [JS.digit_prefix]. rewrite Hd. repeat split.
  - change (JS.render (d :: JS.digit_prefix s))
      with (String (JS.digit_char d) (JS.render (JS.digit_prefix s))).
    rewrite Hr, Hcd. reflexivity.
  - constructor; assumption.
  - cbn. rewrite Hl. reflexivity.
Qed.

Lemma fold_decimal (ds : list Z) (acc : Z) :
  List.fold_left (fun a d => a * 10 + d) ds acc
  = acc * 10 ^ Z.of_nat (List.length ds) + JS.decimal_value ds.
Proof.
  unfold JS.decimal_value. revert acc.
  induction ds as [| d ds IH]; intros acc.
  - cbn. lia.
  - cbn [List.fold_left List.length]. rewrite IH, (IH (0 * 10 + d)).
    rewrite Nat2Z.inj_succ, Z.pow_succ_r by lia. ring.
Qed.

Lemma decimal_value_cons (d : Z) (ds : list Z) :
  JS.decimal_value (d :: ds) = d * 10 ^ Z.of_nat (List.length ds) + JS.decimal_value ds.
Proof.
  unfold JS.decimal_value at 1. cbn [List.fold_left]. rewrite fold_decimal. ring.
Qed.

Lemma decimal_value_bound (ds : list Z) :
  Forall JS.is_digit ds -> 0 <= JS.decimal_value ds < 10 ^ Z.of_nat (List.length ds).
Proof.
  induction 1 as [| d ds Hd _ IH]; [cbn; lia |].
  rewrite decimal_value_cons. cbn [List.length].
  rewrite Nat2Z.inj_succ, Z.pow_succ_r by lia. unfold JS.is_digit in Hd. nia.
Qed.

(** Two digit strings of one length with one value are the same. *)
Lemma decimal_value_injective (xs ys : list Z) :
  Forall JS.is_digit xs -> Forall JS.is_digit ys ->
  List.length xs = List.length ys ->
  JS.decimal_value xs = JS.decimal_value ys -> xs = ys.
Proof.
  intros Hx. revert ys. induction Hx as [| x xs Hx Hxs IH]; intros ys Hy Hlen Hval.
  - destruct ys; [reflexivity | discriminate].
  - destruct ys as [| y ys]; [discriminate |].
    inversion Hy as [| ? ? Hy1 Hys]; subst. injection Hlen as Hlen.
    rewrite !decimal_value_cons, Hlen in Hval.
    pose proof (decimal_value_bound xs Hxs) as Bx.
    pose proof (decimal_value_bound ys Hys) as By. rewrite Hlen in Bx.
    assert (x = y) by nia. subst y.
    f_equal. apply IH; [assumption | assumption | lia].
Qed.

Lemma zeros_are_digits (k : nat) : Forall JS.is_digit (repeat 0 k).
Proof. induction k; constructor; [unfold JS.is_digit; lia | assumption]. Qed.

(** X3.  A string that the sale form accepts as a lottery number (five
    decimal digits) parses to a number between 0 and 99999, and formatting
    that number gives the string back. *)
Theorem format_parse_round_trip (s : string) :
  RegExp.five_digits s = true ->
  exists n, parseLotteryNumber s = Some n
            /\ 0 <= n <= 99999
            /\ formatLotteryNumber n = s.
Proof.
  unfold RegExp.five_digits. intros H. apply andb_true_iff in H as [Hlen Hdig].
  apply Nat.eqb_eq in Hlen.
  destruct (all_digits_render s Hdig) as (Hr & Hf & Hl).
  set (ds := JS.digit_prefix s) in *.
  assert (Hne : ds <> []) by (intros E; rewrite E in Hl; cbn in Hl; lia).
  pose proof (decimal_value_bound ds Hf) as Hb.
  rewrite Hl, Hlen in Hb. change (10 ^ Z.of_nat 5) with 100000 in Hb.
  exists (JS.decimal_value ds). split; [| split; [lia |]].
  - unfold parseLotteryNumber. rewrite <- Hr. apply parseInt10_render; assumption.
  - rewrite formatLotteryNumber_digits by lia.
    transitivity (JS.render ds); [| exact Hr]. f_equal.
    pose proof (formatLotteryNumber_length (JS.decimal_value ds) ltac:(lia)) as Hfl.
    rewrite formatLotteryNumber_digits, render_length in Hfl by lia.
    apply decimal_value_injective.
    + apply Forall_app. split.
      * apply zeros_are_digits.
      * apply decimal_digits_are_digits. lia.
    + exact Hf.
    + lia.
    + rewrite decimal_value_leading_zeros, decimal_value_decimal_digits by lia.
      reflexivity.
Qed.

Lemma format_parse_round_trip_witness :
  exists n, parseLotteryNumber "00042" = Some n
            /\ 0 <= n <= 99999
            /\ formatLotteryNumber n = "00042".
Proof. apply (format_parse_round_trip "00042"). reflexivity. Defined.

(** X4.  The two strings of [getFormattedTicketRangeForDiary], for a diary
    from 1 to 1819, have five characters each and parse back to the two
    ends of [getTicketRangeForDiary], the first not above the second. *)
Theorem formatted_range_reads_back (d : Z) :
  1 <= d <= 1819 ->
  let shown := Tickets.getFormattedTicketRangeForDiary d in
  let range := getTicketRangeForDiary d in
  String.length (Tickets.start shown) = 5%nat
  /\ String.length (Tickets.end_ shown) = 5%nat
  /\ parseLotteryNumber (Tickets.start shown) = Some (start range)
  /\ parseLotteryNumber (Tickets.end_ shown) = Some (end_ range)
  /\ start range <= end_ range.
Proof.
  intros Hd shown range. unfold shown, range, Tickets.getFormattedTicketRangeForDiary.
  cbn [Tickets.start Tickets.end_].
  destruct (range_cases d) as [(E & -> & ->) | (E & -> & ->)];
    repeat split;
    first [ apply formatLotteryNumber_length; lia
          | apply parse_format_nonnegative; lia
          | lia ].
Qed.

Lemma formatted_range_reads_back_witness :
  Tickets.getFormattedTicketRangeForDiary 2 = {| Tickets.start := "00023"; Tickets.end_ := "00044" |}
  /\ parseLotteryNumber (Tickets.start (Tickets.getFormattedTicketRangeForDiary 2)) = Some 23.
Proof.
  split; [reflexivity |].
  apply (formatted_range_reads_back 2). lia.
Defined.

Lemma digit_prefix_render_stop (zs : list Z) (c : ascii) (rest : string) :
  Forall JS.is_digit zs -> JS.digit_value c = None ->
  JS.digit_prefix (JS.render zs ++ String c rest) = zs.
Proof.
  intros Hz Hc. induction Hz as [| z zs Hd _ IH].
  - change (JS.render []) with "". rewrite append_empty. cbn [JS.digit_prefix].
    rewrite Hc. reflexivity.
  - change (JS.render (z :: zs)) with (String (JS.digit_char z) (JS.render zs)).
    rewrite append_cons. cbn [JS.digit_prefix].
    rewrite digit_value_digit_char, IH by assumption. reflexivity.
Qed.

Lemma decimal_digits_long (m : Z) : 1000 <= m -> (4 <= List.length (JS.decimal_digits m))%nat.
Proof.
  intros Hm.
  assert (H1 : 100 <= m / 10) by (apply Z.div_le_lower_bound; lia).
  assert (H2 : 10 <= m / 10 / 10) by (apply Z.div_le_lower_bound; lia).
  assert (H3 : 1 <= m / 10 / 10 / 10) by (apply Z.div_le_lower_bound; lia).
  rewrite (decimal_digits_large m), (decimal_digits_large (m / 10)),
    (decimal_digits_large (m / 10 / 10)), !length_app by lia.
  cbn [List.length].
  pose proof (decimal_digits_not_nil (m / 10 / 10 / 10)).
  destruct (JS.decimal_digits (m / 10 / 10 / 10)); [contradiction | cbn; lia].
Qed.

(** X5.  Below zero the round trip of C5 breaks for short numbers: a
    negative number with fewer than four digits is padded in front of its
    sign and parses back as 0; one with four digits or more is not padded
    and parses back as itself.  This is for the numbers down to -10^15,
    which [toString] writes in full and [parseInt] reads back exactly;
    beyond 2^53 a number is no longer written with its own digits, and
    from 10^21 on it is written with an exponent. *)
Theorem parse_format_negative (n : Z) :
  - 10 ^ 15 <= n < 0 ->
  parseLotteryNumber (formatLotteryNumber n) = Some (if -1000 <? n then 0 else n).
Proof.
  intros [_ Hn]. unfold parseLotteryNumber, formatLotteryNumber, JS.toString, JS.padStart.
  destruct (Z.ltb_spec n 0); [| lia].
  pose proof (decimal_digits_are_digits (- n) ltac:(lia)) as Hds.
  pose proof (decimal_digits_not_nil (- n)) as Hne.
  pose proof (decimal_value_decimal_digits (- n) ltac:(lia)) as Hv.
  set (ds := JS.decimal_digits (- n)) in *.
  cbn [String.length]. rewrite render_length.
  destruct (Z.ltb_spec (-1000) n) as [Hshort | Hlong].
  - pose proof (decimal_digits_length 2 (- n)) as Hl. cbn in Hl.
    fold ds in Hl. specialize (Hl ltac:(lia)).
    destruct (Nat.leb_spec 5 (S (List.length ds))); [lia |].
    rewrite (proj1 (filler_zeros _)).
    destruct (5 - S (List.length ds))%nat as [| k] eqn:Hk; [lia |].
    change (JS.render (repeat 0 (S k))) with (String "0" (JS.render (repeat 0 k))).
    rewrite append_cons.
    unfold JS.parseInt10, JS.trimStart. cbn [Text.drop_leading].
    change (JS.is_white_space "0") with false. cbv iota.
    change (String "0" (JS.render (repeat 0 k) ++ String "-" (JS.render ds)))
      with (JS.render (repeat 0 (S k)) ++ String "-" (JS.render ds))%string.
    rewrite digit_prefix_render_stop;
      [| apply zeros_are_digits | reflexivity].
    cbn [repeat]. f_equal.
    change (0 :: repeat 0 k) with (repeat 0 (S k)).
    rewrite <- (app_nil_r (repeat 0 (S k))), decimal_value_leading_zeros. reflexivity.
  - pose proof (decimal_digits_long (- n) ltac:(lia)) as Hl. fold ds in Hl.
    destruct (Nat.leb_spec 5 (S (List.length ds))); [| lia].
    unfold JS.parseInt10, JS.trimStart. cbn [Text.drop_leading].
    change (JS.is_white_space "-") with false. cbv iota.
    rewrite digit_prefix_render by assumption.
    destruct ds as [| d ds']; [contradiction |]. f_equal. lia.
Qed.

Lemma parse_format_negative_witness :
  formatLotteryNumber (-5) = "000-5"
  /\ parseLotteryNumber (formatLotteryNumber (-5)) = Some 0.
Proof. split; [reflexivity | apply (parse_format_negative (-5)); lia]. Defined.

End FormatMore.

(* ===================================================================== *)
(** * What the triggers and constraints keep *)
(* ===================================================================== *)

Section IntegrityFacts.
Import Store Database Integrity.

Lemma drop_leading_clean (strip : ascii -> bool) (t : string) :
  Text.starts_clean strip t -> Text.drop_leading strip t = t.
Proof.
  intros H. destruct t as [| c t]; [reflexivity |].
  cbn [Text.drop_leading]. rewrite (H c t eq_refl). reflexivity.
Qed.

Lemma drop_trailing_clean (strip : ascii -> bool) (t : string) :
  Text.ends_clean strip t -> Text.drop_trailing strip t = t.
Proof.
  induction t as [| c t IH]; [reflexivity |]. intros H.
  cbn [Text.drop_trailing]. rewrite IH.
  - destruct t as [| c' t]; [| reflexivity].
    rewrite (H "" c eq_refl). reflexivity.
  - intros front c' E. apply (H (String c front) c'). rewrite append_cons, E. reflexivity.
Qed.

Lemma drop_leading_length (strip : ascii -> bool) (s : string) :
  (String.length (Text.drop_leading strip s) <= String.length s)%nat.
Proof.
  induction s as [| c s IH]; [reflexivity |].
  cbn [Text.drop_leading]. destruct (strip c); cbn [String.length]; lia.
Qed.

Lemma drop_trailing_length (strip : ascii -> bool) (s : string) :
  (String.length (Text.drop_trailing strip s) <= String.length s)%nat.
Proof.
  induction s as [| c s IH]; [reflexivity |].
  cbn [Text.drop_trailing].
  destruct (Text.drop_trailing strip s); [destruct (strip c) |];
    cbn [String.length] in *; lia.
Qed.

Lemma trim_text_shorter (s : string) :
  (String.length (SQL.trim_text s) <= String.length s)%nat.
Proof.
  unfold SQL.trim_text.
  pose proof (drop_trailing_length SQL.is_space (Text.drop_leading SQL.is_space s)).
  pose proof (drop_leading_length SQL.is_space s). lia.
Qed.

(** [TRIM] leaves a value alone that has no space at either end. *)
Lemma TRIM_clean_id (x : option string) : clean x -> SQL.TRIM x = x.
Proof.
  destruct x as [t |]; [| reflexivity]. intros [Hs He]. cbn. f_equal.
  unfold SQL.trim_text. rewrite drop_leading_clean by assumption.
  apply drop_trailing_clean. assumption.
Qed.

Lemma TRIM_idempotent (x : option string) : SQL.TRIM (SQL.TRIM x) = SQL.TRIM x.
Proof. apply TRIM_clean_id, TRIM_clean. Qed.

Lemma missing_TRIM (x : option string) : missing (SQL.TRIM x) <-> missing x.
Proof.
  unfold missing. destruct x as [s |]; cbn.
  - split; intros [H | (t & H & Ht)]; try discriminate; right.
    + injection H as <-. exists s. split; [reflexivity |].
      pose proof (TRIM_idempotent (Some s)) as E. cbn in E. injection E as E.
      rewrite <- E. exact Ht.
    + injection H as <-. exists (SQL.trim_text s). split; [reflexivity |].
      rewrite Ht. reflexivity.
  - split; intros _; left; reflexivity.
Qed.

(** The condition of a CHECK constraint is false exactly on a missing
    value. *)
Lemma not_empty_false (x : option string) :
  SQL.is_false (not_empty x) = true <-> missing x.
Proof.
  unfold missing. destruct x as [s |]; cbn.
  - destruct (SQL.trim_text s) as [| c t] eqn:Ht; cbn; split.
    + intros _. right. exists s. split; [reflexivity | exact Ht].
    + reflexivity.
    + discriminate.
    + intros [H | (s' & H & Hs)]; [discriminate |].
      injection H as <-. rewrite Ht in Hs. discriminate.
  - split; [intros _; left; reflexivity | reflexivity].
Qed.

(** The row constraints, by cases: a NULL in a required column, an empty
    value refused by a CHECK, or a row that passes. *)
Lemma constraints_cases (r : lottery_winner) :
  (exists c, constraints r = inl (not_null_violation c))
  \/ (exists c, constraints r = inl (check_violation c) /\ required_missing r)
  \/ (constraints r = inr tt /\ ~ required_missing r).
Proof.
  unfold constraints, bind, require, required_missing.
  destruct (present (id r)); [| left; eauto].
  destruct (present (lottery_number r)); [| left; eauto].
  destruct (present (prize_category r)); [| left; eauto].
  destruct (present (prize_quantity r)); [| left; eauto].
  destruct (present (winner_name r)); [| left; eauto].
  destruct (present (winner_contact r)); [| left; eauto].
  right.
  destruct (SQL.is_false (not_empty (winner_name r))) eqn:H1; cbn [negb].
  { apply not_empty_false in H1. left. eexists. split; [reflexivity | tauto]. }
  destruct (SQL.is_false (not_empty (winner_contact r))) eqn:H2; cbn [negb].
  { apply not_empty_false in H2. left. eexists. split; [reflexivity | tauto]. }
  destruct (SQL.is_false (not_empty (prize_category r))) eqn:H3; cbn [negb].
  { apply not_empty_false in H3. left. eexists. split; [reflexivity | tauto]. }
  right. split; [reflexivity |].
  intros [H | [H | H]]; apply not_empty_false in H; congruence.
Qed.

Lemma required_missing_trim_text_fields (NEW : lottery_winner) :
  required_missing (trim_text_fields NEW) <-> required_missing NEW.
Proof.
  unfold required_missing.
  destruct (trim_text_fields_columns NEW) as (-> & -> & -> & _).
  rewrite !missing_TRIM. tauto.
Qed.

Lemma required_missing_set_updated_at (v : option timestamp) (r : lottery_winner) :
  required_missing (set_updated_at v r) <-> required_missing r.
Proof. reflexivity. Qed.

Lemma varchar_error (n : nat) (x : option string) (e : db_error) :
  varchar n x = inl e -> e = string_data_right_truncation n.
Proof.
  unfold varchar. destruct x; [| discriminate].
  destruct (_ <=? _)%nat; [discriminate |].
  destruct (Text.all_of _ _); [discriminate | intros [= <-]; reflexivity].
Qed.

Lemma coerce_error (NEW : lottery_winner) (e : db_error) :
  coerce NEW = inl e -> exists n, e = string_data_right_truncation n.
Proof.
  unfold coerce, bind.
  destruct (varchar 255 (prize_category NEW)) eqn:H1;
    [intros [= <-]; apply varchar_error in H1; eauto |].
  destruct (varchar 255 (winner_name NEW)) eqn:H2;
    [intros [= <-]; apply varchar_error in H2; eauto |].
  destruct (varchar 20 (winner_contact NEW)) eqn:H3;
    [intros [= <-]; apply varchar_error in H3; eauto | discriminate].
Qed.

(** X6.  The three CHECK constraints never fire: a row that reaches them
    has passed a trigger, which has refused every value they would
    refuse.  An insert or an update of a row fails with an exception of a
    trigger, a too long value, a NULL in a required column or a taken
    key, and never with a check violation. *)
Theorem check_constraints_never_fire :
  (forall (tbl : table) (NEW : lottery_winner) (c : string),
     insert_row tbl NEW <> inl (check_violation c))
  /\ (forall (now : timestamp) (OLD NEW : lottery_winner) (c : string),
        update_row now OLD NEW <> inl (check_violation c)).
Proof.
  split.
  - intros tbl NEW c. unfold insert_row, bind.
    destruct (coerce NEW) as [e | N1] eqn:Hc.
    { apply coerce_error in Hc as (n & ->). discriminate. }
    destruct (validate_winner_data_on_insert_cases N1) as [(_ & k & ->) | (Hp & ->)];
      cbn; [discriminate |].
    assert (Hp' : ~ required_missing (trim_text_fields N1))
      by (intros Hm; apply Hp, required_missing_trim_text_fields, Hm).
    destruct (constraints_cases (trim_text_fields N1))
      as [(k & ->) | [(k & _ & Hm) | (-> & _)]]; [discriminate | contradiction |].
    unfold keys_free, bind, require.
    destruct (negb _); [| discriminate]. destruct (negb _); discriminate.
  - intros now OLD NEW c. unfold update_row, bind.
    destruct (coerce NEW) as [e | N1] eqn:Hc.
    { apply coerce_error in Hc as (n & ->). discriminate. }
    destruct (prevent_winner_data_loss_cases OLD N1)
      as [(_ & k & e & ->) | [(_ & _ & ->) | (Hp & _ & ->)]]; cbn; try discriminate.
    assert (Hp' : ~ required_missing (set_updated_at (Some now) (trim_text_fields N1)))
      by (intros Hm; apply Hp, required_missing_trim_text_fields, Hm).
    destruct (constraints_cases (set_updated_at (Some now) (trim_text_fields N1)))
      as [(k & ->) | [(k & _ & Hm) | (-> & _)]]; [discriminate | contradiction | discriminate].
Qed.

(** ** The invariant of the stored rows *)

Lemma substring_length (n : nat) (s : string) :
  (String.length (substring 0 n s) <= n)%nat.
Proof.
  revert s. induction n as [| n IH]; intros s.
  - destruct s; cbn; lia.
  - destruct s as [| c s]; cbn; [lia |]. specialize (IH s). lia.
Qed.

Lemma varchar_fits (n : nat) (x y : option string) :
  varchar n x = inr y -> fits n y.
Proof.
  unfold varchar, fits. destruct x as [s |]; [| intros [= <-]; exact I].
  destruct (Nat.leb_spec (String.length s) n); [intros [= <-]; assumption |].
  destruct (Text.all_of _ _); [| discriminate].
  intros [= <-]. apply substring_length.
Qed.

Lemma coerce_fits (NEW r : lottery_winner) :
  coerce NEW = inr r ->
  fits 255 (prize_category r) /\ fits 255 (winner_name r) /\ fits 20 (winner_contact r).
Proof.
  unfold coerce, bind.
  destruct (varchar 255 (prize_category NEW)) eqn:H1; [discriminate |].
  destruct (varchar 255 (winner_name NEW)) eqn:H2; [discriminate |].
  destruct (varchar 20 (winner_contact NEW)) eqn:H3; [discriminate |].
  intros [= <-]. cbn.
  apply varchar_fits in H1, H2, H3. repeat split; assumption.
Qed.

Lemma fits_TRIM (n : nat) (x : option string) : fits n x -> fits n (SQL.TRIM x).
Proof.
  destruct x as [s |]; [| trivial]. cbn. intros H.
  pose proof (trim_text_shorter s). lia.
Qed.

(** What the closing block of both triggers makes of a row. *)
Lemma trim_text_fields_stored (N : lottery_winner) :
  fits 255 (prize_category N) -> fits 255 (winner_name N) -> fits 20 (winner_contact N) ->
  let r := trim_text_fields N in
  clean (winner_name r) /\ clean (winner_contact r) /\ clean (prize_category r)
  /\ clean (winner_address r) /\ clean (notes r)
  /\ fits 255 (prize_category r) /\ fits 255 (winner_name r) /\ fits 20 (winner_contact r).
Proof.
  intros F1 F2 F3 r. unfold r.
  destruct (trim_text_fields_columns N) as (-> & -> & -> & -> & -> & _).
  repeat split; first [apply TRIM_clean | apply fits_TRIM; assumption].
Qed.

Lemma insert_row_stored (tbl : table) (NEW r : lottery_winner) :
  insert_row tbl NEW = inr r -> stored r /\ keys_free tbl r = inr tt.
Proof.
  unfold insert_row, bind.
  destruct (coerce NEW) as [| N1] eqn:Hc; [discriminate |].
  apply coerce_fits in Hc as (F1 & F2 & F3).
  destruct (validate_winner_data_on_insert_cases N1) as [(_ & c & ->) | (_ & ->)];
    cbn; [discriminate |].
  destruct (constraints _) as [| []] eqn:Hk; [discriminate |].
  destruct (keys_free _ _) as [| []] eqn:Hf; [discriminate |].
  intros [= <-]. split; [| exact Hf].
  split; [exact Hk |]. apply trim_text_fields_stored; assumption.
Qed.

Lemma update_row_stored (now : timestamp) (OLD NEW r : lottery_winner) :
  update_row now OLD NEW = inr r -> stored r.
Proof.
  unfold update_row, bind.
  destruct (coerce NEW) as [| N1] eqn:Hc; [discriminate |].
  apply coerce_fits in Hc as (F1 & F2 & F3).
  destruct (prevent_winner_data_loss_cases OLD N1)
    as [(_ & c & e & ->) | [(_ & _ & ->) | (_ & _ & ->)]]; cbn; try discriminate.
  destruct (constraints _) as [| []] eqn:Hk; [discriminate |].
  intros [= <-]. split; [exact Hk |].
  exact (trim_text_fields_stored N1 F1 F2 F3).
Qed.

Lemma same_text_sym (a b : option string) : same_text a b = same_text b a.
Proof. destruct a, b; cbn; try reflexivity. apply String.eqb_sym. Qed.

Lemma same_number_sym (a b : option Z) : same_number a b = same_number b a.
Proof. destruct a, b; cbn; try reflexivity. rewrite Z.eqb_sym. reflexivity. Qed.

Lemma existsb_false_Forall {A} (f : A -> bool) (l : list A) :
  existsb f l = false <-> Forall (fun x => f x = false) l.
Proof.
  induction l as [| x l IH]; cbn [existsb].
  - split; [constructor | reflexivity].
  - rewrite orb_false_iff, IH. split.
    + intros [H1 H2]. constructor; assumption.
    + intros H. inversion H; subst. split; assumption.
Qed.

Lemma Forall_both {A} (P Q : A -> Prop) (l : list A) :
  Forall (fun x => P x /\ Q x) l <-> Forall P l /\ Forall Q l.
Proof.
  induction l as [| x l IH].
  - split; [intros _; split; constructor | intros _; constructor].
  - split.
    + intros H. inversion H as [| ? ? [Hp Hq] Hl]; subst.
      apply IH in Hl as [Hpl Hql]. split; constructor; assumption.
    + intros [Hp Hq]. inversion Hp; inversion Hq; subst.
      constructor; [split; assumption | apply IH; split; assumption].
Qed.

(** [keys_free], as a statement about every row. *)
Lemma keys_free_spec (tbl : table) (r : lottery_winner) :
  keys_free tbl r = inr tt <->
  Forall (fun o => same_text (id o) (id r) = false
                   /\ same_number (lottery_number o) (lottery_number r) = false) tbl.
Proof.
  rewrite Forall_both, <- !existsb_false_Forall.
  unfold keys_free, bind, require.
  destruct (existsb (fun o => same_text (id o) (id r)) tbl); cbn [negb];
    [split; [discriminate | intros [H _]; discriminate] |].
  destruct (existsb (fun o => same_number (lottery_number o) (lottery_number r)) tbl);
    cbn [negb]; [split; [discriminate | intros [_ H]; discriminate] |].
  split; [intros _; split; reflexivity | reflexivity].
Qed.

Lemma keys_distinct_cons (r : lottery_winner) (tbl : table) :
  keys_distinct (r :: tbl) = inr tt <->
  keys_free tbl r = inr tt /\ keys_distinct tbl = inr tt.
Proof.
  cbn [keys_distinct]. unfold bind.
  destruct (keys_free tbl r) as [| []]; split; try discriminate; tauto.
Qed.

Lemma keys_distinct_snoc (tbl : table) (r : lottery_winner) :
  keys_distinct tbl = inr tt -> keys_free tbl r = inr tt ->
  keys_distinct (tbl ++ [r])%list = inr tt.
Proof.
  induction tbl as [| o tbl IH]; intros Hd Hf.
  - reflexivity.
  - change ((o :: tbl) ++ [r])%list with (o :: (tbl ++ [r]))%list.
    apply keys_distinct_cons in Hd as [Hfo Hd].
    apply keys_free_spec in Hf. inversion Hf as [| ? ? [E1 E2] Hf']; subst.
    apply keys_distinct_cons. split.
    + apply keys_free_spec. apply Forall_app. split.
      * apply keys_free_spec. exact Hfo.
      * constructor; [| constructor].
        rewrite same_text_sym, same_number_sym. split; assumption.
    + apply IH; [exact Hd | apply keys_free_spec; exact Hf'].
Qed.

Lemma keys_distinct_filter (keep : lottery_winner -> bool) (tbl : table) :
  keys_distinct tbl = inr tt -> keys_distinct (List.filter keep tbl) = inr tt.
Proof.
  induction tbl as [| o tbl IH]; [reflexivity |].
  intros H. apply keys_distinct_cons in H as [Hf Hd].
  cbn [List.filter]. destruct (keep o); [| exact (IH Hd)].
  apply keys_distinct_cons. split; [| exact (IH Hd)].
  apply keys_free_spec. apply keys_free_spec in Hf.
  clear -Hf. induction Hf as [| x l Hx _ IHf]; cbn [List.filter]; [constructor |].
  destruct (keep x); [constructor; assumption | assumption].
Qed.

Lemma well_kept_INSERT new_id now values (tbl : table) :
  well_kept tbl -> well_kept (snd (INSERT new_id now values tbl)).
Proof.
  intros [Hs Hd]. destruct (INSERT_cases new_id now values tbl)
    as [(e & ->) | (r & -> & Hr)]; cbn [snd]; [split; assumption |].
  apply insert_row_stored in Hr as (Hst & Hf). split.
  - apply Forall_app. split; [exact Hs | constructor; [exact Hst | constructor]].
  - apply keys_distinct_snoc; assumption.
Qed.

Lemma well_kept_UPDATE now set where_ (tbl : table) :
  well_kept tbl -> well_kept (snd (UPDATE now set where_ tbl)).
Proof.
  intros [Hs Hd]. unfold UPDATE, bind.
  destruct (update_rows now set where_ tbl) as [e | tbl'] eqn:Hrows;
    [split; assumption |].
  destruct (keys_distinct tbl') as [e | []] eqn:Hk; cbn [snd]; [split; assumption |].
  split; [| exact Hk].
  apply update_rows_ok in Hrows. clear Hk Hd.
  induction Hrows as [| OLD r rest rest' Hrow _ IH]; [constructor |].
  inversion Hs as [| ? ? Hold Hrest]; subst. constructor; [| exact (IH Hrest)].
  destruct Hrow as [(_ & ->) | (_ & Hr)]; [exact Hold | exact (update_row_stored _ _ _ _ Hr)].
Qed.

Lemma well_kept_DELETE where_ (tbl : table) :
  well_kept tbl -> well_kept (snd (DELETE where_ tbl)).
Proof.
  intros [Hs Hd]. cbn [DELETE snd]. split.
  - clear Hd. induction Hs as [| x l Hx _ IH]; cbn [List.filter]; [constructor |].
    destruct (negb (where_ x)); [constructor; assumption | assumption].
  - apply keys_distinct_filter. exact Hd.
Qed.

Lemma well_kept_snoc (tbl : table) (NEW r : lottery_winner) :
  well_kept tbl -> insert_row tbl NEW = inr r -> well_kept (tbl ++ [r])%list.
Proof.
  intros [Hs Hd] Hr. apply insert_row_stored in Hr as (Hst & Hf). split.
  - apply Forall_app. split; [exact Hs | constructor; [exact Hst | constructor]].
  - apply keys_distinct_snoc; assumption.
Qed.

Lemma handleSaveEdit_table now fault updatedData st (tbl : table) :
  snd (WinnersPage.handleSaveEdit now fault updatedData st tbl) = tbl
  \/ exists set where_,
       snd (WinnersPage.handleSaveEdit now fault updatedData st tbl)
       = snd (UPDATE now set where_ tbl).
Proof.
  unfold WinnersPage.handleSaveEdit.
  destruct (WinnersPage.editingWinner st) as [editing |]; [| left; reflexivity].
  unfold Supabase.request. destruct fault; [left; reflexivity |].
  right. exists (WinnersPage.update_body updatedData),
    (WinnersPage.eq_id (WinnersPage.id editing)).
  destruct (UPDATE _ _ _ _) as [[e | []] tbl']; reflexivity.
Qed.

Lemma reachable_well_kept (tbl : table) : reachable tbl -> well_kept tbl.
Proof.
  induction 1 as [| ? ? ? ? _ IH | ? ? ? ? _ IH | ? ? _ IH | env ticket w _ IH
                  | now fault updatedData st tbl _ IH].
  - split; [constructor | reflexivity].
  - apply well_kept_INSERT, IH.
  - apply well_kept_UPDATE, IH.
  - apply well_kept_DELETE, IH.
  - destruct (registerWinner_table env ticket w) as [-> | (c & n & k & r & -> & Hr)];
      [exact IH | exact (well_kept_snoc _ _ _ IH Hr)].
  - destruct (handleSaveEdit_table now fault updatedData st tbl)
      as [-> | (set & where_ & ->)]; [exact IH | apply well_kept_UPDATE, IH].
Qed.

Lemma stored_keys (r : lottery_winner) :
  stored r -> (exists k, id r = Some k) /\ (exists n, lottery_number r = Some n).
Proof.
  intros (Hk & _). unfold constraints, bind, require in Hk.
  destruct (id r); [| discriminate]. destruct (lottery_number r); [| discriminate].
  split; eauto.
Qed.

Lemma well_kept_distinct (tbl : table) :
  well_kept tbl ->
  List.NoDup (List.map lottery_number tbl) /\ List.NoDup (List.map id tbl).
Proof.
  intros [Hs Hd]. induction Hs as [| r tbl Hr Hs IH].
  - split; constructor.
  - apply keys_distinct_cons in Hd as [Hf Hd]. destruct (IH Hd) as [IH1 IH2].
    apply keys_free_spec in Hf.
    destruct (stored_keys r Hr) as ((k & Hk) & (n & Hn)).
    split; constructor; try assumption.
    + intros Hin. apply List.in_map_iff in Hin as (o & Ho & Hin).
      assert (H : same_number (lottery_number o) (lottery_number r) = false).
      { clear -Hf Hin. induction Hf as [| x l [_ Hx] _ IHf]; [contradiction |].
        destruct Hin as [-> | Hin]; [exact Hx | exact (IHf Hin)]. }
      rewrite Ho, Hn in H. cbn in H. rewrite Z.eqb_refl in H. discriminate.
    + intros Hin. apply List.in_map_iff in Hin as (o & Ho & Hin).
      assert (H : same_text (id o) (id r) = false).
      { clear -Hf Hin. induction Hf as [| x l [Hx _] _ IHf]; [contradiction |].
        destruct Hin as [-> | Hin]; [exact Hx | exact (IHf Hin)]. }
      rewrite Ho, Hk in H. cbn in H. rewrite String.eqb_refl in H. discriminate.
Qed.

(** X7.  In every table that the statements and the write paths of the
    pages ([registerWinner], [handleSaveEdit], a delete) can produce from
    the empty table, no two winners share a lottery number or an id, and
    every winner has a number, a name, a contact and a prize category that
    are not empty, with no space at either end of its text columns. *)
Theorem reachable_tables_are_sound (tbl : table) :
  reachable tbl ->
  List.NoDup (List.map lottery_number tbl)
  /\ List.NoDup (List.map id tbl)
  /\ Forall (fun r =>
               (exists n, lottery_number r = Some n)
               /\ ~ required_missing r
               /\ clean (winner_name r) /\ clean (winner_contact r)
               /\ clean (prize_category r) /\ clean (winner_address r)
               /\ clean (notes r)) tbl.
Proof.
  intros H. apply reachable_well_kept in H.
  destruct (well_kept_distinct tbl H) as [H1 H2]. split; [exact H1 | split; [exact H2 |]].
  clear H1 H2. destruct H as [Hs _].
  induction Hs as [| r tbl Hr _ IH]; constructor; [| exact IH].
  destruct (stored_keys r Hr) as (_ & Hn).
  destruct Hr as (Hk & C1 & C2 & C3 & C4 & C5 & _).
  split; [exact Hn |]. split; [| repeat split; assumption].
  destruct (constraints_cases r) as [(c & E) | [(c & E & _) | (_ & Hp)]];
    [congruence | congruence | exact Hp].
Qed.

Lemma reachable_tables_are_sound_witness :
  List.NoDup (List.map lottery_number [Samples.john]).
Proof.
  apply (reachable_tables_are_sound [Samples.john]).
  change [Samples.john] with (snd (INSERT "w-105" 1000 Samples.john_values [])).
  apply reach_insert, reach_empty.
Defined.

End IntegrityFacts.

(* ===================================================================== *)
(** * More on registering a winner *)
(* ===================================================================== *)

Section RegisterMore.
Import Database Supabase SearchPage Integrity.

(** ** What the page sends is what the store keeps *)

Lemma is_space_white (c : ascii) : SQL.is_space c = true -> JS.is_white_space c = true.
Proof.
  unfold SQL.is_space, JS.is_white_space. intros H. apply N.eqb_eq in H. rewrite H.
  reflexivity.
Qed.

(** A string trimmed by the page has no space at either end. *)
Lemma JS_trim_clean (s : string) : Store.clean (Some (JS.trim s)).
Proof.
  destruct (drop_both_stripped JS.is_white_space s) as (_ & Hs & He).
  split.
  - intros c rest E. specialize (Hs c rest E).
    destruct (SQL.is_space c) eqn:Hc; [apply is_space_white in Hc; congruence | reflexivity].
  - intros front c E. specialize (He front c E).
    destruct (SQL.is_space c) eqn:Hc; [apply is_space_white in Hc; congruence | reflexivity].
Qed.

Lemma all_of_last (strip : ascii -> bool) (s : string) :
  s <> "" -> Text.all_of strip s = true ->
  exists front c, s = (front ++ String c "")%string /\ strip c = true.
Proof.
  induction s as [| a s IH]; [contradiction |]. intros _ H.
  cbn [Text.all_of] in H. apply andb_true_iff in H as [Ha Hs].
  destruct s as [| b s].
  - exists "", a. split; [reflexivity | exact Ha].
  - destruct (IH ltac:(discriminate) Hs) as (front & c & E & Hc).
    exists (String a front), c. split; [rewrite append_cons, <- E; reflexivity | exact Hc].
Qed.

(** The part of a string from position [n] on, when it is cut there. *)
Lemma substring_tail (n : nat) (s : string) :
  (n < String.length s)%nat ->
  exists front, s = (front ++ substring n (String.length s - n) s)%string
                /\ substring n (String.length s - n) s <> "".
Proof.
  revert s. induction n as [| n IH]; intros s Hn.
  - exists "". rewrite append_empty, Nat.sub_0_r.
    assert (E : forall t, substring 0 (String.length t) t = t).
    { induction t as [| c t IHt]; [reflexivity |]. cbn. rewrite IHt. reflexivity. }
    rewrite E. split; [reflexivity |]. destruct s; [cbn in Hn; lia | discriminate].
  - destruct s as [| c s]; [cbn in Hn; lia |].
    cbn [String.length] in *. destruct (IH s ltac:(lia)) as (front & E & Hne).
    exists (String c front). cbn [Nat.sub substring].
    split; [rewrite append_cons, <- E; reflexivity | exact Hne].
Qed.

Lemma append_assoc (a b c : string) : ((a ++ b) ++ c)%string = (a ++ (b ++ c))%string.
Proof.
  induction a as [| x a IH]; [reflexivity |].
  rewrite !append_cons, IH. reflexivity.
Qed.

(** A value with no space at its end is never cut to fit its column: it
    is stored whole or refused. *)
Lemma varchar_whole (n : nat) (t : string) (y : option string) :
  Text.ends_clean SQL.is_space t ->
  varchar n (Some t) = inr y -> y = Some t /\ (String.length t <= n)%nat.
Proof.
  intros He. unfold varchar.
  destruct (Nat.leb_spec (String.length t) n) as [Hle | Hgt];
    [intros [= <-]; split; [reflexivity | exact Hle] |].
  destruct (Text.all_of _ _) eqn:Hall; [| discriminate]. exfalso.
  destruct (substring_tail n t Hgt) as (front & E & Hne).
  destruct (all_of_last _ _ Hne Hall) as (mid & c & Ec & Hc).
  rewrite Ec in E. rewrite <- append_assoc in E.
  specialize (He _ _ E). congruence.
Qed.

(** ** Prize categories *)

Lemma prize_names_plain :
  List.Forall (fun p => JS.trim (name p) = name p
                        /\ (String.length (name p) <= 255)%nat
                        /\ name p <> "")
    PRIZE_CATEGORIES.
Proof.
  unfold PRIZE_CATEGORIES.
  repeat (constructor; [split; [reflexivity | split; [cbn; lia | discriminate]] |]).
  constructor.
Qed.

(** A name with a quantity other than 0 is one of [PRIZE_CATEGORIES]. *)
Lemma getPrizeQuantity_known (c : string) :
  getPrizeQuantity c <> 0 ->
  List.In c (List.map name PRIZE_CATEGORIES)
  /\ JS.trim c = c /\ (String.length c <= 255)%nat /\ c <> "".
Proof.
  unfold getPrizeQuantity. intros H.
  destruct (List.find _ PRIZE_CATEGORIES) as [p |] eqn:Hf; [| contradiction].
  apply List.find_some in Hf as [Hin Heq]. apply String.eqb_eq in Heq. subst c.
  split; [apply List.in_map; exact Hin |].
  exact (proj1 (List.Forall_forall _ _) prize_names_plain p Hin).
Qed.

(** ** The outcomes of [registerWinner] *)

Import Registration.

Lemma sent_row (env : environment) (ticket : TicketSale) (category name contact : string) :
  sent env ticket category name contact
  = {| Store.id := Some (new_id env);
       Store.lottery_number := Some (lottery_number ticket);
       Store.ticket_sale_id := Some (id ticket);
       Store.prize_category := Some (JS.trim category);
       Store.prize_quantity := Some (getPrizeQuantity category);
       Store.winner_name := Some (JS.trim name);
       Store.winner_contact := Some (JS.trim contact);
       Store.winner_address :=
         match purchaser_address ticket with
         | Some a => if String.eqb (JS.trim a) "" then None else Some (JS.trim a)
         | None => None
         end;
       Store.diary_number :=
         match diary ticket with
         | Some _ => Some (Numbering.getDiaryFromLotteryNumber (lottery_number ticket))
         | None => None
         end;
       Store.registered_at := Some (now env);
       Store.registered_by := None;
       Store.notes := None;
       Store.created_at := Some (now env);
       Store.updated_at := Some (now env) |}.
Proof.
  unfold sent, insert_body, trimmed_or_null.
  destruct (diary ticket), (purchaser_address ticket) as [a |];
    [destruct (String.eqb (JS.trim a) "") | | destruct (String.eqb (JS.trim a) "") |];
    reflexivity.
Qed.

Lemma clean_sent_address (ticket : TicketSale) :
  Store.clean match purchaser_address ticket with
              | Some a => if String.eqb (JS.trim a) "" then None else Some (JS.trim a)
              | None => None
              end.
Proof.
  destruct (purchaser_address ticket) as [a |]; [| exact I].
  destruct (String.eqb (JS.trim a) ""); [exact I | apply JS_trim_clean].
Qed.

(** The store keeps the row of the page as it was sent: the triggers and
    the column types change nothing in it. *)
Lemma insert_row_sent (env : environment) (ticket : TicketSale)
    (category name contact : string) (tbl : table) (r : Store.lottery_winner) :
  insert_row tbl (sent env ticket category name contact) = inr r ->
  r = sent env ticket category name contact.
Proof.
  rewrite sent_row. unfold insert_row, bind at 1.
  destruct (coerce _) as [| N1] eqn:Hc; [discriminate |].
  unfold coerce, bind in Hc. cbn [Store.prize_category Store.winner_name Store.winner_contact] in Hc.
  destruct (varchar 255 (Some (JS.trim category))) as [| c'] eqn:H1; [discriminate |].
  destruct (varchar 255 (Some (JS.trim name))) as [| n'] eqn:H2; [discriminate |].
  destruct (varchar 20 (Some (JS.trim contact))) as [| t'] eqn:H3; [discriminate |].
  apply varchar_whole in H1 as [-> _]; [| apply (JS_trim_clean category)].
  apply varchar_whole in H2 as [-> _]; [| apply (JS_trim_clean name)].
  apply varchar_whole in H3 as [-> _]; [| apply (JS_trim_clean contact)].
  injection Hc as <-. cbn [Store.set_winner_contact Store.set_winner_name
    Store.set_prize_category Store.id Store.lottery_number Store.ticket_sale_id
    Store.prize_category Store.prize_quantity Store.winner_name Store.winner_contact
    Store.winner_address Store.diary_number Store.registered_at Store.registered_by
    Store.notes Store.created_at Store.updated_at].
  match goal with
  | |- context [Store.validate_winner_data_on_insert ?N] =>
      destruct (validate_winner_data_on_insert_cases N) as [(_ & k & ->) | (_ & ->)]
  end; unfold bind at 1, fire; [discriminate |].
  unfold bind at 1. destruct (constraints _) as [| []]; [discriminate |].
  unfold bind at 1. destruct (keys_free _ _) as [| []]; [discriminate |].
  intros [= <-]. unfold Store.trim_text_fields.
  cbn [Store.set_winner_contact Store.set_winner_name Store.set_winner_address
    Store.set_notes Store.set_prize_category Store.id Store.lottery_number
    Store.ticket_sale_id Store.prize_category Store.prize_quantity Store.winner_name
    Store.winner_contact Store.winner_address Store.diary_number Store.registered_at
    Store.registered_by Store.notes Store.created_at Store.updated_at].
  rewrite !trim_if_present_TRIM.
  rewrite (TRIM_clean_id _ (JS_trim_clean name)), (TRIM_clean_id _ (JS_trim_clean contact)),
    (TRIM_clean_id _ (JS_trim_clean category)), (TRIM_clean_id _ (clean_sent_address ticket)).
  reflexivity.
Qed.

(** The four ways out of the [try] block. *)
Lemma insert_winner_cases (env : environment) (ticket : TicketSale)
    (category name contact : string) (w : world) :
  let tbl := lottery_winners w in
  let NEW := sent env ticket category name contact in
  (exists m, insert_fault env = Some m
     /\ insert_winner env ticket category name contact w
        = {| lottery_winners := tbl; existingWinners := existingWinners w;
             selectedPrize := selectedPrize w; registeringWinner := None;
             toasts := toasts w
               ++ [toast_error ("Failed to register winner: " ++ message (unreachable m))] |})
  \/ (exists e, insert_fault env = None /\ insert_row tbl NEW = inl e
         /\ sqlstate e <> "23505"
         /\ insert_winner env ticket category name contact w
            = {| lottery_winners := tbl; existingWinners := existingWinners w;
                 selectedPrize := selectedPrize w; registeringWinner := None;
                 toasts := toasts w
                   ++ [toast_error ("Failed to register winner: " ++ message (refused e))] |})
  \/ (exists e, insert_fault env = None /\ insert_row tbl NEW = inl e
         /\ sqlstate e = "23505"
         /\ insert_winner env ticket category name contact w
            = {| lottery_winners := tbl;
                 existingWinners :=
                   match refresh_fault env with
                   | Some _ => existingWinners w
                   | None => winner_numbers tbl
                   end;
                 selectedPrize := selectedPrize w; registeringWinner := None;
                 toasts := toasts w
                   ++ [toast_error (already_won_text (lottery_number ticket))] |})
  \/ (exists r, insert_fault env = None /\ insert_row tbl NEW = inr r
         /\ insert_winner env ticket category name contact w
            = {| lottery_winners := (tbl ++ [r])%list;
                 existingWinners := existingWinners w ∪ {[ lottery_number ticket ]};
                 selectedPrize := delete (id ticket) (selectedPrize w);
                 registeringWinner := None;
                 toasts := toasts w
                   ++ [toast_success ("Winner registered! " ++ name ++ " won " ++ category)] |}).
Proof.
  intros tbl NEW. unfold insert_winner, request.
  destruct (insert_fault env) as [m |].
  { left. exists m. split; reflexivity. }
  right. unfold INSERT. fold (sent env ticket category name contact). fold NEW.
  cbn [lottery_winners setRegisteringWinner]. fold tbl.
  destruct (insert_row tbl NEW) as [e | r] eqn:Hr.
  - cbn [code]. destruct (String.eqb_spec (sqlstate e) "23505") as [Hc | Hc].
    + right. left. exists e. repeat split; try assumption.
      destruct (refresh_fault env); reflexivity.
    + left. exists e. repeat split; try assumption.
  - right. right. exists r. repeat split.
Qed.

(** [registerWinner] stops at one of its guards with an error, or goes
    into the [try] block with the selected category and the name and
    contact of the purchaser. *)
Lemma registerWinner_cases (env : environment) (ticket : TicketSale) (w : world) :
  (exists text, registerWinner env ticket w = say (toast_error text) w)
  \/ (exists category name contact,
        selectedPrize w !! id ticket = Some category
        /\ checkIfAlreadyWon w (lottery_number ticket) = false
        /\ 0 < getRemainingQuantity (count_fault env) category (lottery_winners w)
        /\ purchaser_name ticket = Some name
        /\ purchaser_contact ticket = Some contact
        /\ missing_or_blank (Some name) = false
        /\ missing_or_blank (Some contact) = false
        /\ registerWinner env ticket w
           = insert_winner env ticket category name contact w).
Proof.
  unfold registerWinner.
  destruct (selectedPrize w !! id ticket) as [category |] eqn:Hsel;
    [| left; eexists; reflexivity].
  cbn [falsy]. destruct (String.eqb category ""); [left; eexists; reflexivity |].
  change (default "" (Some category)) with category.
  destruct (checkIfAlreadyWon w (lottery_number ticket)) eqn:Hwon;
    [left; eexists; reflexivity |].
  destruct (Z.leb_spec (getRemainingQuantity (count_fault env) category (lottery_winners w)) 0)
    as [Hrem | Hrem]; [left; eexists; reflexivity |].
  destruct (purchaser_name ticket) as [name |] eqn:Hn; [| left; eexists; reflexivity].
  destruct (missing_or_blank (Some name)) eqn:Hmn; [left; eexists; reflexivity |].
  destruct (purchaser_contact ticket) as [contact |] eqn:Hc; [| left; eexists; reflexivity].
  destruct (missing_or_blank (Some contact)) eqn:Hmc; [left; eexists; reflexivity |].
  right. exists category, name, contact. repeat split; try assumption; try reflexivity.
Qed.

Lemma remaining_positive (fault : option string) (category : string) (tbl : table) :
  0 < getRemainingQuantity fault category tbl ->
  fault = None /\ winners_of category tbl < getPrizeQuantity category.
Proof.
  unfold getRemainingQuantity, request, winners_of.
  destruct fault; cbn; [lia | intros H; split; [reflexivity | lia]].
Qed.

Lemma snoc_not_self {A} (l : list A) (x : A) : (l ++ [x])%list <> l.
Proof.
  intros E. apply (f_equal (@List.length A)) in E. rewrite length_app in E. cbn in E. lia.
Qed.

(** The table after [registerWinner]: as before, or with the row of the
    page at its end. *)
Lemma registerWinner_grows (env : environment) (ticket : TicketSale) (w : world) :
  (lottery_winners (registerWinner env ticket w) = lottery_winners w
   /\ exists text, toasts (registerWinner env ticket w) = (toasts w ++ [toast_error text])%list)
  \/ (exists category name contact,
        selectedPrize w !! id ticket = Some category
        /\ checkIfAlreadyWon w (lottery_number ticket) = false
        /\ winners_of category (lottery_winners w) < getPrizeQuantity category
        /\ purchaser_name ticket = Some name
        /\ purchaser_contact ticket = Some contact
        /\ missing_or_blank (Some name) = false
        /\ missing_or_blank (Some contact) = false
        /\ registerWinner env ticket w
           = {| lottery_winners :=
                  (lottery_winners w ++ [sent env ticket category name contact])%list;
                existingWinners := existingWinners w ∪ {[ lottery_number ticket ]};
                selectedPrize := delete (id ticket) (selectedPrize w);
                registeringWinner := None;
                toasts := (toasts w
                  ++ [toast_success ("Winner registered! " ++ name ++ " won " ++ category)])%list
             |}).
Proof.
  destruct (registerWinner_cases env ticket w)
    as [(text & ->) | (category & name & contact & Hsel & Hwon & Hrem & Hn & Hc & Hmn & Hmc & ->)].
  { left. split; [reflexivity | exists text; reflexivity]. }
  apply remaining_positive in Hrem as [_ Hrem].
  destruct (insert_winner_cases env ticket category name contact w)
    as [(m & _ & ->) | [(e & _ & _ & _ & ->) | [(e & _ & _ & _ & ->) | (r & _ & Hr & ->)]]];
    cbn [lottery_winners toasts];
    [left; split; [reflexivity | eexists; reflexivity] ..
    |].
  right. exists category, name, contact.
  rewrite (insert_row_sent _ _ _ _ _ _ _ Hr). repeat split; assumption.
Qed.

(** X8.  The row that a registration adds to the table is the row the
    page sent, unchanged by the triggers and the column types: the name
    and the contact of the purchaser as the page trimmed them, neither
    empty, the selected category, which is one of [PRIZE_CATEGORIES], with
    its quantity, the id and the number of the ticket, and the key and the
    time given by the store. *)
Theorem registration_keeps_what_was_sent (env : environment) (ticket : TicketSale)
    (w : world) (r : Store.lottery_winner) :
  lottery_winners (registerWinner env ticket w) = (lottery_winners w ++ [r])%list ->
  exists category name contact,
    selectedPrize w !! id ticket = Some category
    /\ purchaser_name ticket = Some name
    /\ purchaser_contact ticket = Some contact
    /\ List.In category (List.map SearchPage.name PRIZE_CATEGORIES)
    /\ r = sent env ticket category name contact
    /\ Store.prize_category r = Some category
    /\ Store.prize_quantity r = Some (getPrizeQuantity category)
    /\ Store.winner_name r = Some (JS.trim name) /\ JS.trim name <> ""
    /\ Store.winner_contact r = Some (JS.trim contact) /\ JS.trim contact <> ""
    /\ Store.ticket_sale_id r = Some (id ticket)
    /\ Store.lottery_number r = Some (lottery_number ticket)
    /\ Store.id r = Some (new_id env)
    /\ Store.registered_at r = Some (now env).
Proof.
  intros Htbl.
  destruct (registerWinner_grows env ticket w)
    as [(E & _) | (category & name & contact & Hsel & _ & Hq & Hn & Hc & Hmn & Hmc & Hrun)].
  { rewrite E in Htbl. symmetry in Htbl. destruct (snoc_not_self _ _ Htbl). }
  rewrite Hrun in Htbl. cbn [lottery_winners] in Htbl.
  apply app_inj_tail in Htbl as [_ <-].
  assert (Hq0 : getPrizeQuantity category <> 0) by (unfold winners_of in Hq; lia).
  destruct (getPrizeQuantity_known category Hq0) as (Hin & Htrim & _).
  assert (Hname : JS.trim name <> "").
  { intros E. cbn in Hmn. rewrite E in Hmn. cbn in Hmn.
    rewrite orb_true_r in Hmn. discriminate. }
  assert (Hcontact : JS.trim contact <> "").
  { intros E. cbn in Hmc. rewrite E in Hmc. cbn in Hmc.
    rewrite orb_true_r in Hmc. discriminate. }
  exists category, name, contact.
  split; [exact Hsel | split; [exact Hn | split; [exact Hc | split; [exact Hin |]]]].
  split; [reflexivity |].
  rewrite sent_row. cbn. rewrite Htrim. repeat split; assumption.
Qed.

Lemma registration_keeps_what_was_sent_witness :
  exists category name contact,
    Samples.laptop_winner 23 2 = sent Samples.calm (Samples.ticket 23) category name contact.
Proof.
  destruct (registration_keeps_what_was_sent Samples.calm (Samples.ticket 23)
              (Samples.search_page "Laptop" []) (Samples.laptop_winner 23 2))
    as (category & name & contact & _ & _ & _ & _ & E & _).
  - vm_compute. reflexivity.
  - exists category, name, contact. exact E.
Defined.

(** X9.  Every call of [registerWinner] shows exactly one toast.  When it
    is the success toast the table has grown by exactly one row, and when
    it is an error toast the table is as it was. *)
Theorem registerWinner_one_toast (env : environment) (ticket : TicketSale) (w : world) :
  exists t,
    toasts (registerWinner env ticket w) = (toasts w ++ [t])%list
    /\ ((is_success t = true
         /\ exists r, lottery_winners (registerWinner env ticket w)
                      = (lottery_winners w ++ [r])%list)
        \/ (is_success t = false
            /\ lottery_winners (registerWinner env ticket w) = lottery_winners w)).
Proof.
  destruct (registerWinner_grows env ticket w)
    as [(E & text & Ht) | (category & name & contact & _ & _ & _ & _ & _ & _ & _ & ->)].
  - exists (toast_error text). split; [exact Ht | right; split; [reflexivity | exact E]].
  - eexists. split; [reflexivity |]. left. split; [reflexivity |]. eexists. reflexivity.
Qed.

(** X10.  After a registration that added a row, the number of the ticket
    is in the page's cache of winners and the selection of the ticket is
    cleared; a further call for any ticket with that number, whatever
    else it holds, ends with an error at one of the guards, before any
    request, and changes nothing but the toasts. *)
Theorem registered_ticket_refused_again (env env' : environment)
    (ticket ticket' : TicketSale) (w : world) :
  let w' := registerWinner env ticket w in
  lottery_winners w' <> lottery_winners w ->
  lottery_number ticket' = lottery_number ticket ->
  checkIfAlreadyWon w' (lottery_number ticket) = true
  /\ selectedPrize w' !! id ticket = None
  /\ registeringWinner w' = None
  /\ exists text, registerWinner env' ticket' w' = say (toast_error text) w'.
Proof.
  intros w' Hgrew Hsame. unfold w' in *.
  destruct (registerWinner_grows env ticket w)
    as [(E & _) | (category & name & contact & _ & _ & _ & _ & _ & _ & _ & Hrun)];
    [contradiction |].
  rewrite Hrun. cbn [selectedPrize registeringWinner].
  assert (Hwon : forall v, checkIfAlreadyWon
            {| lottery_winners := v;
               existingWinners := existingWinners w ∪ {[ lottery_number ticket ]};
               selectedPrize := delete (id ticket) (selectedPrize w);
               registeringWinner := None;
               toasts := (toasts w
                 ++ [toast_success ("Winner registered! " ++ name ++ " won " ++ category)])%list
            |} (lottery_number ticket) = true).
  { intros v. unfold checkIfAlreadyWon. cbn [existingWinners].
    apply bool_decide_eq_true. set_solver. }
  split; [apply Hwon | split; [apply lookup_delete_eq | split; [reflexivity |]]].
  match goal with
  | |- context [registerWinner env' ticket' ?W] =>
      destruct (registerWinner_cases env' ticket' W)
        as [Hstop | (c & n & k & _ & Hnot & _)]
  end; [exact Hstop |].
  rewrite Hsame, Hwon in Hnot. discriminate.
Qed.

Lemma registered_ticket_refused_again_witness :
  exists text,
    registerWinner Samples.calm (Samples.ticket 23)
      (registerWinner Samples.calm (Samples.ticket 23) (Samples.search_page "Laptop" []))
    = say (toast_error text)
        (registerWinner Samples.calm (Samples.ticket 23) (Samples.search_page "Laptop" [])).
Proof.
  apply (registered_ticket_refused_again Samples.calm Samples.calm
           (Samples.ticket 23) (Samples.ticket 23) (Samples.search_page "Laptop" [])).
  - vm_compute. discriminate.
  - reflexivity.
Defined.

Lemma winners_of_snoc (c : string) (tbl : table) (r : Store.lottery_winner) :
  winners_of c (tbl ++ [r])%list
  = winners_of c tbl + (if same_text (Store.prize_category r) (Some c) then 1 else 0).
Proof.
  unfold winners_of, select_by_category. rewrite List.filter_app, length_app.
  cbn [List.filter]. destruct (same_text _ _); cbn [List.length]; lia.
Qed.

(** [registerWinner] is its guards followed by its insert. *)
Lemma registerWinner_guards_then_insert (env : environment) (ticket : TicketSale)
    (w : world) :
  registerWinner env ticket w
  = match Interleaved.registerWinner_guards env ticket w with
    | inl t => say t w
    | inr (category, name, contact) => insert_winner env ticket category name contact w
    end.
Proof.
  unfold registerWinner, Interleaved.registerWinner_guards.
  destruct (falsy _); [reflexivity |].
  destruct (checkIfAlreadyWon _ _); [reflexivity |].
  destruct (_ <=? 0); [reflexivity |].
  destruct (missing_or_blank (purchaser_name ticket)); [reflexivity |].
  destruct (missing_or_blank (purchaser_contact ticket)); reflexivity.
Qed.

(** With no other client at work the interleaved call is the call. *)
Lemma registerWinner_alone (env : environment) (ticket : TicketSale) (w : world) :
  Interleaved.registerWinner_among (fun tbl => tbl) env ticket w
  = registerWinner env ticket w.
Proof.
  unfold Interleaved.registerWinner_among. rewrite registerWinner_guards_then_insert.
  destruct (Interleaved.registerWinner_guards env ticket w) as [t | [[category name] contact]];
    reflexivity.
Qed.

(** What the guards have established when the call goes on. *)
Lemma registerWinner_guards_passed (env : environment) (ticket : TicketSale) (w : world)
    (category name contact : string) :
  Interleaved.registerWinner_guards env ticket w = inr (category, name, contact) ->
  selectedPrize w !! id ticket = Some category
  /\ checkIfAlreadyWon w (lottery_number ticket) = false
  /\ winners_of category (lottery_winners w) < getPrizeQuantity category
  /\ purchaser_name ticket = Some name
  /\ purchaser_contact ticket = Some contact
  /\ missing_or_blank (Some name) = false
  /\ missing_or_blank (Some contact) = false.
Proof.
  unfold Interleaved.registerWinner_guards.
  destruct (selectedPrize w !! id ticket) as [c |] eqn:Hsel; [| discriminate].
  cbn [falsy]. destruct (String.eqb c ""); [discriminate |].
  change (default "" (Some c)) with c.
  destruct (checkIfAlreadyWon w (lottery_number ticket)) eqn:Hwon; [discriminate |].
  destruct (Z.leb_spec (getRemainingQuantity (count_fault env) c (lottery_winners w)) 0)
    as [Hrem | Hrem]; [discriminate |].
  destruct (purchaser_name ticket) as [n |] eqn:Hn; [| discriminate].
  destruct (missing_or_blank (Some n)) eqn:Hmn; [discriminate |].
  destruct (purchaser_contact ticket) as [k |] eqn:Hc; [| discriminate].
  destruct (missing_or_blank (Some k)) eqn:Hmc; [discriminate |].
  change (default "" (Some n)) with n. change (default "" (Some k)) with k.
  intros [= <- <- <-]. apply remaining_positive in Hrem as [_ Hrem].
  repeat split; assumption || reflexivity.
Qed.

(** The table after the insert of a call: as the insert found it, or
    with the row of the page at its end. *)
Lemma insert_winner_table (env : environment) (ticket : TicketSale)
    (category name contact : string) (w : world) :
  lottery_winners (insert_winner env ticket category name contact w) = lottery_winners w
  \/ lottery_winners (insert_winner env ticket category name contact w)
     = (lottery_winners w ++ [sent env ticket category name contact])%list.
Proof.
  destruct (insert_winner_cases env ticket category name contact w)
    as [(m & _ & ->) | [(e & _ & _ & _ & ->) | [(e & _ & _ & _ & ->) | (r & _ & Hr & ->)]]];
    cbn [lottery_winners]; [left; reflexivity .. |].
  right. rewrite (insert_row_sent _ _ _ _ _ _ _ Hr). reflexivity.
Qed.

(** Two clients register the one THAR CAR: the second has inserted its
    winner between the count and the insert of the first. *)
Lemma overlapping_registrations :
  let w := Samples.search_page "THAR CAR" [] in
  let others := fun tbl : table => (tbl ++ [Samples.thar_winner])%list in
  winners_of "THAR CAR" (lottery_winners w) = 0
  /\ winners_of "THAR CAR" (others (lottery_winners w)) = 1
  /\ getPrizeQuantity "THAR CAR" = 1
  /\ winners_of "THAR CAR"
       (lottery_winners (Interleaved.registerWinner_among others Samples.calm
                           (Samples.ticket 8) w)) = 2.
Proof. vm_compute. repeat split. Qed.

(** X11.  The ceiling of a prize and the two requests of
    [registerWinner].  When the table holds no more winners of a prize
    than its quantity, both as the call counts and as its insert finds
    it, and no other client has added a winner of the prize selected
    between the count and the insert, the table after the call holds no
    more either, whatever ticket and prize the call is for and whatever
    the transport does; in particular a call with no other client at
    work keeps every ceiling.  Without the last condition the ceiling is
    not kept: two overlapping calls give the one THAR CAR two winners. *)
Theorem registration_keeps_ceiling :
  (forall (others : table -> table) (env : environment) (ticket : TicketSale)
          (w : world) (c : string),
     winners_of c (lottery_winners w) <= getPrizeQuantity c ->
     winners_of c (others (lottery_winners w)) <= getPrizeQuantity c ->
     (selectedPrize w !! id ticket = Some c ->
      winners_of c (others (lottery_winners w)) <= winners_of c (lottery_winners w)) ->
     winners_of c (lottery_winners (Interleaved.registerWinner_among others env ticket w))
     <= getPrizeQuantity c)
  /\ (forall (env : environment) (ticket : TicketSale) (w : world) (c : string),
        winners_of c (lottery_winners w) <= getPrizeQuantity c ->
        winners_of c (lottery_winners (registerWinner env ticket w)) <= getPrizeQuantity c)
  /\ (exists (others : table -> table) (env : environment) (ticket : TicketSale)
             (w : world) (c : string),
        winners_of c (lottery_winners w) <= getPrizeQuantity c
        /\ winners_of c (others (lottery_winners w)) <= getPrizeQuantity c
        /\ getPrizeQuantity c
           < winners_of c
               (lottery_winners (Interleaved.registerWinner_among others env ticket w))).
Proof.
  assert (Hamong : forall others env ticket w c,
            winners_of c (lottery_winners w) <= getPrizeQuantity c ->
            winners_of c (others (lottery_winners w)) <= getPrizeQuantity c ->
            (selectedPrize w !! id ticket = Some c ->
             winners_of c (others (lottery_winners w)) <= winners_of c (lottery_winners w)) ->
            winners_of c
              (lottery_winners (Interleaved.registerWinner_among others env ticket w))
            <= getPrizeQuantity c).
  { intros others env ticket w c Hstart Hthen Hsame.
    unfold Interleaved.registerWinner_among.
    destruct (Interleaved.registerWinner_guards env ticket w)
      as [t | [[category name] contact]] eqn:Hg; [exact Hstart |].
    apply registerWinner_guards_passed in Hg as (Hsel & _ & Hq & _).
    destruct (insert_winner_table env ticket category name contact
                (setTable (others (lottery_winners w)) w)) as [-> | ->];
      cbn [lottery_winners setTable]; [exact Hthen |].
    rewrite winners_of_snoc, sent_row. cbn [Store.prize_category].
    assert (Hq0 : getPrizeQuantity category <> 0) by (unfold winners_of in Hq; lia).
    destruct (getPrizeQuantity_known category Hq0) as (_ & -> & _).
    cbn [same_text]. destruct (String.eqb_spec category c) as [-> | Hne]; [| lia].
    specialize (Hsame Hsel). lia. }
  split; [exact Hamong | split].
  - intros env ticket w c Hc. rewrite <- registerWinner_alone.
    apply Hamong; [exact Hc | exact Hc | intros _; lia].
  - exists (fun tbl : table => (tbl ++ [Samples.thar_winner])%list), Samples.calm,
      (Samples.ticket 8), (Samples.search_page "THAR CAR" []), "THAR CAR".
    destruct overlapping_registrations as (H0 & H1 & Hq & H2).
    cbv zeta in H0, H1, H2. rewrite H0, H1, H2, Hq. lia.
Qed.

Lemma registration_keeps_ceiling_witness :
  winners_of "THAR CAR"
    (lottery_winners (registerWinner Samples.calm (Samples.ticket 8)
                        (Samples.search_page "THAR CAR" [Samples.thar_winner])))
  <= getPrizeQuantity "THAR CAR".
Proof.
  apply (proj1 (proj2 registration_keeps_ceiling) Samples.calm (Samples.ticket 8)
           (Samples.search_page "THAR CAR" [Samples.thar_winner]) "THAR CAR").
  vm_compute. discriminate.
Defined.

(** ** The insert of a registration and the guard *)

Lemma not_missing_trimmed (x : string) : JS.trim x <> "" -> ~ Store.missing (Some (JS.trim x)).
Proof.
  intros Hne [H | (t & H & Ht)]; [discriminate |]. injection H as <-.
  pose proof (TRIM_clean_id _ (JS_trim_clean x)) as E. cbn in E. injection E as E.
  congruence.
Qed.

(** The insert that [registerWinner] sends, row-wise: a too long value is
    refused; otherwise only the keys decide. *)
Lemma insert_row_of_sent (env : environment) (ticket : TicketSale)
    (category name contact : string) (tbl : table) :
  JS.trim category <> "" -> JS.trim name <> "" -> JS.trim contact <> "" ->
  let NEW := sent env ticket category name contact in
  (exists n, insert_row tbl NEW = inl (string_data_right_truncation n)
             /\ ((255 < String.length (JS.trim category))%nat
                 \/ (255 < String.length (JS.trim name))%nat
                 \/ (20 < String.length (JS.trim contact))%nat))
  \/ ((String.length (JS.trim category) <= 255)%nat
      /\ (String.length (JS.trim name) <= 255)%nat
      /\ (String.length (JS.trim contact) <= 20)%nat
      /\ insert_row tbl NEW
         = match keys_free tbl NEW with inl e => inl e | inr _ => inr NEW end).
Proof.
  intros Hc Hn Ht NEW. unfold NEW. rewrite sent_row. unfold insert_row, bind at 1.
  unfold coerce, bind.
  cbn [Store.prize_category Store.winner_name Store.winner_contact].
  destruct (varchar 255 (Some (JS.trim category))) as [e1 | c'] eqn:H1.
  { left. pose proof (varchar_error _ _ _ H1) as ->. eexists. split; [reflexivity |].
    left. unfold varchar in H1. clear -H1.
    destruct (Nat.leb_spec (String.length (JS.trim category)) 255); [discriminate | lia]. }
  destruct (varchar 255 (Some (JS.trim name))) as [e2 | n'] eqn:H2.
  { left. pose proof (varchar_error _ _ _ H2) as ->. eexists. split; [reflexivity |].
    right. left. unfold varchar in H2. clear -H2.
    destruct (Nat.leb_spec (String.length (JS.trim name)) 255); [discriminate | lia]. }
  destruct (varchar 20 (Some (JS.trim contact))) as [e3 | t'] eqn:H3.
  { left. pose proof (varchar_error _ _ _ H3) as ->. eexists. split; [reflexivity |].
    right. right. unfold varchar in H3. clear -H3.
    destruct (Nat.leb_spec (String.length (JS.trim contact)) 20); [discriminate | lia]. }
  apply varchar_whole in H1 as [-> F1]; [| apply (JS_trim_clean category)].
  apply varchar_whole in H2 as [-> F2]; [| apply (JS_trim_clean name)].
  apply varchar_whole in H3 as [-> F3]; [| apply (JS_trim_clean contact)].
  right. split; [exact F1 | split; [exact F2 | split; [exact F3 |]]].
  cbn [Store.set_winner_contact Store.set_winner_name
    Store.set_prize_category Store.id Store.lottery_number Store.ticket_sale_id
    Store.prize_category Store.prize_quantity Store.winner_name Store.winner_contact
    Store.winner_address Store.diary_number Store.registered_at Store.registered_by
    Store.notes Store.created_at Store.updated_at].
  match goal with
  | |- context [Store.validate_winner_data_on_insert ?N] =>
      destruct (validate_winner_data_on_insert_cases N) as [(Hm & _) | (_ & ->)]
  end.
  { exfalso.
    change (Store.missing (Some (JS.trim name)) \/ Store.missing (Some (JS.trim contact))
            \/ Store.missing (Some (JS.trim category))) in Hm.
    destruct Hm as [Hm | [Hm | Hm]];
      [exact (not_missing_trimmed name Hn Hm)
      | exact (not_missing_trimmed contact Ht Hm)
      | exact (not_missing_trimmed category Hc Hm)]. }
  unfold fire, Store.trim_text_fields.
  cbn [Store.set_winner_contact Store.set_winner_name Store.set_winner_address
    Store.set_notes Store.set_prize_category Store.id Store.lottery_number
    Store.ticket_sale_id Store.prize_category Store.prize_quantity Store.winner_name
    Store.winner_contact Store.winner_address Store.diary_number Store.registered_at
    Store.registered_by Store.notes Store.created_at Store.updated_at].
  rewrite !trim_if_present_TRIM.
  rewrite (TRIM_clean_id _ (JS_trim_clean name)), (TRIM_clean_id _ (JS_trim_clean contact)),
    (TRIM_clean_id _ (JS_trim_clean category)), (TRIM_clean_id _ (clean_sent_address ticket)).
  change (SQL.TRIM None) with (@None string).
  match goal with
  | |- context [constraints ?R] =>
      destruct (constraints_cases R) as [(k & Hk) | [(k & _ & Hm) | (-> & _)]]
  end.
  - exfalso. unfold constraints, bind, require in Hk. cbn [present Store.id
      Store.lottery_number Store.prize_category Store.prize_quantity Store.winner_name
      Store.winner_contact] in Hk.
    repeat match type of Hk with
           | context [if negb ?b then _ else _] => destruct b; cbn [negb] in Hk
           end; discriminate.
  - exfalso.
    change (Store.missing (Some (JS.trim name)) \/ Store.missing (Some (JS.trim contact))
            \/ Store.missing (Some (JS.trim category))) in Hm.
    destruct Hm as [Hm | [Hm | Hm]];
      [exact (not_missing_trimmed name Hn Hm)
      | exact (not_missing_trimmed contact Ht Hm)
      | exact (not_missing_trimmed category Hc Hm)].
  - unfold bind. destruct (keys_free _ _) as [e | []]; reflexivity.
Qed.

Lemma blank_guard (x : string) : missing_or_blank (Some x) = false -> JS.trim x <> "".
Proof.
  cbn. intros H E. rewrite E in H. cbn in H. rewrite orb_true_r in H. discriminate.
Qed.

Lemma remaining_known (fault : option string) (category : string) (tbl : table) :
  0 < getRemainingQuantity fault category tbl ->
  JS.trim category = category /\ category <> "" /\ (String.length category <= 255)%nat.
Proof.
  intros H. apply remaining_positive in H as [_ H].
  assert (Hq0 : getPrizeQuantity category <> 0) by (unfold winners_of in H; lia).
  destruct (getPrizeQuantity_known category Hq0) as (_ & E & Hl & Hne). tauto.
Qed.

(** X12.  A row that [registerWinner] sends after its own checks always
    passes the BEFORE INSERT trigger, which returns it unchanged: the
    guard never refuses a registration of the page.  Nor do the NOT NULL
    and the CHECK constraints: when the insert fails, it is not with an
    exception of a trigger, a NOT NULL violation or a check violation. *)
Theorem registration_passes_the_guard (env : environment) (ticket : TicketSale)
    (category name contact : string) (tbl : table) :
  0 < getRemainingQuantity (count_fault env) category tbl ->
  missing_or_blank (Some name) = false ->
  missing_or_blank (Some contact) = false ->
  let NEW := sent env ticket category name contact in
  Store.validate_winner_data_on_insert NEW = inr NEW
  /\ forall e, insert_row tbl NEW = inl e ->
       (forall x, e <> raised x)
       /\ (forall c, e <> not_null_violation c)
       /\ (forall c, e <> check_violation c).
Proof.
  intros Hrem Hn Hc NEW. apply blank_guard in Hn, Hc.
  destruct (remaining_known _ _ _ Hrem) as (Htrim & Hne & _).
  assert (Hcat : JS.trim category <> "") by congruence.
  split.
  - destruct (validate_winner_data_on_insert_cases NEW) as [(Hm & _) | (_ & ->)].
    + exfalso. unfold NEW in Hm. rewrite sent_row in Hm.
      change (Store.missing (Some (JS.trim name)) \/ Store.missing (Some (JS.trim contact))
              \/ Store.missing (Some (JS.trim category))) in Hm.
      destruct Hm as [Hm | [Hm | Hm]];
        [exact (not_missing_trimmed name Hn Hm)
        | exact (not_missing_trimmed contact Hc Hm)
        | exact (not_missing_trimmed category Hcat Hm)].
    + f_equal. unfold NEW. rewrite sent_row. unfold Store.trim_text_fields.
      cbn [Store.set_winner_contact Store.set_winner_name Store.set_winner_address
        Store.set_notes Store.set_prize_category Store.id Store.lottery_number
        Store.ticket_sale_id Store.prize_category Store.prize_quantity Store.winner_name
        Store.winner_contact Store.winner_address Store.diary_number Store.registered_at
        Store.registered_by Store.notes Store.created_at Store.updated_at].
      rewrite !trim_if_present_TRIM.
      rewrite (TRIM_clean_id _ (JS_trim_clean name)), (TRIM_clean_id _ (JS_trim_clean contact)),
        (TRIM_clean_id _ (JS_trim_clean category)),
        (TRIM_clean_id _ (clean_sent_address ticket)).
      reflexivity.
  - intros e He.
    destruct (insert_row_of_sent env ticket category name contact tbl Hcat Hn Hc)
      as [(n & E & _) | (_ & _ & _ & E)]; fold NEW in E; rewrite E in He.
    + injection He as <-. repeat split; discriminate.
    + unfold keys_free, bind, require in He.
      destruct (negb _); [| injection He as <-; repeat split; discriminate].
      destruct (negb _); [discriminate | injection He as <-; repeat split; discriminate].
Qed.

Lemma registration_passes_the_guard_witness :
  Store.validate_winner_data_on_insert (sent Samples.calm (Samples.ticket 23) "Laptop" "Ravi" "9111111111")
  = inr (sent Samples.calm (Samples.ticket 23) "Laptop" "Ravi" "9111111111").
Proof.
  apply (registration_passes_the_guard Samples.calm (Samples.ticket 23)
           "Laptop" "Ravi" "9111111111" []); reflexivity.
Defined.





End RegisterMore.

(* ===================================================================== *)
(** * More on editing and deleting winners *)
(* ===================================================================== *)

Section EditMore.
Import Store Database Supabase Integrity WinnersList.

(** The columns that the body of the update gives. *)
Lemma update_body_columns (d : WinnersPage.LotteryWinner) (r : lottery_winner) :
  let pick (p : property string) (old : option string) :=
    match p with undefined => old | null => None | value s => Some s end in
  WinnersPage.update_body d r
  = {| id := id r; lottery_number := lottery_number r; ticket_sale_id := ticket_sale_id r;
       prize_category := pick (WinnersPage.prize_category d) (prize_category r);
       prize_quantity := prize_quantity r;
       winner_name := pick (WinnersPage.winner_name d) (winner_name r);
       winner_contact := pick (WinnersPage.winner_contact d) (winner_contact r);
       winner_address := pick (WinnersPage.winner_address d) (winner_address r);
       diary_number := diary_number r; registered_at := registered_at r;
       registered_by := registered_by r;
       notes := pick (WinnersPage.notes d) (notes r);
       created_at := created_at r; updated_at := updated_at r |}.
Proof.
  intros pick. unfold WinnersPage.update_body, pick. destruct r.
  destruct (WinnersPage.prize_category d), (WinnersPage.winner_name d),
    (WinnersPage.winner_contact d), (WinnersPage.winner_address d), (WinnersPage.notes d);
    reflexivity.
Qed.

(** Saving the values a row already has asks for no change. *)
Lemma update_body_form_of (key : string) (r : lottery_winner) :
  WinnersPage.update_body (form_of key r) r = r.
Proof.
  rewrite update_body_columns. unfold form_of, fetched. cbn.
  destruct r as [i n t c q w k a d ra rb o ca ua]. cbn.
  destruct c, w, k, a, o; reflexivity.
Qed.

Lemma varchar_same (n : nat) (x : option string) : fits n x -> varchar n x = inr x.
Proof.
  unfold fits, varchar. destruct x as [s |]; [| reflexivity]. intros H.
  destruct (Nat.leb_spec (String.length s) n); [reflexivity | lia].
Qed.

(** A stored row goes through an update that changes nothing with only
    [updated_at] moved. *)
Lemma update_row_same (now : timestamp) (r : lottery_winner) :
  stored r -> update_row now r r = inr (set_updated_at (Some now) r).
Proof.
  intros (Hk & C1 & C2 & C3 & C4 & C5 & F1 & F2 & F3).
  unfold update_row, bind at 1.
  assert (Hc : coerce r = inr r).
  { unfold coerce, bind. rewrite !varchar_same by assumption.
    destruct r; reflexivity. }
  rewrite Hc.
  destruct (constraints_cases r) as [(c & E) | [(c & E & _) | (_ & Hp)]];
    [congruence | congruence |].
  destruct (prevent_winner_data_loss_cases r r)
    as [(Hm & _) | [(_ & Hneq & _) | (_ & _ & ->)]].
  - contradiction.
  - apply NEQ_true in Hneq as (a & b & Ha & Hb & Hab). congruence.
  - assert (Ht : trim_text_fields r = r).
    { unfold trim_text_fields. rewrite !trim_if_present_TRIM.
      destruct r as [i n t c q w k a d ra rb o ca ua]. cbn in *.
      rewrite (TRIM_clean_id _ C1), (TRIM_clean_id _ C2), (TRIM_clean_id _ C3),
        (TRIM_clean_id _ C4), (TRIM_clean_id _ C5). reflexivity. }
    rewrite Ht. cbn [fire bind update_lottery_winners_updated_at RETURN].
    change (constraints (set_updated_at (Some now) r)) with (constraints r).
    rewrite Hk. reflexivity.
Qed.

Lemma NoDup_map_inj {A B} (f : A -> B) (l : list A) (a b : A) :
  List.NoDup (List.map f l) -> List.In a l -> List.In b l -> f a = f b -> a = b.
Proof.
  induction l as [| x l IH]; [contradiction |].
  cbn [List.map]. intros Hnd Ha Hb E. inversion Hnd as [| ? ? Hx Hl]; subst.
  destruct Ha as [-> | Ha], Hb as [-> | Hb].
  - reflexivity.
  - exfalso. apply Hx. rewrite E. apply List.in_map. exact Hb.
  - exfalso. apply Hx. rewrite <- E. apply List.in_map. exact Ha.
  - exact (IH Hl Ha Hb E).
Qed.

Lemma keys_distinct_map (f : lottery_winner -> lottery_winner) (l : table) :
  (forall o, id (f o) = id o /\ lottery_number (f o) = lottery_number o) ->
  keys_distinct (List.map f l) = keys_distinct l.
Proof.
  intros Hf. induction l as [| r l IH]; [reflexivity |].
  cbn [List.map keys_distinct]. rewrite IH. f_equal.
  unfold keys_free. destruct (Hf r) as [-> ->].
  assert (E1 : existsb (fun o => same_text (id o) (id r)) (List.map f l)
               = existsb (fun o => same_text (id o) (id r)) l).
  { clear IH. induction l as [| o l IHl]; [reflexivity |].
    cbn [List.map existsb]. rewrite IHl. destruct (Hf o) as [-> _]. reflexivity. }
  assert (E2 : existsb (fun o => same_number (lottery_number o) (lottery_number r))
                 (List.map f l)
               = existsb (fun o => same_number (lottery_number o) (lottery_number r)) l).
  { clear IH E1. induction l as [| o l IHl]; [reflexivity |].
    cbn [List.map existsb]. rewrite IHl. destruct (Hf o) as [_ ->]. reflexivity. }
  rewrite E1, E2. reflexivity.
Qed.

Lemma update_rows_unchanged (now : timestamp) (key : string) (r : lottery_winner)
    (l : table) :
  (forall o, List.In o l -> stored o /\ (WinnersPage.eq_id key o = true -> o = r)) ->
  update_rows now (WinnersPage.update_body (form_of key r)) (WinnersPage.eq_id key) l
  = inr (touched now key l).
Proof.
  unfold touched. induction l as [| o l IH]; intros H; [reflexivity |].
  cbn [update_rows List.map].
  destruct (H o (or_introl eq_refl)) as [Hst Hkey].
  rewrite IH by (intros x Hx; apply H; right; exact Hx).
  destruct (WinnersPage.eq_id key o) eqn:Hm; [| reflexivity].
  rewrite (Hkey eq_refl), update_body_form_of.
  rewrite update_row_same by (rewrite <- (Hkey eq_refl); exact Hst).
  reflexivity.
Qed.

Lemma eq_id_spec (key : string) (o : lottery_winner) :
  WinnersPage.eq_id key o = true <-> id o = Some key.
Proof.
  unfold WinnersPage.eq_id, same_text. destruct (id o) as [k |].
  - split.
    + intros H. apply String.eqb_eq in H. rewrite H. reflexivity.
    + intros [= ->]. apply String.eqb_refl.
  - split; discriminate.
Qed.

(** X14.  Opening the form on a stored row and saving it without a change
    leaves every column of every row as it was, apart from [updated_at] of
    that row: what the triggers wrote when the row was stored they write
    again unchanged.  The save is reported as successful and the form is
    closed. *)
Theorem unchanged_save_only_touches (now : timestamp) (key : string)
    (r : lottery_winner) (st : WinnersPage.page) (tbl : table) :
  reachable tbl -> List.In r tbl -> id r = Some key ->
  WinnersPage.handleSaveEdit now None (form_of key r) (handleEdit (form_of key r) st) tbl
  = (save_done st, touched now key tbl).
Proof.
  intros Hreach Hin Hid. apply reachable_well_kept in Hreach.
  destruct (well_kept_distinct tbl Hreach) as [_ Hnd]. destruct Hreach as [Hs Hd].
  assert (Hrows : update_rows now (WinnersPage.update_body (form_of key r))
                    (WinnersPage.eq_id key) tbl = inr (touched now key tbl)).
  { apply update_rows_unchanged. intros o Ho. split.
    - exact (proj1 (List.Forall_forall _ _) Hs o Ho).
    - intros Hm. apply eq_id_spec in Hm.
      apply (NoDup_map_inj id tbl o r Hnd Ho Hin). congruence. }
  unfold WinnersPage.handleSaveEdit, handleEdit. cbn [WinnersPage.editingWinner].
  unfold request, UPDATE, bind.
  change (WinnersPage.id (form_of key r)) with key. rewrite Hrows.
  assert (Hk : keys_distinct (touched now key tbl) = inr tt).
  { unfold touched. rewrite keys_distinct_map; [exact Hd |].
    intros o. destruct (WinnersPage.eq_id key o); split; reflexivity. }
  rewrite Hk. reflexivity.
Qed.

Lemma unchanged_save_only_touches_witness :
  WinnersPage.handleSaveEdit 2000 None (form_of "w-105" Samples.john)
    (handleEdit (form_of "w-105" Samples.john) Samples.john_page) [Samples.john]
  = (save_done Samples.john_page, [set_updated_at (Some 2000) Samples.john]).
Proof.
  apply (unchanged_save_only_touches 2000 "w-105" Samples.john Samples.john_page
           [Samples.john]).
  - change [Samples.john] with (snd (INSERT "w-105" 1000 Samples.john_values [])).
    apply reach_insert, reach_empty.
  - left. reflexivity.
  - reflexivity.
Defined.

Lemma all_of_substring (strip : ascii -> bool) (n m : nat) (s : string) :
  Text.all_of strip s = true -> Text.all_of strip (substring n m s) = true.
Proof.
  revert n m. induction s as [| c s IH]; intros n m H.
  - destruct n, m; reflexivity.
  - cbn [Text.all_of] in H. apply andb_true_iff in H as [Hc Hs].
    destruct n as [| n]; [destruct m as [| m] |]; cbn [substring Text.all_of].
    + reflexivity.
    + rewrite Hc. exact (IH 0%nat m Hs).
    + exact (IH n m Hs).
Qed.

(** A missing value is still missing after the column type is applied. *)
Lemma varchar_missing (n : nat) (x y : option string) :
  missing x -> varchar n x = inr y -> missing y.
Proof.
  unfold varchar. destruct x as [s |]; [| intros _ [= <-]; left; reflexivity].
  intros Hm. apply missing_spaces_only in Hm.
  destruct (_ <=? _)%nat; [intros [= <-]; apply missing_spaces_only; exact Hm |].
  destruct (Text.all_of _ (substring _ _ _)); [| discriminate].
  intros [= <-]. apply missing_spaces_only, all_of_substring. exact Hm.
Qed.

Lemma coerce_winner_name (NEW r : lottery_winner) :
  coerce NEW = inr r -> varchar 255 (winner_name NEW) = inr (winner_name r).
Proof.
  unfold coerce, bind.
  destruct (varchar 255 (prize_category NEW)); [discriminate |].
  destruct (varchar 255 (winner_name NEW)); [discriminate |].
  destruct (varchar 20 (winner_contact NEW)); [discriminate |].
  intros [= <-]. reflexivity.
Qed.

(** X15.  [handleSaveEdit] checks nothing itself; the trigger does.  When
    the name in the form is null or made of spaces only and the edited row
    is in the table, the save is refused: the table is as it was, the
    error toast is shown and the form stays open on the same winner. *)
Theorem blank_name_save_refused (now : timestamp) (fault : option string)
    (updatedData editing : WinnersPage.LotteryWinner) (st : WinnersPage.page)
    (tbl : table) (r : lottery_winner) :
  WinnersPage.editingWinner st = Some editing ->
  List.In r tbl -> id r = Some (WinnersPage.id editing) ->
  (WinnersPage.winner_name updatedData = null
   \/ exists s, WinnersPage.winner_name updatedData = value s
                /\ Text.all_of SQL.is_space s = true) ->
  WinnersPage.handleSaveEdit now fault updatedData st tbl = (save_failed st, tbl).
Proof.
  intros Hed Hin Hid Hblank.
  unfold WinnersPage.handleSaveEdit, save_failed. rewrite Hed. unfold request.
  destruct fault; [reflexivity |].
  assert (Hfail : exists e, update_row now r (WinnersPage.update_body updatedData r) = inl e).
  { unfold update_row, bind.
    destruct (coerce _) as [e | N1] eqn:Hc; [eauto |].
    apply coerce_winner_name in Hc.
    assert (Hm : missing (winner_name N1)).
    { eapply varchar_missing; [| exact Hc].
      rewrite update_body_columns. cbn [winner_name].
      destruct Hblank as [-> | (s & -> & Hs)];
        [left; reflexivity | apply missing_spaces_only; exact Hs]. }
    destruct (prevent_winner_data_loss_cases r N1)
      as [(_ & c & e & ->) | [(Hp & _) | (Hp & _)]];
      [cbn; eauto | | ]; exfalso; apply Hp; left; exact Hm. }
  destruct (UPDATE_cases now (WinnersPage.update_body updatedData)
              (WinnersPage.eq_id (WinnersPage.id editing)) tbl)
    as [(e & ->) | (tbl' & _ & Hrows)]; [reflexivity |].
  exfalso.
  destruct (update_rows_fails now (WinnersPage.update_body updatedData)
              (WinnersPage.eq_id (WinnersPage.id editing)) tbl r Hin) as (e & He).
  - apply eq_id_spec. exact Hid.
  - exact Hfail.
  - congruence.
Qed.

Lemma blank_name_save_refused_witness :
  WinnersPage.handleSaveEdit 2000 None
    {| WinnersPage.id := "w-105";
       WinnersPage.prize_category := undefined;
       WinnersPage.winner_name := value "   ";
       WinnersPage.winner_contact := undefined;
       WinnersPage.winner_address := undefined;
       WinnersPage.notes := undefined |}
    Samples.john_page [Samples.john]
  = (save_failed Samples.john_page, [Samples.john]).
Proof.
  apply (blank_name_save_refused 2000 None _ Samples.john_form Samples.john_page
           [Samples.john] Samples.john).
  - reflexivity.
  - left. reflexivity.
  - reflexivity.
  - right. exists "   ". split; reflexivity.
Defined.

Lemma update_rows_none (now : timestamp) (set : lottery_winner -> lottery_winner)
    (where_ : lottery_winner -> bool) (tbl : table) :
  Forall (fun o => where_ o = false) tbl -> update_rows now set where_ tbl = inr tbl.
Proof.
  induction 1 as [| o l Ho _ IH]; [reflexivity |].
  cbn [update_rows]. rewrite Ho, IH. reflexivity.
Qed.

(** X16.  A save for a winner that is no longer in the table (deleted in
    the meantime) is reported as successful and closes the form, though
    no row is written: an update that selects no row is no error. *)
Theorem save_of_absent_row (now : timestamp) (updatedData editing : WinnersPage.LotteryWinner)
    (st : WinnersPage.page) (tbl : table) :
  reachable tbl ->
  WinnersPage.editingWinner st = Some editing ->
  Forall (fun o => id o <> Some (WinnersPage.id editing)) tbl ->
  WinnersPage.handleSaveEdit now None updatedData st tbl = (save_done st, tbl).
Proof.
  intros Hreach Hed Habsent. apply reachable_well_kept in Hreach as [_ Hd].
  unfold WinnersPage.handleSaveEdit. rewrite Hed. unfold request, UPDATE, bind.
  rewrite update_rows_none.
  - rewrite Hd. reflexivity.
  - clear -Habsent. induction Habsent as [| o l Ho _ IH]; constructor; [| exact IH].
    destruct (WinnersPage.eq_id (WinnersPage.id editing) o) eqn:E; [| reflexivity].
    apply eq_id_spec in E. contradiction.
Qed.

Lemma save_of_absent_row_witness :
  WinnersPage.handleSaveEdit 2000 None Samples.john_form Samples.john_page []
  = (save_done Samples.john_page, []).
Proof.
  apply (save_of_absent_row 2000 Samples.john_form Samples.john_form Samples.john_page []).
  - apply reach_empty.
  - reflexivity.
  - constructor.
Defined.

(** X17.  [handleDelete]: without the confirmation nothing happens, not
    even a toast.  With it and a working transport, the table keeps, in
    their order, exactly the rows with another id, and a success toast is
    shown, also when no row had the id; in a table the write paths can
    produce at most one row goes.  When the request fails the table is as
    it was and an error toast is shown. *)
Theorem handleDelete_outcomes (winnerId : string) (st : WinnersPage.page) (tbl : table) :
  (forall fault, handleDelete false fault winnerId st tbl = (st, tbl))
  /\ (let '(st', tbl') := handleDelete true None winnerId st tbl in
      tbl' = List.filter (fun r => negb (WinnersPage.eq_id winnerId r)) tbl
      /\ Forall (fun r => id r <> Some winnerId) tbl'
      /\ (forall r, List.In r tbl -> id r <> Some winnerId -> List.In r tbl')
      /\ WinnersPage.toasts st'
         = (WinnersPage.toasts st
            ++ [WinnersPage.toast_success "Winner entry deleted successfully"])%list
      /\ (reachable tbl -> (List.length tbl <= S (List.length tbl'))%nat /\ reachable tbl'))
  /\ (forall m, let '(st', tbl') := handleDelete true (Some m) winnerId st tbl in
       tbl' = tbl
       /\ WinnersPage.toasts st'
          = (WinnersPage.toasts st
             ++ [WinnersPage.toast_error "Failed to delete winner entry"])%list).
Proof.
  split; [reflexivity | split; [| intros m; split; reflexivity]].
  cbn. split; [reflexivity | split; [| split; [| split; [reflexivity |]]]].
  - induction tbl as [| r tbl IH]; cbn [List.filter]; [constructor |].
    destruct (WinnersPage.eq_id winnerId r) eqn:E; cbn [negb]; [exact IH |].
    constructor; [| exact IH]. intros H. apply eq_id_spec in H. congruence.
  - intros r Hin Hid. apply List.filter_In. split; [exact Hin |].
    destruct (WinnersPage.eq_id winnerId r) eqn:E; [| reflexivity].
    apply eq_id_spec in E. contradiction.
  - intros Hreach. split.
    + apply reachable_well_kept in Hreach. destruct (well_kept_distinct tbl Hreach) as [_ Hnd].
      clear Hreach. induction tbl as [| r tbl IH]; [cbn; lia |].
      cbn [List.map] in Hnd. inversion Hnd as [| ? ? Hr Hnd']; subst.
      cbn [List.filter]. destruct (WinnersPage.eq_id winnerId r) eqn:E; cbn [negb List.length].
      * apply eq_id_spec in E.
        assert (Hall : List.filter (fun o => negb (WinnersPage.eq_id winnerId o)) tbl = tbl).
        { clear IH Hnd Hnd'. induction tbl as [| o tbl IHt]; [reflexivity |].
          cbn [List.filter]. destruct (WinnersPage.eq_id winnerId o) eqn:Eo; cbn [negb].
          - exfalso. apply eq_id_spec in Eo. apply Hr. cbn [List.map].
            left. congruence.
          - f_equal. apply IHt. intros Hin. apply Hr. right. exact Hin. }
        rewrite Hall. lia.
      * specialize (IH Hnd'). lia.
    + exact (reach_delete (WinnersPage.eq_id winnerId) tbl Hreach).
Qed.

Lemma handleDelete_outcomes_witness :
  (List.length [Samples.john]
   <= S (List.length (snd (handleDelete true None "w-105" Samples.john_page [Samples.john]))))%nat
  /\ reachable (snd (handleDelete true None "w-105" Samples.john_page [Samples.john])).
Proof.
  pose proof (handleDelete_outcomes "w-105" Samples.john_page [Samples.john])
    as (_ & Hdone & _).
  destruct (handleDelete true None "w-105" Samples.john_page [Samples.john])
    as [st' tbl'] eqn:E.
  destruct Hdone as (_ & _ & _ & _ & Hreach). cbn [snd]. apply Hreach.
  change [Samples.john] with (snd (INSERT "w-105" 1000 Samples.john_values [])).
  apply reach_insert, reach_empty.
Defined.








End EditMore.

(* ===================================================================== *)
(** * Looking a ticket up by its number *)
(* ===================================================================== *)

Section LookupFacts.
Import Numbering Lookup.

Lemma digit_not_white (c : ascii) :
  RegExp.is_digit_char c = true -> JS.is_white_space c = false.
Proof.
  destruct c as [[] [] [] [] [] [] [] []]; vm_compute; intros H;
    first [reflexivity | discriminate].
Qed.

Lemma drop_trailing_keeps_head (strip : ascii -> bool) (c : ascii) (rest : string) :
  strip c = false ->
  exists kept, Text.drop_trailing strip (String c rest) = String c kept.
Proof.
  intros Hc. cbn [Text.drop_trailing]. rewrite Hc.
  destruct (Text.drop_trailing strip rest); eauto.
Qed.

Lemma trimEnd_digits (s : string) : RegExp.all_digits s = true -> JS.trimEnd s = s.
Proof.
  unfold JS.trimEnd. induction s as [| c s IH]; [reflexivity |].
  cbn [RegExp.all_digits Text.drop_trailing]. intros H.
  apply andb_true_iff in H as [Hc Hs]. rewrite (IH Hs), (digit_not_white c Hc).
  destruct s; reflexivity.
Qed.

(** [trim] leaves a string of digits as it is. *)
Lemma trim_digits (s : string) : RegExp.all_digits s = true -> JS.trim s = s.
Proof.
  intros H. unfold JS.trim.
  assert (Hstart : JS.trimStart s = s).
  { destruct s as [| c s]; [reflexivity |]. unfold JS.trimStart.
    cbn [RegExp.all_digits] in H. apply andb_true_iff in H as [Hc _].
    cbn [Text.drop_leading]. rewrite (digit_not_white c Hc). reflexivity. }
  rewrite Hstart. apply trimEnd_digits, H.
Qed.

Lemma some_digits_spec (s : string) :
  RegExp.some_digits s = true <-> s <> "" /\ RegExp.all_digits s = true.
Proof.
  unfold RegExp.some_digits. rewrite andb_true_iff, negb_true_iff, Nat.eqb_neq.
  destruct s as [| c s]; cbn [String.length].
  - split; intros [H1 H2]; exfalso; apply H1; reflexivity.
  - split; intros [H1 H2]; (split; [| exact H2]); [discriminate | lia].
Qed.

Lemma five_digits_some (s : string) :
  RegExp.five_digits s = true -> RegExp.some_digits s = true.
Proof.
  unfold RegExp.five_digits, RegExp.some_digits. rewrite !andb_true_iff.
  intros [Hlen Hd]. apply Nat.eqb_eq in Hlen. rewrite Hlen. split; [reflexivity | exact Hd].
Qed.

(** [parseInt] of one digit or more is the decimal value of the digits. *)
Lemma parseInt10_digits (s : string) :
  RegExp.some_digits s = true ->
  JS.parseInt10 s = Some (JS.decimal_value (JS.digit_prefix s))
  /\ 0 <= JS.decimal_value (JS.digit_prefix s).
Proof.
  intros H. apply some_digits_spec in H as [Hne Hd].
  destruct (all_digits_render s Hd) as (Hr & Hf & Hl).
  split; [| apply decimal_value_bound, Hf].
  rewrite <- Hr at 1. apply parseInt10_render; [| exact Hf].
  intros E. rewrite E in Hl. destruct s; [congruence | discriminate].
Qed.

(** The answer to a term made of digits. *)
Lemma quick_search_digits (s : string) :
  RegExp.some_digits s = true ->
  handleQuickSearch s =
    let n := JS.decimal_value (JS.digit_prefix s) in
    if (n <? 1) || (39999 <? n)
    then refused "Lottery number must be between 00001 and 39999"
    else asked (Some n).
Proof.
  intros H. destruct (parseInt10_digits s H) as [Hp _].
  pose proof H as H'. apply some_digits_spec in H' as [Hne Hd].
  unfold handleQuickSearch. rewrite (trim_digits s Hd).
  destruct (String.eqb_spec s ""); [contradiction |].
  unfold parseLotteryNumber. rewrite H, Hp.
  destruct ((String.length s =? 5)%nat && RegExp.five_digits s); reflexivity.
Qed.

(** The answer to a term that is not made of digits. *)
Lemma quick_search_other (s : string) :
  RegExp.some_digits s = false -> exists text, handleQuickSearch s = refused text.
Proof.
  intros H. unfold handleQuickSearch.
  destruct (String.eqb _ ""); [eauto |].
  destruct (RegExp.five_digits s) eqn:H5; [apply five_digits_some in H5; congruence |].
  rewrite andb_false_r, H. eauto.
Qed.

(** X18.  The quick search makes its request exactly for the terms that
    consist of decimal digits, one or more, with a value from 1 to 39999,
    and makes it with that value: leading zeros are accepted at any
    length, a term with a space, a sign or any other character is
    refused, and [NaN] never reaches the request. *)
Theorem quick_search_asks (s : string) (r : option Z) :
  handleQuickSearch s = asked r <->
  RegExp.some_digits s = true
  /\ r = Some (JS.decimal_value (JS.digit_prefix s))
  /\ 1 <= JS.decimal_value (JS.digit_prefix s) <= 39999.
Proof.
  split.
  - intros H. destruct (RegExp.some_digits s) eqn:Hd.
    + rewrite (quick_search_digits s Hd) in H. cbv zeta in H.
      destruct (Z.ltb_spec (JS.decimal_value (JS.digit_prefix s)) 1);
        destruct (Z.ltb_spec 39999 (JS.decimal_value (JS.digit_prefix s)));
        cbn [orb] in H; try discriminate.
      injection H as <-. repeat split; lia.
    + destruct (quick_search_other s Hd) as (text & Ht). congruence.
  - intros (Hd & -> & Hn). rewrite (quick_search_digits s Hd). cbv zeta.
    destruct (Z.ltb_spec (JS.decimal_value (JS.digit_prefix s)) 1); [lia |].
    destruct (Z.ltb_spec 39999 (JS.decimal_value (JS.digit_prefix s))); [lia |].
    reflexivity.
Qed.

Lemma render_all_digits (ds : list Z) :
  Forall JS.is_digit ds -> RegExp.all_digits (JS.render ds) = true.
Proof.
  induction 1 as [| d ds Hd _ IH]; [reflexivity |].
  change (JS.render (d :: ds)) with (String (JS.digit_char d) (JS.render ds)).
  cbn [RegExp.all_digits]. rewrite IH, andb_true_r.
  unfold JS.is_digit in Hd.
  assert (d = 0 \/ d = 1 \/ d = 2 \/ d = 3 \/ d = 4 \/ d = 5 \/ d = 6 \/ d = 7
          \/ d = 8 \/ d = 9) as Hc by lia.
  repeat destruct Hc as [-> | Hc]; try subst d; reflexivity.
Qed.

Lemma quick_search_render (ds : list Z) :
  ds <> [] -> Forall JS.is_digit ds -> 1 <= JS.decimal_value ds <= 39999 ->
  handleQuickSearch (JS.render ds) = asked (Some (JS.decimal_value ds)).
Proof.
  intros Hne Hf Hn.
  assert (Hd : RegExp.some_digits (JS.render ds) = true).
  { apply some_digits_spec. split; [| apply render_all_digits, Hf].
    destruct ds as [| d ds]; [contradiction | discriminate]. }
  rewrite (quick_search_digits _ Hd). cbv zeta.
  rewrite (digit_prefix_render ds Hf).
  destruct (Z.ltb_spec (JS.decimal_value ds) 1); [lia |].
  destruct (Z.ltb_spec 39999 (JS.decimal_value ds)); [lia |]. reflexivity.
Qed.

(** X19.  The quick search finds a ticket under both spellings of its
    number: the five-digit form that the pages show and the plain
    decimal form give the request for the same number. *)
Theorem quick_search_reads_both_forms (n : Z) :
  1 <= n <= 39999 ->
  handleQuickSearch (formatLotteryNumber n) = asked (Some n)
  /\ handleQuickSearch (JS.toString n) = asked (Some n).
Proof.
  intros Hn. split.
  - rewrite formatLotteryNumber_digits by lia.
    assert (Hv : JS.decimal_value
                   (repeat 0 (5 - List.length (JS.decimal_digits n)) ++ JS.decimal_digits n)
                 = n)
      by (rewrite decimal_value_leading_zeros, decimal_value_decimal_digits by lia;
          reflexivity).
    rewrite quick_search_render.
    + rewrite Hv. reflexivity.
    + intros E. apply app_eq_nil in E as [_ E]. exact (decimal_digits_not_nil n E).
    + apply Forall_app. split; [apply zeros_are_digits | apply decimal_digits_are_digits; lia].
    + rewrite Hv. exact Hn.
  - unfold JS.toString. destruct (Z.ltb_spec n 0); [lia |].
    pose proof (decimal_value_decimal_digits n ltac:(lia)) as Hv.
    rewrite quick_search_render.
    + rewrite Hv. reflexivity.
    + apply decimal_digits_not_nil.
    + apply decimal_digits_are_digits. lia.
    + rewrite Hv. exact Hn.
Qed.

Lemma quick_search_reads_both_forms_witness :
  handleQuickSearch (formatLotteryNumber 5) = asked (Some 5)
  /\ handleQuickSearch (JS.toString 5) = asked (Some 5).
Proof. apply (quick_search_reads_both_forms 5). lia. Defined.

Lemma parseInt10_other_head (c : ascii) (rest : string) :
  JS.is_white_space c = false -> JS.digit_value c = None ->
  c <> "-"%char -> c <> "+"%char ->
  JS.parseInt10 (String c rest) = None.
Proof.
  intros Hw Hd Hm Hp. unfold JS.parseInt10, JS.trimStart.
  cbn [Text.drop_leading]. rewrite Hw.
  destruct c as [[] [] [] [] [] [] [] []];
    try discriminate Hd; try (exfalso; apply Hm; reflexivity);
    try (exfalso; apply Hp; reflexivity);
    cbn [JS.digit_prefix]; rewrite Hd; reflexivity.
Qed.

(** X20.  The search of the ticket sales page is laxer than the quick
    search.  It answers every term the quick search accepts with the same
    request; it reads past white space around the term; and it checks no
    pattern, so a term that starts with a character that is neither a
    digit, a sign nor white space gives [NaN], which passes the range
    check and goes into the request.  A number it asks for is from 1 to
    39999. *)
Theorem ticket_search_is_laxer :
  (forall s r, handleQuickSearch s = asked r -> handleTicketSearch s = asked r)
  /\ (forall s, JS.trim s <> "" -> handleTicketSearch s = handleTicketSearch (JS.trim s))
  /\ (forall c rest,
        JS.is_white_space c = false -> JS.digit_value c = None ->
        c <> "-"%char -> c <> "+"%char ->
        handleTicketSearch (String c rest) = asked None)
  /\ (forall s n, handleTicketSearch s = asked (Some n) -> 1 <= n <= 39999).
Proof.
  split; [| split; [| split]].
  - intros s r H. destruct (RegExp.some_digits s) eqn:Hd.
    + rewrite (quick_search_digits s Hd) in H. rewrite <- H.
      destruct (parseInt10_digits s Hd) as [Hp _].
      apply some_digits_spec in Hd as [Hne Hd].
      unfold handleTicketSearch, parseLotteryNumber. rewrite (trim_digits s Hd), Hp.
      destruct (String.eqb_spec s ""); [contradiction | reflexivity].
    + destruct (quick_search_other s Hd) as (text & Ht). congruence.
  - intros s Hne. unfold handleTicketSearch.
    assert (Hidem : JS.trim (JS.trim s) = JS.trim s).
    { destruct (drop_both_stripped JS.is_white_space s) as (_ & Hs & He).
      change (Text.drop_trailing JS.is_white_space (Text.drop_leading JS.is_white_space s))
        with (JS.trim s) in Hs, He.
      unfold JS.trim at 1. unfold JS.trimStart, JS.trimEnd.
      rewrite (drop_leading_clean _ _ Hs). apply drop_trailing_clean, He. }
    rewrite Hidem. reflexivity.
  - intros c rest Hw Hd Hm Hp. unfold handleTicketSearch, JS.trim, JS.trimStart, JS.trimEnd.
    cbn [Text.drop_leading]. rewrite Hw.
    destruct (drop_trailing_keeps_head JS.is_white_space c rest Hw) as (kept & ->).
    cbn [String.eqb]. unfold parseLotteryNumber.
    rewrite (parseInt10_other_head c kept Hw Hd Hm Hp). reflexivity.
  - intros s n. unfold handleTicketSearch.
    destruct (String.eqb _ ""); [discriminate |].
    destruct (parseLotteryNumber (JS.trim s)) as [m |]; cbn [lt gt]; [| discriminate].
    destruct (Z.ltb_spec m 1); destruct (Z.ltb_spec 39999 m); cbn [orb];
      try discriminate.
    intros [= <-]. lia.
Qed.

Lemma ticket_search_is_laxer_witness :
  handleTicketSearch "5" = asked (Some 5)
  /\ handleTicketSearch " 5 " = handleTicketSearch "5"
  /\ handleTicketSearch "abc" = asked None.
Proof.
  split; [| split].
  - apply (proj1 ticket_search_is_laxer). reflexivity.
  - apply (proj1 (proj2 ticket_search_is_laxer) " 5 "). discriminate.
  - apply (proj1 (proj2 (proj2 ticket_search_is_laxer))); [reflexivity | reflexivity | | ];
      discriminate.
Defined.

End LookupFacts.

(* ===================================================================== *)
(** * Reading a table page by page: every row, once *)
(* ===================================================================== *)

Section PagingFacts.
Import Supabase Paging.
Context {A : Type}.
Variable rows : list A.
Variable range : nat -> nat -> response (list A).

(** The table does not change while it is read: every request is
    answered from the same rows. *)
Hypothesis range_slices :
  forall from, range from (from + pageSize - 1) = inr (slice rows from (from + pageSize - 1)).

Lemma pageSize_positive : (0 < pageSize)%nat.
Proof. unfold pageSize. lia. Qed.

Lemma page_of_rows (from : nat) :
  range from (from + pageSize - 1) = inr (firstn pageSize (skipn from rows)).
Proof.
  rewrite range_slices. unfold slice. pose proof pageSize_positive.
  replace (S (from + pageSize - 1) - from)%nat with pageSize by lia. reflexivity.
Qed.

Lemma div_pageSize_step (m : nat) : ((pageSize + m) / pageSize = S (m / pageSize))%nat.
Proof.
  pose proof pageSize_positive.
  replace (pageSize + m)%nat with (1 * pageSize + m)%nat by lia.
  rewrite Nat.div_add_l by lia. reflexivity.
Qed.

Lemma skipn_next (from : nat) :
  skipn (from + pageSize) rows = skipn pageSize (skipn from rows).
Proof. rewrite skipn_skipn. f_equal. lia. Qed.

Lemma fetch_pages_rest (fuel from : nat) (all : list A) :
  (List.length (skipn from rows) / pageSize < fuel)%nat ->
  fetch_pages range fuel all from = Some (inr (all ++ skipn from rows)%list).
Proof.
  pose proof pageSize_positive as Hp.
  revert from all. induction fuel as [| fuel IH]; intros from all Hfuel; [lia |].
  cbn [fetch_pages]. rewrite page_of_rows.
  pose proof (length_firstn pageSize (skipn from rows)) as Hlen.
  destruct (Nat.ltb_spec 0 (List.length (firstn pageSize (skipn from rows)))) as [Hpos | Hzero].
  - destruct (Nat.eqb_spec (List.length (firstn pageSize (skipn from rows))) pageSize)
      as [Hfull | Hshort].
    + rewrite IH.
      * rewrite skipn_next, <- app_assoc, firstn_skipn. reflexivity.
      * rewrite skipn_next, length_skipn.
        assert (Hge : (pageSize <= List.length (skipn from rows))%nat) by lia.
        replace (List.length (skipn from rows))
          with (pageSize + (List.length (skipn from rows) - pageSize))%nat in Hfuel by lia.
        rewrite div_pageSize_step in Hfuel. lia.
    + rewrite firstn_all2 by lia. reflexivity.
  - assert (Hnil : skipn from rows = []) by (apply length_zero_iff_nil; lia).
    rewrite Hnil, app_nil_r. reflexivity.
Qed.

Lemma fetch_pages_short (fuel from : nat) (all : list A) :
  (fuel <= List.length (skipn from rows) / pageSize)%nat ->
  fetch_pages range fuel all from = None.
Proof.
  pose proof pageSize_positive as Hp.
  revert from all. induction fuel as [| fuel IH]; intros from all Hfuel; [reflexivity |].
  cbn [fetch_pages]. rewrite page_of_rows.
  assert (Hge : (pageSize <= List.length (skipn from rows))%nat).
  { destruct (Nat.le_gt_cases pageSize (List.length (skipn from rows))) as [H | H];
      [exact H |].
    rewrite (Nat.div_small _ _ H) in Hfuel. lia. }
  pose proof (length_firstn pageSize (skipn from rows)) as Hlen.
  destruct (Nat.ltb_spec 0 (List.length (firstn pageSize (skipn from rows)))); [| lia].
  destruct (Nat.eqb_spec (List.length (firstn pageSize (skipn from rows))) pageSize); [| lia].
  apply IH. rewrite skipn_next, length_skipn.
  replace (List.length (skipn from rows))
    with (pageSize + (List.length (skipn from rows) - pageSize))%nat in Hfuel by lia.
  rewrite div_pageSize_step in Hfuel. lia.
Qed.

(** X21.  The loop of [getMissingTickets] and [fetchWinners], on a table
    that does not change while it is read: it ends and returns every row,
    once and in the order of the query, after one request more than the
    table has full pages, so also after a last, empty page when the
    number of rows is a multiple of the page size. *)
Theorem pagination_collects_every_row :
  (forall fuel, (List.length rows / pageSize < fuel)%nat ->
                fetch_pages range fuel [] 0%nat = Some (inr rows))
  /\ (forall fuel, (fuel <= List.length rows / pageSize)%nat ->
                   fetch_pages range fuel [] 0%nat = None).
Proof.
  split; intros fuel Hfuel.
  - rewrite fetch_pages_rest; [reflexivity | exact Hfuel].
  - apply fetch_pages_short. exact Hfuel.
Qed.

End PagingFacts.

Lemma pagination_collects_every_row_witness :
  Paging.fetch_pages (fun from to_ => inr (Paging.slice [7; 8; 9] from to_)) 1 [] 0%nat
  = Some (inr [7; 8; 9]).
Proof.
  apply (pagination_collects_every_row [7; 8; 9]
           (fun from to_ => inr (Paging.slice [7; 8; 9] from to_))).
  - intros from. reflexivity.
  - apply Nat.lt_succ_r. apply Nat.eq_le_incl. reflexivity.
Defined.

(* ===================================================================== *)
(** * The tickets not sold yet *)
(* ===================================================================== *)

Section MissingFacts.
Import Numbering Supabase Missing.

Local Abbreviation ticket_of :=
  (fun num => {| lottery_number := num; diary_number := getDiaryFromLotteryNumber num |}).

Local Abbreviation entry_of :=
  (fun e : Z * list Z =>
     {| group_diary_number := fst e;
        missing_count := Z.of_nat (List.length (snd e));
        missing_numbers := snd e |}).

(** Sorting what is in order changes nothing. *)
Lemma sort_sorted {A : Type} (key : A -> Z) (l : list A) :
  StronglySorted Z.le (List.map key l) -> sort key l = l.
Proof.
  induction l as [| x l IH]; [reflexivity |].
  cbn [List.map]. intros H. apply StronglySorted_inv in H as [Hs Hf].
  unfold sort. cbn [List.fold_right]. fold (sort key l). rewrite (IH Hs).
  destruct l as [| y l']; [reflexivity |].
  cbn [place]. cbn [List.map] in Hf. inversion Hf as [| ? ? Hxy _]; subst.
  destruct (Z.leb_spec (key x) (key y)); [reflexivity | lia].
Qed.

Lemma sorted_lt_le (l : list Z) : StronglySorted Z.lt l -> StronglySorted Z.le l.
Proof.
  induction 1 as [| a l _ IH Hf]; constructor; [exact IH |].
  eapply List.Forall_impl; [| exact Hf]. intros b Hb. lia.
Qed.

Lemma sorted_filter {A : Type} (R : A -> A -> Prop) (f : A -> bool) (l : list A) :
  StronglySorted R l -> StronglySorted R (List.filter f l).
Proof.
  induction 1 as [| a l _ IH Hf]; cbn [List.filter]; [constructor |].
  destruct (f a); [| exact IH]. constructor; [exact IH |].
  apply List.Forall_forall. intros x Hx. apply List.filter_In in Hx as [Hx _].
  rewrite List.Forall_forall in Hf. exact (Hf x Hx).
Qed.

Lemma sorted_snoc {A : Type} (R : A -> A -> Prop) (l : list A) (x : A) :
  StronglySorted R l -> Forall (fun y => R y x) l -> StronglySorted R (l ++ [x]).
Proof.
  induction 1 as [| a l _ IH Hf]; intros Hx; cbn [app].
  - constructor; constructor.
  - inversion Hx as [| ? ? Hax Hlx]; subst. constructor; [exact (IH Hlx) |].
    apply List.Forall_app. split; [exact Hf | constructor; [exact Hax | constructor]].
Qed.

Lemma sorted_app_inv {A : Type} (R : A -> A -> Prop) (l1 l2 : list A) :
  StronglySorted R (l1 ++ l2) ->
  StronglySorted R l1 /\ StronglySorted R l2
  /\ Forall (fun x => Forall (R x) l2) l1.
Proof.
  induction l1 as [| a l1 IH]; cbn [app]; intros H.
  - repeat split; [constructor | exact H | constructor].
  - apply StronglySorted_inv in H as [Hs Hf]. destruct (IH Hs) as (H1 & H2 & H3).
    apply List.Forall_app in Hf as [Hf1 Hf2].
    repeat split; [constructor; assumption | exact H2 | constructor; assumption].
Qed.

Lemma numbers_from_sorted (len start : nat) :
  StronglySorted Z.lt (List.map (fun i => Z.of_nat i + 1) (List.seq start len)).
Proof.
  revert start. induction len as [| len IH]; intros start; cbn [List.seq List.map];
    constructor; [apply IH |].
  apply List.Forall_forall. intros x Hx. apply List.in_map_iff in Hx as (i & <- & Hi).
  apply List.in_seq in Hi. lia.
Qed.

Lemma in_allNumbers (n : Z) : List.In n allNumbers <-> 1 <= n <= 39999.
Proof.
  unfold allNumbers. rewrite List.in_map_iff. split.
  - intros (i & <- & Hi). apply List.in_seq in Hi. lia.
  - intros Hn. exists (Z.to_nat (n - 1)). split; [lia | apply List.in_seq; lia].
Qed.

Lemma length_allNumbers : Z.of_nat (List.length allNumbers) = 39999.
Proof. unfold allNumbers. rewrite List.length_map, List.length_seq. lia. Qed.

(** The numbers of the tickets reported. *)
Lemma missing_numbers_of (ex : list Z) :
  List.map lottery_number (missing_tickets (missing_among ex))
  = List.filter (fun num => negb (bool_decide (num ∈ (list_to_set ex : gset Z)))) allNumbers.
Proof.
  unfold missing_among. cbn [missing_tickets]. rewrite List.map_map.
  cbn [lottery_number]. apply List.map_id.
Qed.

Lemma missing_tickets_of (ex : list Z) :
  missing_tickets (missing_among ex)
  = List.map ticket_of (List.map lottery_number (missing_tickets (missing_among ex))).
Proof.
  rewrite missing_numbers_of. reflexivity.
Qed.

Lemma missing_number_spec (ex : list Z) (n : Z) :
  List.In n (List.map lottery_number (missing_tickets (missing_among ex)))
  <-> 1 <= n <= 39999 /\ ~ List.In n ex.
Proof.
  rewrite missing_numbers_of, List.filter_In, in_allNumbers, negb_true_iff,
    bool_decide_eq_false, elem_of_list_to_set, list_elem_of_In.
  reflexivity.
Qed.

Lemma missing_numbers_sorted (ex : list Z) :
  StronglySorted Z.lt (List.map lottery_number (missing_tickets (missing_among ex))).
Proof. rewrite missing_numbers_of. apply sorted_filter, numbers_from_sorted. Qed.

(** X22.  The tickets [getMissingTickets] reports, for any rows fetched:
    a ticket is reported exactly when its number is from 1 to 39999 and no
    row has it, with the diary that [getDiaryFromLotteryNumber] gives,
    which is from 1 to 1819 and whose range holds the number; the tickets
    come in ascending order of their numbers, each once, and there are at
    most 39999. *)
Theorem missing_tickets_complete (ex : list Z) :
  let r := missing_among ex in
  (forall n d,
     List.In {| lottery_number := n; diary_number := d |} (missing_tickets r)
     <-> 1 <= n <= 39999 /\ ~ List.In n ex /\ d = getDiaryFromLotteryNumber n)
  /\ StronglySorted Z.lt (List.map lottery_number (missing_tickets r))
  /\ Forall (fun t =>
               1 <= diary_number t <= 1819
               /\ validateLotteryNumberForDiary (lottery_number t) (diary_number t) = true)
            (missing_tickets r)
  /\ total_missing r = Z.of_nat (List.length (missing_tickets r))
  /\ 0 <= total_missing r <= 39999.
Proof.
  intros r. subst r. split; [| split; [| split; [| split]]].
  - intros n d. rewrite missing_tickets_of, List.in_map_iff. split.
    + intros (m & [= <- <-] & Hm). apply missing_number_spec in Hm. tauto.
    + intros (Hn & Hex & ->). exists n. split; [reflexivity |].
      apply missing_number_spec. tauto.
  - apply missing_numbers_sorted.
  - apply List.Forall_forall. intros t Ht. rewrite missing_tickets_of in Ht.
    apply List.in_map_iff in Ht as (n & <- & Hn). apply missing_number_spec in Hn as [Hn _].
    cbn [lottery_number diary_number]. split; [apply diary_in_bounds, Hn |].
    apply validate_iff_contains, diary_holds_ticket. lia.
  - reflexivity.
  - unfold missing_among. cbn [total_missing]. rewrite List.length_map.
    pose proof (List.filter_length_le
                  (fun num => negb (bool_decide (num ∈ (list_to_set ex : gset Z)))) allNumbers).
    pose proof length_allNumbers. lia.
Qed.

Local Abbreviation grouped m ns :=
  (StronglySorted Z.lt (List.map fst m)
   /\ List.concat (List.map snd m) = ns
   /\ Forall (fun e : Z * list Z =>
                snd e <> []
                /\ Forall (fun n => getDiaryFromLotteryNumber n = fst e) (snd e)) m).

Lemma Map_has_below (d : Z) (m : NumberMap) :
  Forall (fun e => fst e < d) m -> Map_has d m = false.
Proof.
  unfold Map_has. induction 1 as [| e m He _ IH]; [reflexivity |].
  cbn [existsb]. rewrite IH, orb_false_r. apply Z.eqb_neq. lia.
Qed.

Lemma Map_push_below (d x : Z) (m : NumberMap) :
  Forall (fun e => fst e < d) m -> Map_push d x m = m.
Proof.
  unfold Map_push. induction 1 as [| e m He _ IH]; [reflexivity |].
  cbn [List.map]. rewrite IH. destruct (Z.eqb_spec (fst e) d); [lia | reflexivity].
Qed.

(** In a map with ascending keys, none above [d], the key [d] can only
    be the last. *)
Lemma last_key (d : Z) (m : NumberMap) :
  StronglySorted Z.lt (List.map fst m) -> Forall (fun e => fst e <= d) m ->
  Forall (fun e => fst e < d) m
  \/ exists m0 l, m = (m0 ++ [(d, l)])%list /\ Forall (fun e => fst e < d) m0.
Proof.
  destruct m as [| e0 m'] using List.rev_ind; [left; constructor |].
  clear IHm'. rename m' into m0. rename e0 into e.
  rewrite List.map_app. cbn [List.map]. intros Hs Hle.
  apply sorted_app_inv in Hs as (_ & _ & Hbefore).
  apply List.Forall_app in Hle as [Hle0 Hle].
  inversion Hle as [| ? ? He _]; subst.
  assert (Hlt : Forall (fun e' => fst e' < fst e) m0).
  { apply List.Forall_forall. intros e' He'.
    rewrite List.Forall_forall in Hbefore.
    specialize (Hbefore (fst e') (List.in_map fst _ _ He')).
    inversion Hbefore; subst. assumption. }
  destruct (Z.eq_dec (fst e) d) as [E | E].
  - right. exists m0, (snd e). destruct e as [k l]. cbn [fst snd] in *. subst k.
    split; [reflexivity | exact Hlt].
  - left. apply List.Forall_app. split.
    + eapply List.Forall_impl; [| exact Hlt]. cbn. intros; lia.
    + constructor; [lia | constructor].
Qed.

(** What [forEach] does with one more ticket. *)
Lemma group_ticket_sorted (m : NumberMap) (n : Z) :
  StronglySorted Z.lt (List.map fst m) ->
  Forall (fun e => fst e <= getDiaryFromLotteryNumber n) m ->
  (Forall (fun e => fst e < getDiaryFromLotteryNumber n) m
   /\ group_ticket m (ticket_of n) = (m ++ [(getDiaryFromLotteryNumber n, [n])])%list)
  \/ exists m0 l,
       m = (m0 ++ [(getDiaryFromLotteryNumber n, l)])%list
       /\ Forall (fun e => fst e < getDiaryFromLotteryNumber n) m0
       /\ group_ticket m (ticket_of n)
          = (m0 ++ [(getDiaryFromLotteryNumber n, (l ++ [n])%list)])%list.
Proof.
  intros Hs Hle. unfold group_ticket. cbn [diary_number lottery_number].
  set (d := getDiaryFromLotteryNumber n) in *.
  destruct (last_key d m Hs Hle) as [Hlt | (m0 & l & -> & Hlt)].
  - left. split; [exact Hlt |].
    rewrite (Map_has_below d m Hlt). cbn [negb]. unfold Map_set.
    rewrite (Map_has_below d m Hlt). unfold Map_push. rewrite List.map_app.
    fold (Map_push d n m). rewrite (Map_push_below d n m Hlt).
    cbn [List.map fst snd]. rewrite Z.eqb_refl. reflexivity.
  - right. exists m0, l. split; [reflexivity | split; [exact Hlt |]].
    assert (Hhas : Map_has d (m0 ++ [(d, l)])%list = true).
    { unfold Map_has. rewrite List.existsb_app. cbn [existsb fst].
      rewrite Z.eqb_refl, orb_true_r. reflexivity. }
    rewrite Hhas. cbn [negb]. unfold Map_push. rewrite List.map_app.
    fold (Map_push d n m0). rewrite (Map_push_below d n m0 Hlt).
    cbn [List.map fst snd]. rewrite Z.eqb_refl. reflexivity.
Qed.

Lemma group_ticket_keeps (m : NumberMap) (ns : list Z) (n : Z) :
  grouped m ns ->
  Forall (fun k => getDiaryFromLotteryNumber k <= getDiaryFromLotteryNumber n) ns ->
  grouped (group_ticket m (ticket_of n)) (ns ++ [n])%list.
Proof.
  intros (Hs & Hc & Hg) Hns.
  assert (Hle : Forall (fun e => fst e <= getDiaryFromLotteryNumber n) m).
  { subst ns. clear Hs. induction Hg as [| e m [Hne He] _ IH]; [constructor |].
    cbn [List.map List.concat] in Hns. apply List.Forall_app in Hns as [Hn1 Hn2].
    constructor; [| exact (IH Hn2)].
    destruct (snd e) as [| k l]; [contradiction |].
    inversion He as [| ? ? Hk _]; subst. inversion Hn1 as [| ? ? Hk' _]; subst. lia. }
  destruct (group_ticket_sorted m n Hs Hle) as [(Hlt & ->) | (m0 & l & -> & Hlt & ->)].
  - rewrite !List.map_app, List.concat_app. cbn [List.map List.concat fst snd].
    rewrite Hc, List.app_nil_r. split; [| split; [reflexivity |]].
    + apply sorted_snoc; [exact Hs |]. apply List.Forall_map. exact Hlt.
    + apply List.Forall_app. split; [exact Hg |].
      constructor; [| constructor]. cbn [fst snd].
      split; [discriminate | constructor; [reflexivity | constructor]].
  - rewrite !List.map_app, List.concat_app in *. cbn [List.map List.concat fst snd] in *.
    rewrite List.app_nil_r in *. apply List.Forall_app in Hg as [Hg0 Hg1].
    inversion Hg1 as [| ? ? [_ Hl] _]; subst. cbn [fst snd] in Hl.
    split; [exact Hs | split; [rewrite List.app_assoc; reflexivity |]].
    apply List.Forall_app. split; [exact Hg0 |].
    constructor; [| constructor]. cbn [fst snd]. split.
    + destruct l; discriminate.
    + apply List.Forall_app. split; [exact Hl | constructor; [reflexivity | constructor]].
Qed.

(** Grouping numbers that come in ascending order. *)
Lemma group_all (nums : list Z) (m : NumberMap) (ns : list Z) :
  grouped m ns -> StronglySorted Z.le (ns ++ nums) ->
  grouped (List.fold_left group_ticket (List.map ticket_of nums) m) (ns ++ nums)%list.
Proof.
  revert m ns. induction nums as [| n nums IH]; intros m ns Hg Hs.
  - rewrite List.app_nil_r. exact Hg.
  - cbn [List.map List.fold_left].
    replace (ns ++ n :: nums)%list with ((ns ++ [n]) ++ nums)%list
      by (rewrite <- List.app_assoc; reflexivity).
    apply IH.
    + apply group_ticket_keeps; [exact Hg |].
      apply sorted_app_inv in Hs as (_ & _ & Hb).
      eapply List.Forall_impl; [| exact Hb]. cbn. intros k Hk.
      inversion Hk; subst. apply diary_monotone. assumption.
    + rewrite <- List.app_assoc. exact Hs.
Qed.

Lemma grouped_missing (ex : list Z) :
  grouped (List.fold_left group_ticket (missing_tickets (missing_among ex)) [])
          (List.map lottery_number (missing_tickets (missing_among ex))).
Proof.
  assert (H : grouped
                (List.fold_left group_ticket
                   (List.map ticket_of
                      (List.map lottery_number (missing_tickets (missing_among ex)))) [])
                (List.map lottery_number (missing_tickets (missing_among ex)))).
  { apply (group_all _ [] []).
    - repeat split; constructor.
    - apply sorted_lt_le, missing_numbers_sorted. }
  rewrite <- missing_tickets_of in H. exact H.
Qed.

Lemma concat_sorted {A : Type} (R : A -> A -> Prop) (ls : list (list A)) :
  StronglySorted R (List.concat ls) -> Forall (StronglySorted R) ls.
Proof.
  induction ls as [| l ls IH]; [constructor |].
  cbn [List.concat]. intros H. apply sorted_app_inv in H as (H1 & H2 & _).
  constructor; [exact H1 | exact (IH H2)].
Qed.

(** The two sorts of [getMissingTickets] find everything in order. *)
Lemma groups_of (ex : list Z) :
  grouped_by_diary (missing_among ex)
  = List.map entry_of (List.fold_left group_ticket (missing_tickets (missing_among ex)) []).
Proof.
  destruct (grouped_missing ex) as (Hs & Hc & _).
  pose proof (missing_numbers_sorted ex) as Hn. rewrite <- Hc in Hn.
  apply concat_sorted in Hn.
  unfold missing_among at 1. cbn [grouped_by_diary].
  change (List.map ticket_of
            (List.filter (fun num => negb (bool_decide (num ∈ (list_to_set ex : gset Z))))
                         allNumbers))
    with (missing_tickets (missing_among ex)).
  set (m := List.fold_left group_ticket (missing_tickets (missing_among ex)) []) in *.
  clearbody m.
  assert (Hinner : List.map (fun e : Z * list Z =>
                      {| group_diary_number := fst e;
                         missing_count := Z.of_nat (List.length (snd e));
                         missing_numbers := sort (fun n => n) (snd e) |}) m
                   = List.map entry_of m).
  { apply List.map_ext_in. intros e He. f_equal. apply sort_sorted.
    rewrite List.map_id. apply sorted_lt_le.
    rewrite List.Forall_map, List.Forall_forall in Hn. exact (Hn e He). }
  rewrite Hinner. apply sort_sorted.
  rewrite List.map_map. cbn [group_diary_number]. apply sorted_lt_le, Hs.
Qed.

Lemma filter_all {A : Type} (f : A -> bool) (l : list A) :
  Forall (fun x => f x = true) l -> List.filter f l = l.
Proof.
  induction 1 as [| x l Hx _ IH]; [reflexivity |].
  cbn [List.filter]. rewrite Hx, IH. reflexivity.
Qed.

Lemma filter_none {A : Type} (f : A -> bool) (l : list A) :
  Forall (fun x => f x = false) l -> List.filter f l = [].
Proof.
  induction 1 as [| x l Hx _ IH]; [reflexivity |].
  cbn [List.filter]. rewrite Hx, IH. reflexivity.
Qed.

(** A group holds all the numbers of its diary. *)
Lemma group_is_filter (m : NumberMap) (e : Z * list Z) :
  StronglySorted Z.lt (List.map fst m) ->
  Forall (fun e' : Z * list Z =>
            Forall (fun n => getDiaryFromLotteryNumber n = fst e') (snd e')) m ->
  List.In e m ->
  snd e = List.filter (fun n => getDiaryFromLotteryNumber n =? fst e)
                      (List.concat (List.map snd m)).
Proof.
  induction m as [| a m IH]; [contradiction |].
  cbn [List.map List.concat]. intros Hs Hg Hin.
  apply StronglySorted_inv in Hs as [Hs Ha].
  inversion Hg as [| ? ? Hga Hgm]; subst.
  rewrite List.filter_app. destruct Hin as [-> | Hin].
  - rewrite filter_all, filter_none, List.app_nil_r; [reflexivity | |].
    + apply List.Forall_concat, List.Forall_map.
      rewrite List.Forall_forall in Hgm, Ha. apply List.Forall_forall. intros e' He'.
      specialize (Ha (fst e') (List.in_map fst _ _ He')).
      eapply List.Forall_impl; [| exact (Hgm e' He')]. cbn. intros n Hn.
      apply Z.eqb_neq. lia.
    + eapply List.Forall_impl; [| exact Hga]. cbn. intros n Hn. apply Z.eqb_eq, Hn.
  - rewrite filter_none; [exact (IH Hs Hgm Hin) |].
    rewrite List.Forall_forall in Ha. specialize (Ha (fst e) (List.in_map fst _ _ Hin)).
    eapply List.Forall_impl; [| exact Hga]. cbn. intros n Hn. apply Z.eqb_neq. lia.
Qed.

Lemma sum_of_lengths (ls : list (list Z)) :
  List.fold_right Z.add 0 (List.map (fun l => Z.of_nat (List.length l)) ls)
  = Z.of_nat (List.length (List.concat ls)).
Proof.
  induction ls as [| l ls IH]; [reflexivity |].
  cbn [List.map List.fold_right List.concat]. rewrite IH, List.length_app. lia.
Qed.

(** X23.  The groups of [getMissingTickets], for any rows fetched: the
    diaries come in ascending order, each once; put one after the other,
    the groups are the list of the missing numbers; a group is not empty
    and holds, in ascending order, exactly the missing numbers of its
    diary, as many as its count says; and the counts add up to the
    total. *)
Theorem missing_groups_partition (ex : list Z) :
  let r := missing_among ex in
  let numbers := List.map lottery_number (missing_tickets r) in
  StronglySorted Z.lt (List.map group_diary_number (grouped_by_diary r))
  /\ List.concat (List.map missing_numbers (grouped_by_diary r)) = numbers
  /\ Forall (fun g =>
               missing_numbers g <> []
               /\ missing_count g = Z.of_nat (List.length (missing_numbers g))
               /\ StronglySorted Z.lt (missing_numbers g)
               /\ missing_numbers g
                  = List.filter
                      (fun n => getDiaryFromLotteryNumber n =? group_diary_number g)
                      numbers)
            (grouped_by_diary r)
  /\ List.fold_right Z.add 0 (List.map missing_count (grouped_by_diary r))
     = total_missing r.
Proof.
  intros r numbers. subst r numbers.
  destruct (grouped_missing ex) as (Hs & Hc & Hg).
  pose proof (missing_numbers_sorted ex) as Hn.
  assert (Htotal : total_missing (missing_among ex)
                   = Z.of_nat (List.length
                       (List.map lottery_number (missing_tickets (missing_among ex)))))
    by (rewrite List.length_map; reflexivity).
  rewrite Htotal, groups_of. clear Htotal.
  set (m := List.fold_left group_ticket (missing_tickets (missing_among ex)) []) in *.
  clearbody m. rewrite <- Hc in *. clear Hc.
  rewrite !List.map_map. cbn [group_diary_number missing_numbers missing_count].
  split; [exact Hs | split; [reflexivity | split]].
  - apply List.Forall_map, List.Forall_forall. intros e He.
    cbn [group_diary_number missing_numbers missing_count].
    rewrite List.Forall_forall in Hg. destruct (Hg e He) as [Hne _].
    apply concat_sorted in Hn. rewrite List.Forall_map, List.Forall_forall in Hn.
    split; [exact Hne | split; [reflexivity | split; [exact (Hn e He) |]]].
    apply group_is_filter; [exact Hs | | exact He].
    apply List.Forall_forall. intros e' He'. exact (proj2 (Hg e' He')).
  - rewrite <- sum_of_lengths, List.map_map. reflexivity.
Qed.

End MissingFacts.

Section MissingWhole.
Import Numbering Supabase Paging Missing.

Lemma sorted_NoDup (l : list Z) : StronglySorted Z.lt l -> List.NoDup l.
Proof.
  induction 1 as [| a l _ IH Hf]; constructor; [| exact IH].
  intros Hin. rewrite List.Forall_forall in Hf. specialize (Hf a Hin). lia.
Qed.

(** Each sold number takes one ticket off the list. *)
Lemma missing_count_of_sold (ex : list Z) :
  List.NoDup ex -> Forall (fun n => 1 <= n <= 39999) ex ->
  total_missing (missing_among ex) = 39999 - Z.of_nat (List.length ex).
Proof.
  intros Hnd Hin.
  set (has := fun num => bool_decide (num ∈ (list_to_set ex : gset Z))).
  pose proof (List.filter_length has allNumbers) as Hsplit.
  assert (Hsold : List.length (List.filter has allNumbers) = List.length ex).
  { apply Permutation.Permutation_length, Permutation.NoDup_Permutation.
    - apply List.NoDup_filter, sorted_NoDup, numbers_from_sorted.
    - exact Hnd.
    - intros n. rewrite List.filter_In, in_allNumbers. unfold has.
      rewrite bool_decide_eq_true, elem_of_list_to_set, list_elem_of_In.
      rewrite List.Forall_forall in Hin. split; [tauto |].
      intros H. split; [exact (Hin n H) | exact H]. }
  unfold missing_among. cbn [total_missing]. rewrite List.length_map.
  rewrite Hsold in Hsplit. subst has. cbv beta in Hsplit.
  pose proof length_allNumbers. lia.
Qed.

(** X24.  [getMissingTickets] on a table that does not change while it
    is read: the call returns, and reports a number exactly when it is
    from 1 to 39999 and no ticket sold has it; when the tickets sold have
    distinct numbers from 1 to 39999, each of them takes one off the
    39999. *)
Theorem getMissingTickets_on_stable_table (rows : list Z)
    (range : nat -> nat -> response (list Z)) (fuel : nat) :
  (forall from, range from (from + pageSize - 1)%nat
                = inr (slice rows from (from + pageSize - 1))) ->
  (List.length rows / pageSize < fuel)%nat ->
  exists r,
    getMissingTickets range fuel = Some (inr r)
    /\ (forall n, List.In n (List.map lottery_number (missing_tickets r))
                  <-> 1 <= n <= 39999 /\ ~ List.In n rows)
    /\ (List.NoDup rows -> Forall (fun n => 1 <= n <= 39999) rows ->
        total_missing r = 39999 - Z.of_nat (List.length rows)).
Proof.
  intros Hrange Hfuel. exists (missing_among rows). split; [| split].
  - unfold getMissingTickets.
    rewrite (fetch_pages_rest rows range Hrange fuel 0 [] Hfuel). reflexivity.
  - intros n. apply missing_number_spec.
  - apply missing_count_of_sold.
Qed.

Lemma getMissingTickets_on_stable_table_witness :
  exists r,
    getMissingTickets (fun from to_ => inr (slice [1; 2; 25] from to_)) 1 = Some (inr r)
    /\ (forall n, List.In n (List.map lottery_number (missing_tickets r))
                  <-> 1 <= n <= 39999 /\ ~ List.In n [1; 2; 25])
    /\ (List.NoDup [1; 2; 25] -> Forall (fun n => 1 <= n <= 39999) [1; 2; 25] ->
        total_missing r = 39999 - Z.of_nat (List.length [1; 2; 25])).
Proof.
  apply (getMissingTickets_on_stable_table [1; 2; 25]
           (fun from to_ => inr (slice [1; 2; 25] from to_)) 1).
  - intros from. reflexivity.
  - apply Nat.lt_succ_r. apply Nat.eq_le_incl. reflexivity.
Defined.

Lemma fetch_pages_fails {A : Type} (rows : list A)
    (range : nat -> nat -> response (list A)) (k : nat) (e : client_error) :
  (forall j, (j < k)%nat ->
     range (j * pageSize)%nat (j * pageSize + pageSize - 1)%nat
     = inr (slice rows (j * pageSize) (j * pageSize + pageSize - 1))) ->
  (k * pageSize <= List.length rows)%nat ->
  range (k * pageSize)%nat (k * pageSize + pageSize - 1)%nat = inl e ->
  forall d j all fuel,
    (j + d = k)%nat -> (d < fuel)%nat ->
    fetch_pages range fuel all (j * pageSize) = Some (inl e).
Proof.
  intros Hpages Hrows Herr. pose proof pageSize_positive as Hp.
  induction d as [| d IH]; intros j all fuel Hj Hfuel;
    (destruct fuel as [| fuel]; [lia |]); cbn [fetch_pages].
  - replace j with k by lia. rewrite Herr. reflexivity.
  - rewrite Hpages by lia. unfold slice.
    replace (S (j * pageSize + pageSize - 1) - j * pageSize)%nat with pageSize by lia.
    assert (Hnext : (S j * pageSize <= k * pageSize)%nat)
      by (apply Nat.mul_le_mono_r; lia).
    rewrite Nat.mul_succ_l in Hnext.
    assert (Hlen : List.length (firstn pageSize (skipn (j * pageSize) rows)) = pageSize).
    { rewrite List.length_firstn, List.length_skipn. lia. }
    rewrite Hlen, Nat.eqb_refl.
    destruct (Nat.ltb_spec 0 pageSize); [| lia].
    rewrite <- Nat.mul_succ_l. apply IH; lia.
Qed.

(** X25.  A request that fails ends the loop with its error: when the
    pages before the failing one were full, whatever they held is
    dropped and the error is what the loop gives, for
    [getMissingTickets] as for any other caller. *)
Theorem failed_page_is_thrown (rows : list Z)
    (range : nat -> nat -> response (list Z)) (k : nat) (e : client_error) (fuel : nat) :
  (forall j, (j < k)%nat ->
     range (j * pageSize)%nat (j * pageSize + pageSize - 1)%nat
     = inr (slice rows (j * pageSize) (j * pageSize + pageSize - 1))) ->
  (k * pageSize <= List.length rows)%nat ->
  range (k * pageSize)%nat (k * pageSize + pageSize - 1)%nat = inl e ->
  (k < fuel)%nat ->
  fetch_pages range fuel [] 0%nat = Some (inl e)
  /\ getMissingTickets range fuel = Some (inl e).
Proof.
  intros Hpages Hrows Herr Hfuel.
  assert (H : fetch_pages range fuel [] 0%nat = Some (inl e)).
  { exact (fetch_pages_fails rows range k e Hpages Hrows Herr k 0%nat [] fuel
             (Nat.add_0_l k) Hfuel). }
  split; [exact H |]. unfold getMissingTickets. rewrite H. reflexivity.
Qed.

Lemma failed_page_is_thrown_witness :
  fetch_pages (fun _ _ => inl (unreachable "offline") : response (list Z)) 1 [] 0%nat
  = Some (inl (unreachable "offline"))
  /\ getMissingTickets (fun _ _ => inl (unreachable "offline")) 1
     = Some (inl (unreachable "offline")).
Proof.
  apply (failed_page_is_thrown [] (fun _ _ => inl (unreachable "offline")) 0
           (unreachable "offline") 1).
  - intros j Hj. exfalso. exact (Nat.nlt_0_r j Hj).
  - apply Nat.le_0_l.
  - reflexivity.
  - apply Nat.lt_0_succ.
Defined.

End MissingWhole.

(* ===================================================================== *)
(** * The view of the prizes given and the quantities of the pages *)
(* ===================================================================== *)

Section StatsFacts.
Import Store Database SearchPage Registration Stats.

Lemma group_keys_in (tbl : table) (k : option string) :
  List.In k (group_keys tbl) -> List.In k (List.map Store.prize_category tbl).
Proof.
  induction tbl as [| r tbl IH]; [contradiction |].
  cbn [group_keys List.map]. intros [H | H]; [left; exact H | right].
  apply List.filter_In in H as [H _]. exact (IH H).
Qed.

Lemma in_group_keys (tbl : table) (c : string) :
  List.In (Some c) (List.map Store.prize_category tbl) ->
  List.In (Some c) (group_keys tbl).
Proof.
  induction tbl as [| r tbl IH]; [contradiction |].
  cbn [group_keys List.map]. intros [H | H]; [left; exact H |].
  destruct (same_group (Some c) (Store.prize_category r)) eqn:E.
  - left. unfold same_group in E. destruct (Store.prize_category r) as [x |];
      [| discriminate]. apply String.eqb_eq in E. rewrite E. reflexivity.
  - right. apply List.filter_In. split; [exact (IH H) | rewrite E; reflexivity].
Qed.

Lemma group_keys_NoDup (tbl : table) : List.NoDup (group_keys tbl).
Proof.
  induction tbl as [| r tbl IH]; [constructor |].
  cbn [group_keys]. constructor; [| apply List.NoDup_filter, IH].
  intros H. apply List.filter_In in H as [_ H].
  assert (E : same_group (Store.prize_category r) (Store.prize_category r) = true)
    by (unfold same_group; destruct (Store.prize_category r);
        [apply String.eqb_refl | reflexivity]).
  rewrite E in H. discriminate.
Qed.

Lemma group_of_category (c : string) (tbl : table) :
  List.filter (fun r => same_group (Store.prize_category r) (Some c)) tbl
  = select_by_category c tbl.
Proof.
  unfold select_by_category. apply List.filter_ext. intros r.
  unfold same_group, same_text. destruct (Store.prize_category r); reflexivity.
Qed.

Lemma MAX_of_one_value (q : Z) (xs : list (option Z)) :
  xs <> [] -> Forall (fun x => x = Some q) xs -> MAX xs = Some q.
Proof.
  intros Hne H. induction H as [| x xs -> Hxs IH]; [contradiction |].
  cbn [MAX List.fold_right]. destruct xs as [| y ys]; [reflexivity |].
  fold (MAX (y :: ys)). rewrite IH by discriminate. rewrite Z.max_id. reflexivity.
Qed.

(** What registrations establish for every row. *)
Lemma registered_rows (tbl : table) :
  registered tbl ->
  Forall (fun r => exists c,
            Store.prize_category r = Some c
            /\ Store.prize_quantity r = Some (getPrizeQuantity c)
            /\ List.In c (List.map name PRIZE_CATEGORIES)) tbl.
Proof.
  induction 1 as [| env ticket w0 w category nm contact Hg _ IH]; [constructor |].
  apply registerWinner_guards_passed in Hg as (_ & _ & Hq & _).
  assert (Hq0 : getPrizeQuantity category <> 0).
  { unfold winners_of in Hq. lia. }
  destruct (getPrizeQuantity_known category Hq0) as (Hin & Htrim & _).
  destruct (insert_winner_table env ticket category nm contact w) as [-> | ->];
    [exact IH |].
  apply List.Forall_app. split; [exact IH |]. constructor; [| constructor].
  exists category. rewrite sent_row. cbn [Store.prize_category Store.prize_quantity].
  rewrite Htrim. repeat split. exact Hin.
Qed.

(** X27.  On a table that registrations alone have filled, overlapping
    or not, the view [prize_category_stats] and the pages agree: the view
    has one row for each prize that has a winner and no other row; its
    count is the number of winners of the prize, its total is the
    quantity that [PRIZE_CATEGORIES] gives the prize, and its remaining
    quantity is what [getRemainingQuantity] computes.  (That quantity is
    below zero when overlapping calls have passed the ceiling.) *)
Theorem stats_agree_with_the_pages (tbl : table) :
  registered tbl ->
  Forall (fun s => exists c,
            stats_prize_category s = Some c
            /\ List.In c (List.map name PRIZE_CATEGORIES)
            /\ winners_count s = winners_of c tbl
            /\ 0 < winners_count s
            /\ total_quantity s = Some (getPrizeQuantity c)
            /\ remaining_quantity s = Some (getRemainingQuantity None c tbl))
         (prize_category_stats tbl)
  /\ List.NoDup (List.map stats_prize_category (prize_category_stats tbl))
  /\ forall c, 0 < winners_of c tbl ->
               List.In (Some c) (List.map stats_prize_category (prize_category_stats tbl)).
Proof.
  intros Hreg. pose proof (registered_rows tbl Hreg) as Hrows.
  assert (Hkeys : List.map stats_prize_category (prize_category_stats tbl) = group_keys tbl).
  { unfold prize_category_stats. rewrite List.map_map. cbn [stats_prize_category].
    apply List.map_id. }
  split; [| split].
  - unfold prize_category_stats. apply List.Forall_map, List.Forall_forall.
    intros k Hk. cbn [stats_prize_category winners_count total_quantity remaining_quantity].
    apply group_keys_in, List.in_map_iff in Hk as (r & <- & Hr).
    rewrite List.Forall_forall in Hrows.
    destruct (Hrows r Hr) as (c & Hc & Hq & Hin). rewrite Hc, group_of_category.
    assert (Hmember : List.In r (select_by_category c tbl)).
    { apply List.filter_In. split; [exact Hr |]. rewrite Hc. cbn. apply String.eqb_refl. }
    assert (Hmax : MAX (List.map Store.prize_quantity (select_by_category c tbl))
                   = Some (getPrizeQuantity c)).
    { apply MAX_of_one_value.
      - destruct (select_by_category c tbl); [contradiction | discriminate].
      - apply List.Forall_map, List.Forall_forall. intros o Ho.
        apply List.filter_In in Ho as [Ho Hsame].
        destruct (Hrows o Ho) as (c' & Hc' & Hq' & _). rewrite Hc' in Hsame.
        cbn in Hsame. apply String.eqb_eq in Hsame. subst c'. exact Hq'. }
    assert (Hrem : getRemainingQuantity None c tbl = getPrizeQuantity c - winners_of c tbl)
      by reflexivity.
    exists c. rewrite Hmax, Hrem. unfold winners_of in *.
    repeat split; try assumption; try lia.
    destruct (select_by_category c tbl); [contradiction | cbn; lia].
  - rewrite Hkeys. apply group_keys_NoDup.
  - intros c Hc. rewrite Hkeys. apply in_group_keys.
    unfold winners_of, select_by_category in Hc.
    destruct (List.filter _ tbl) as [| r rest] eqn:Hf; [cbn in Hc; lia |].
    assert (Hr : List.In r (List.filter
                   (fun r => same_text (Store.prize_category r) (Some c)) tbl))
      by (rewrite Hf; left; reflexivity).
    apply List.filter_In in Hr as [Hr Hsame].
    apply List.in_map_iff. exists r. split; [| exact Hr].
    unfold same_text in Hsame. destruct (Store.prize_category r) as [x |]; [| discriminate].
    apply String.eqb_eq in Hsame. rewrite Hsame. reflexivity.
Qed.

Lemma stats_agree_with_the_pages_witness :
  List.NoDup (List.map stats_prize_category
    (prize_category_stats
       (lottery_winners (insert_winner Samples.calm (Samples.ticket 23)
                           "Laptop" "Ravi" "9111111111"
                           (Samples.search_page "Laptop" [])))))
  /\ List.In (Some "Laptop") (List.map stats_prize_category
       (prize_category_stats
          (lottery_winners (insert_winner Samples.calm (Samples.ticket 23)
                              "Laptop" "Ravi" "9111111111"
                              (Samples.search_page "Laptop" []))))).
Proof.
  destruct (stats_agree_with_the_pages
              (lottery_winners (insert_winner Samples.calm (Samples.ticket 23)
                                  "Laptop" "Ravi" "9111111111"
                                  (Samples.search_page "Laptop" []))))
    as (_ & Hnd & Hin).
  - apply (registered_next Samples.calm (Samples.ticket 23)
             (Samples.search_page "Laptop" []) (Samples.search_page "Laptop" [])
             "Laptop" "Ravi" "9111111111").
    + reflexivity.
    + apply registered_empty.
  - split; [exact Hnd |]. apply Hin. vm_compute. reflexivity.
Defined.

End StatsFacts.
